(** * Schedule mini-app: portal client, response parser and cache

    A shallow embedding of the TypeScript modules
    [schedule-parser.ts], [eios-client.ts], [cache.ts],
    [credentials-manager.ts] and [schedule-service.ts], followed by the
    properties of the specification that concern them.

    JavaScript strings are sequences of UTF-16 code units; they are
    modelled as [list N].  Literals are written as Rocq strings (UTF-8)
    and decoded by [utf16]. *)

From Stdlib Require Import ZArith NArith List Lia Bool Ascii String.
From Stdlib Require Import Sorting.Sorted Sorting.Permutation.
From stdpp Require Import base option list gmap.
Import ListNotations.

Local Open Scope nat_scope.

(** ** JavaScript strings *)

Module JS.

Abbreviation jsstring := (list N).

(** UTF-8 decoding of the bytes of a literal, with code points above the
    basic plane written as surrogate pairs. *)
Definition emit_code_point (cp : N) : jsstring :=
  if (cp <? 65536)%N then [cp]
  else [(55296 + (cp - 65536) / 1024)%N; (56320 + (cp - 65536) mod 1024)%N].

Fixpoint utf8_go (bs : list N) (acc : N) (k : nat) : jsstring :=
  match bs with
  | [] => []
  | b :: bs' =>
      match k with
      | O =>
          if (b <? 128)%N then b :: utf8_go bs' 0%N 0
          else if (b <? 224)%N then utf8_go bs' (N.land b 31) 1
          else if (b <? 240)%N then utf8_go bs' (N.land b 15) 2
          else utf8_go bs' (N.land b 7) 3
      | S k' =>
          let acc' := (acc * 64 + N.land b 63)%N in
          match k' with
          | O => emit_code_point acc' ++ utf8_go bs' 0%N 0
          | S _ => utf8_go bs' acc' k'
          end
      end
  end.

Definition utf16 (s : string) : jsstring :=
  utf8_go (map N_of_ascii (list_ascii_of_string s)) 0%N 0.

(** [a === b] on strings. *)
Fixpoint str_eqb (a b : jsstring) : bool :=
  match a, b with
  | [], [] => true
  | x :: a', y :: b' => (x =? y)%N && str_eqb a' b'
  | _, _ => false
  end.

(** [a < b] on strings: code unit by code unit. *)
Fixpoint str_ltb (a b : jsstring) : bool :=
  match a, b with
  | _, [] => false
  | [], _ :: _ => true
  | x :: a', y :: b' =>
      if (x <? y)%N then true
      else if (y <? x)%N then false
      else str_ltb a' b'
  end.

Fixpoint startsWith (p s : jsstring) : bool :=
  match p, s with
  | [], _ => true
  | x :: p', y :: s' => (x =? y)%N && startsWith p' s'
  | _ :: _, [] => false
  end.

(** [s.includes(p)] *)
Fixpoint includes (s p : jsstring) : bool :=
  startsWith p s ||
  match s with
  | [] => false
  | _ :: s' => includes s' p
  end.

(** [s.split(sep)] for a non-empty separator.  [skip] counts the code
    units of a separator still to be dropped, [cur] holds the segment
    being read, reversed. *)
Fixpoint split_go (sep : jsstring) (s : jsstring) (skip : nat)
    (cur : jsstring) : list jsstring :=
  match s with
  | [] => [rev cur]
  | x :: s' =>
      match skip with
      | S k => split_go sep s' k cur
      | O =>
          if startsWith sep s
          then rev cur :: split_go sep s' (Nat.pred (length sep)) []
          else split_go sep s' 0 (x :: cur)
      end
  end.

Definition split (s sep : jsstring) : list jsstring := split_go sep s 0 [].

(** WhiteSpace and LineTerminator code units: what [trim] strips and
    what the class [\s] contains. *)
Definition isWhiteSpace (c : N) : bool :=
  ((9 <=? c) && (c <=? 13) || (c =? 32) || (c =? 160) || (c =? 5760)
   || (8192 <=? c) && (c <=? 8202) || (c =? 8232) || (c =? 8233)
   || (c =? 8239) || (c =? 8287) || (c =? 12288) || (c =? 65279))%N.

Fixpoint trimStart (s : jsstring) : jsstring :=
  match s with
  | x :: s' => if isWhiteSpace x then trimStart s' else s
  | [] => []
  end.

Definition trim (s : jsstring) : jsstring :=
  rev (trimStart (rev (trimStart s))).

(** [\d] *)
Definition isDigit (c : N) : bool := ((48 <=? c) && (c <=? 57))%N.

(** [.] without the [s] flag: anything but a line terminator. *)
Definition isDot (c : N) : bool :=
  negb ((c =? 10) || (c =? 13) || (c =? 8232) || (c =? 8233))%N.

Definition isNot (x : N) (c : N) : bool := negb (c =? x)%N.

(** [String(n)] for a natural number below 2^53 (above, a double is no
    longer printed digit by digit). *)
Fixpoint digits_of_uint (d : Decimal.uint) : jsstring :=
  match d with
  | Decimal.Nil => []
  | Decimal.D0 d' => 48%N :: digits_of_uint d'
  | Decimal.D1 d' => 49%N :: digits_of_uint d'
  | Decimal.D2 d' => 50%N :: digits_of_uint d'
  | Decimal.D3 d' => 51%N :: digits_of_uint d'
  | Decimal.D4 d' => 52%N :: digits_of_uint d'
  | Decimal.D5 d' => 53%N :: digits_of_uint d'
  | Decimal.D6 d' => 54%N :: digits_of_uint d'
  | Decimal.D7 d' => 55%N :: digits_of_uint d'
  | Decimal.D8 d' => 56%N :: digits_of_uint d'
  | Decimal.D9 d' => 57%N :: digits_of_uint d'
  end.

Definition String_of_N (n : N) : jsstring := digits_of_uint (N.to_uint n).

(** [parseInt(s, 10)] on a string of decimal digits (the only strings it
    is applied to in this program).  The value is exact; the rounding of
    IEEE doubles above 2^53 is not modelled. *)
Definition parseInt (s : jsstring) : N :=
  fold_left (fun acc d => (10 * acc + (d - 48))%N) s 0%N.

(** [Number(s)] where [s] is a plain decimal numeral of at most fifteen
    digits, which a double holds exactly; [None] for any other string,
    whose conversion is not modelled. *)
Definition Number_plain (s : jsstring) : option N :=
  match s with
  | [] => None
  | _ :: _ =>
      if forallb isDigit s && (length s <=? 15) then Some (parseInt s)
      else None
  end.

(** [String(z)] for an integer, and the text of [NaN]. *)
Definition String_of_Z (z : Z) : jsstring :=
  match z with
  | Z0 => String_of_N 0
  | Zpos p => String_of_N (Npos p)
  | Zneg p => 45%N :: String_of_N (Npos p)
  end.

Definition String_of_number (x : option Z) : jsstring :=
  match x with
  | Some z => String_of_Z z
  | None => utf16 "NaN"
  end.

(** Days from 1 January 1970 to the given day of the proleptic Gregorian
    calendar, months counted from 1 ([MakeDay] of the language
    definition; a day beyond the end of the month runs into the next
    one). *)
Definition daysFromCivil (y m d : Z) : Z :=
  let y' := if (m <=? 2)%Z then (y - 1)%Z else y in
  let era := (y' / 400)%Z in
  let yoe := (y' - era * 400)%Z in
  let mp := if (m <=? 2)%Z then (m + 9)%Z else (m - 3)%Z in
  let doy := ((153 * mp + 2) / 5 + d - 1)%Z in
  let doe := (yoe * 365 + yoe / 4 - yoe / 100 + doy)%Z in
  (era * 146097 + doe - 719468)%Z.

(** The Gregorian calendar, to say what [daysFromCivil] counts. *)
Definition isLeap (y : Z) : bool :=
  ((y mod 4 =? 0) && (negb (y mod 100 =? 0) || (y mod 400 =? 0)))%Z.

Definition daysInMonth (y m : Z) : Z :=
  (if m =? 2 then (if isLeap y then 29 else 28)
   else if (m =? 4) || (m =? 6) || (m =? 9) || (m =? 11) then 30
   else 31)%Z.

(** The date-only form [YYYY-MM-DD] of the date-time string format. *)
Definition parseIsoDate (s : jsstring) : option (Z * Z * Z) :=
  match s with
  | [y1; y2; y3; y4; h1; m1; m2; h2; d1; d2] =>
      if forallb isDigit [y1; y2; y3; y4; m1; m2; d1; d2]
         && (h1 =? 45)%N && (h2 =? 45)%N
      then
        let y := Z.of_N (parseInt [y1; y2; y3; y4]) in
        let m := Z.of_N (parseInt [m1; m2]) in
        let d := Z.of_N (parseInt [d1; d2]) in
        if ((1 <=? m) && (m <=? 12) && (1 <=? d) && (d <=? 31))%Z
        then Some (y, m, d)
        else None
      else None
  | _ => None
  end.

(** [new Date(s).getTime()].  A date-only string is read as midnight
    UTC of that day.  [None] is [NaN]; strings of another form, which
    engines read by their own rules, are given [NaN] here: the program
    documents its dates as [YYYY-MM-DD]. *)
Definition Date_getTime (s : jsstring) : option Z :=
  match parseIsoDate s with
  | Some (y, m, d) => Some (86400000 * daysFromCivil y m d)%Z
  | None => None
  end.

(** [s.padStart(n, zero)], padding with the digit zero *)
Definition padStart0 (n : nat) (s : jsstring) : jsstring :=
  repeat 48%N (n - length s) ++ s.

(** A number handed to the cache as a time to live: an integer, or one
    of the three values that are not finite. *)
Inductive number : Type :=
  | Int (z : Z)
  | Infinity
  | NegInfinity
  | NaN.

(** [x || ...] takes [x]: it is neither zero nor [NaN]. *)
Definition truthy (x : number) : bool :=
  match x with
  | Int z => negb (z =? 0)%Z
  | NaN => false
  | Infinity | NegInfinity => true
  end.

(** [Number.isSafeInteger] on a natural number: a double holds it, and
    every natural number below it, exactly. *)
Definition isSafeInteger (n : N) : bool := (n <? 2 ^ 53)%N.

(** [a < x] for an integer [a]. *)
Definition lessThan (a : Z) (x : number) : bool :=
  match x with
  | Int z => (a <? z)%Z
  | Infinity => true
  | NegInfinity | NaN => false
  end.

End JS.

(** ** Regular expressions

    The fragment of ECMAScript regular expressions the program uses:
    literals, character classes, sequences, capture groups, quantified
    classes (greedy or lazy, with bounds) and the [^] assertion.  The
    matcher is the backtracking matcher of the language definition,
    written with a continuation; every quantifier of the program applies
    to a single character class. *)

Module Regex.
Import JS.

Inductive regex : Type :=
  | Chr (c : N)
  | Str (s : jsstring)
  | Cls (p : N -> bool)
  | Cat (r1 r2 : regex)
  | Grp (i : nat) (r : regex)
  | Rep (greedy : bool) (lo : nat) (hi : option nat) (p : N -> bool)
  | Bol.

Declare Scope regex_scope.
Delimit Scope regex_scope with re.
Bind Scope regex_scope with regex.
Infix "**" := Cat (at level 60, right associativity) : regex_scope.

(** [p+], [p+?], [p*], [p?] and [p{n}] *)
Definition plus (p : N -> bool) : regex := Rep true 1 None p.
Definition plus_lazy (p : N -> bool) : regex := Rep false 1 None p.
Definition star (p : N -> bool) : regex := Rep true 0 None p.
Definition opt (p : N -> bool) : regex := Rep true 0 (Some 1) p.
Definition exactly (n : nat) (p : N -> bool) : regex := Rep true n (Some n) p.

(** Capture groups: [undefined] where a group took no part. *)
Definition captures := list (nat * jsstring).

Fixpoint capture (i : nat) (c : captures) : option jsstring :=
  match c with
  | [] => None
  | (j, s) :: c' => if Nat.eqb i j then Some s else capture i c'
  end.

Definition orelse {A} (x y : option A) : option A :=
  match x with
  | Some a => Some a
  | None => y
  end.

Section Matcher.
Context {A : Type}.

(** A quantified class, from position [pos] with [s] left to read. *)
Fixpoint rep (greedy : bool) (p : N -> bool) (lo : nat) (hi : option nat)
    (pos : nat) (s : jsstring) (k : nat -> jsstring -> option A) : option A :=
  let stop := match lo with O => k pos s | S _ => None end in
  let more :=
    match hi, s with
    | Some O, _ => None
    | _, x :: s' =>
        if p x
        then rep greedy p (Nat.pred lo) (option_map Nat.pred hi) (S pos) s' k
        else None
    | _, [] => None
    end in
  if greedy then orelse more stop else orelse stop more.

Fixpoint rmatch (r : regex) (pos : nat) (s : jsstring) (c : captures)
    (k : nat -> jsstring -> captures -> option A) : option A :=
  match r with
  | Chr x =>
      match s with
      | y :: s' => if (x =? y)%N then k (S pos) s' c else None
      | [] => None
      end
  | Str l =>
      if startsWith l s then k (pos + length l) (drop (length l) s) c
      else None
  | Cls p =>
      match s with
      | y :: s' => if p y then k (S pos) s' c else None
      | [] => None
      end
  | Cat r1 r2 =>
      rmatch r1 pos s c (fun pos1 s1 c1 => rmatch r2 pos1 s1 c1 k)
  | Grp i r1 =>
      rmatch r1 pos s c
        (fun pos1 s1 c1 => k pos1 s1 ((i, take (pos1 - pos) s) :: c1))
  | Rep greedy lo hi p =>
      rep greedy p lo hi pos s (fun pos1 s1 => k pos1 s1 c)
  | Bol => if Nat.eqb pos 0 then k pos s c else None
  end.
End Matcher.

(** What a successful run of the matcher means: from position [pos] with
    [s] left to read and groups [c], the pattern reads a prefix of [s] and
    leaves [s'] at position [pos'] with groups [c']. *)
Fixpoint sem (r : regex) (pos : nat) (s : jsstring) (c : captures)
    (pos' : nat) (s' : jsstring) (c' : captures) : Prop :=
  match r with
  | Chr x => s = x :: s' /\ pos' = S pos /\ c' = c
  | Str l => s = l ++ s' /\ pos' = pos + length l /\ c' = c
  | Cls p => exists y, s = y :: s' /\ p y = true /\ pos' = S pos /\ c' = c
  | Cat r1 r2 =>
      exists pos1 s1 c1,
        sem r1 pos s c pos1 s1 c1 /\ sem r2 pos1 s1 c1 pos' s' c'
  | Grp i r1 =>
      exists c1,
        sem r1 pos s c pos' s' c1 /\ c' = (i, take (pos' - pos) s) :: c1
  | Rep _ lo hi p =>
      exists l,
        s = l ++ s' /\ forallb p l = true /\ lo <= length l
        /\ (forall h, hi = Some h -> length l <= h)
        /\ pos' = pos + length l /\ c' = c
  | Bol => pos = 0 /\ pos' = pos /\ s' = s /\ c' = c
  end.

(** The result of [exec]: where the match starts and ends, and its
    groups ([match[0]] is the text between [m_index] and [m_end]). *)
Record MatchResult : Type := mkMatch {
  m_index : nat;
  m_end : nat;
  m_groups : captures;
}.

(** [match[i]] for a group that is known to take part: the program reads
    groups only of patterns in which every group is mandatory. *)
Definition group (i : nat) (m : MatchResult) : jsstring :=
  default [] (capture i (m_groups m)).

(** The leftmost match starting at [pos] or later. *)
Fixpoint search (r : regex) (pos : nat) (s : jsstring) : option MatchResult :=
  match rmatch r pos s [] (fun pos1 _ c1 => Some (mkMatch pos pos1 c1)) with
  | Some m => Some m
  | None =>
      match s with
      | [] => None
      | _ :: s' => search r (S pos) s'
      end
  end.

(** [re.exec(input)] with [re.lastIndex = lastIndex] (a pattern with the
    [g] flag), and from the start for a pattern without it. *)
Definition exec (r : regex) (input : jsstring) (lastIndex : nat)
    : option MatchResult :=
  if length input <? lastIndex then None
  else search r lastIndex (drop lastIndex input).

(** [input.match(re)] for a pattern without the [g] flag. *)
Definition match_ (input : jsstring) (r : regex) : option MatchResult :=
  exec r input 0.

(** [input.match(re)] for a pattern with the [g] flag: the texts of the
    successive matches.  After an empty match the search moves on by one
    code unit.  The search needs at most [S (length input)] turns. *)
Fixpoint matchAll (fuel : nat) (r : regex) (input : jsstring)
    (lastIndex : nat) : list MatchResult :=
  match fuel with
  | O => []
  | S fuel' =>
      match exec r input lastIndex with
      | None => []
      | Some m =>
          m :: matchAll fuel' r input
                 (if Nat.eqb (m_end m) (m_index m) then S (m_end m)
                  else m_end m)
      end
  end.

Definition matchG (input : jsstring) (r : regex) : list jsstring :=
  map (fun m => take (m_end m - m_index m) (drop (m_index m) input))
    (matchAll (S (length input)) r input 0).

(** The flag [i]: a letter of the pattern matches both of its cases.  The
    patterns with this flag are written in ASCII, which no code unit
    outside ASCII is the other case of. *)
Definition upperAscii (c : N) : N :=
  if ((97 <=? c) && (c <=? 122))%N then (c - 32)%N else c.

Definition ci (x : N) (c : N) : bool := (upperAscii c =? upperAscii x)%N.

Fixpoint istr (s : jsstring) : regex :=
  match s with
  | [] => Str []
  | x :: s' => Cat (Cls (ci x)) (istr s')
  end.

(** [input.replace(re, empty)] for a pattern without the [g] flag,
    with the empty string given for the match. *)
Definition replace_empty (input : jsstring) (r : regex) : jsstring :=
  match exec r input 0 with
  | Some m => take (m_index m) input ++ drop (m_end m) input
  | None => input
  end.

End Regex.

(** ** The response parser ([schedule-parser.ts]) *)

Module Parser.
Import JS Regex.
Local Open Scope regex_scope.

(** [ScheduleEvent] of [types.ts].  [day], [month] and [year] are the
    integers read by [parseInt]. *)
Record ScheduleEvent : Type := mkEvent {
  course_name : jsstring;
  teacher : jsstring;
  start_time : jsstring;
  end_time : jsstring;
  group : jsstring;
  type : jsstring;
  room : jsstring;
  address : jsstring;
  day : N;
  month : N;
  year : N;
  start_date : jsstring;
}.

Definition set_type (v : jsstring) (e : ScheduleEvent) : ScheduleEvent :=
  mkEvent (course_name e) (teacher e) (start_time e) (end_time e) (group e)
    v (room e) (address e) (day e) (month e) (year e) (start_date e).

Definition set_room (v : jsstring) (e : ScheduleEvent) : ScheduleEvent :=
  mkEvent (course_name e) (teacher e) (start_time e) (end_time e) (group e)
    (type e) v (address e) (day e) (month e) (year e) (start_date e).

Definition set_address (v : jsstring) (e : ScheduleEvent) : ScheduleEvent :=
  mkEvent (course_name e) (teacher e) (start_time e) (end_time e) (group e)
    (type e) (room e) v (day e) (month e) (year e) (start_date e).

Definition chr (a : ascii) : N := N_of_ascii a.

(** [MONTH_NAMES] of [types.ts] *)
Definition MONTH_NAMES (m : N) : option jsstring :=
  match m with
  | 1%N => Some (utf16 "января")
  | 2%N => Some (utf16 "февраля")
  | 3%N => Some (utf16 "марта")
  | 4%N => Some (utf16 "апреля")
  | 5%N => Some (utf16 "мая")
  | 6%N => Some (utf16 "июня")
  | 7%N => Some (utf16 "июля")
  | 8%N => Some (utf16 "августа")
  | 9%N => Some (utf16 "сентября")
  | 10%N => Some (utf16 "октября")
  | 11%N => Some (utf16 "ноября")
  | 12%N => Some (utf16 "декабря")
  | _ => None
  end.

(** [/\['(\d+)_\d+',2,\['(.+?)','(\d{2}:\d{2})','(\d{2}:\d{2})'/g] *)
Definition hhmm : regex :=
  exactly 2 isDigit ** Chr (chr ":") ** exactly 2 isDigit.

Definition pattern : regex :=
  Str (utf16 "['") ** Grp 1 (plus isDigit) ** Chr (chr "_") ** plus isDigit
  ** Str (utf16 "',2,['") ** Grp 2 (plus_lazy isDot)
  ** Str (utf16 "','") ** Grp 3 hhmm
  ** Str (utf16 "','") ** Grp 4 hhmm ** Chr (chr "'").

(** [/'visibleDays':'(\d+)\/(\d+)\/(\d+)'/] *)
Definition datePattern : regex :=
  Str (utf16 "'visibleDays':'") ** Grp 1 (plus isDigit) ** Chr (chr "/")
  ** Grp 2 (plus isDigit) ** Chr (chr "/") ** Grp 3 (plus isDigit)
  ** Chr (chr "'").

(** [/\(пр:\s*([^)]+)\)/] *)
Definition teacherPattern : regex :=
  Str (utf16 "(пр:") ** star isWhiteSpace ** Grp 1 (plus (isNot (chr ")")))
  ** Chr (chr ")").

(** [/^-/] *)
Definition leadingDash : regex := Bol ** Chr (chr "-").

(** [/ауд\.?\s*(\d+)/] *)
Definition roomPattern : regex :=
  Str (utf16 "ауд") ** opt (N.eqb (chr ".")) ** star isWhiteSpace
  ** Grp 1 (plus isDigit).

(** [/\(([^)]+)\)/] *)
Definition addressPattern : regex :=
  Chr (chr "(") ** Grp 1 (plus (isNot (chr ")"))) ** Chr (chr ")").

(** The separator of the segments of a record: [\\r\\n], six code
    units (the payload escapes the line break four times). *)
Definition separator : jsstring := utf16 "\\r\\n".

Definition extractDate (html : jsstring) : N * N * N :=
  match match_ html datePattern with
  | Some dateMatch =>
      (parseInt (Regex.group 1 dateMatch),
       parseInt (Regex.group 2 dateMatch),
       parseInt (Regex.group 3 dateMatch))
  | None => (0, 0, 0)%N
  end.

Definition extractTeacher (line : jsstring) : jsstring :=
  match match_ line teacherPattern with
  | Some teacherMatch => trim (Regex.group 1 teacherMatch)
  | None => []
  end.

(** [parseDetails] fills [type], [room] and [address] of the event it is
    given. *)
Definition parseDetails (details : jsstring) (event : ScheduleEvent)
    : ScheduleEvent :=
  let event :=
    if includes details (utf16 "Лекция")
    then set_type (utf16 "Лекция") event
    else if includes details (utf16 "Практическое занятие")
    then set_type (utf16 "Практическое занятие") event
    else if includes details (utf16 "Семинар")
    then set_type (utf16 "Семинар") event
    else if includes details (utf16 "Лабораторная работа")
    then set_type (utf16 "Лабораторная работа") event
    else event in
  let event :=
    match match_ details roomPattern with
    | Some roomMatch => set_room (Regex.group 1 roomMatch) event
    | None => event
    end in
  match match_ details addressPattern with
  | Some addressMatch => set_address (Regex.group 1 addressMatch) event
  | None => event
  end.

(** The event built from a record of at least four segments. *)
Definition buildEvent (date : N * N * N) (parts : list jsstring)
    (startTime endTime : jsstring) : ScheduleEvent :=
  let '(day, month, year) := date in
  let courseName := nth 0 parts [] in
  let details := trim (replace_empty (nth 1 parts []) leadingDash) in
  let teacherLine := nth 2 parts [] in
  let group := nth 3 parts [] in
  let teacher := extractTeacher teacherLine in
  let event :=
    {| course_name := courseName;
       teacher := teacher;
       start_time := startTime;
       end_time := endTime;
       group := group;
       type := [];
       room := [];
       address := [];
       day := day;
       month := month;
       year := year;
       start_date :=
         if (month =? 0)%N then []
         else String_of_N day ++ utf16 " "
              ++ default (utf16 "undefined") (MONTH_NAMES month)
              ++ utf16 " " ++ String_of_N year |} in
  parseDetails details event.

(** One turn of the [while] loop for the match [m]: either [continue]
    (the list is left as it is) or [events.push(event)].  Nothing in the
    body throws, so the [catch] branch is never taken. *)
Definition loopBody (date : N * N * N) (m : MatchResult)
    (events : list ScheduleEvent) : list ScheduleEvent :=
  let fullString := Regex.group 2 m in
  let startTime := Regex.group 3 m in
  let endTime := Regex.group 4 m in
  let parts := split fullString separator in
  if length parts <? 4 then events
  else events ++ [buildEvent date parts startTime endTime].

(** [while ((match = pattern.exec(html)) !== null) { ... }]: [lastIndex]
    is the state of the pattern, [events] the list being filled.  [None]
    means that the fuel ran out before [exec] returned [null]. *)
Fixpoint parseLoop (fuel : nat) (html : jsstring) (date : N * N * N)
    (lastIndex : nat) (events : list ScheduleEvent)
    : option (list ScheduleEvent) :=
  match fuel with
  | O => None
  | S fuel' =>
      match exec pattern html lastIndex with
      | None => Some events
      | Some m => parseLoop fuel' html date (m_end m) (loopBody date m events)
      end
  end.

Definition parseResponseFuel (html : jsstring) : option (list ScheduleEvent) :=
  parseLoop (S (length html)) html (extractDate html) 0 [].

Definition parseResponse (html : jsstring) : list ScheduleEvent :=
  default [] (parseResponseFuel html).

(** The successive results of [pattern.exec(html)], as the loop sees
    them. *)
Fixpoint execAll (fuel : nat) (html : jsstring) (lastIndex : nat)
    : option (list MatchResult) :=
  match fuel with
  | O => None
  | S fuel' =>
      match exec pattern html lastIndex with
      | None => Some []
      | Some m => option_map (cons m) (execAll fuel' html (m_end m))
      end
  end.

End Parser.

(** Readings of a match of [pattern], used to state what the loop does
    with it. *)
Module Record.
Import JS Regex Parser.

(** The segments of the blob of a record. *)
Definition segments (m : MatchResult) : list jsstring :=
  split (Regex.group 2 m) separator.

Definition wellFormed (m : MatchResult) : bool := 4 <=? length (segments m).

Definition recordEvent (date : N * N * N) (m : MatchResult) : ScheduleEvent :=
  buildEvent date (segments m) (Regex.group 3 m) (Regex.group 4 m).

(** A string of the shape [\d{2}:\d{2}]. *)
Definition isTime (t : jsstring) : bool :=
  match t with
  | [a; b; c; d; e] =>
      isDigit a && isDigit b && (c =? 58)%N && isDigit d && isDigit e
  | _ => false
  end.

End Record.


(** ** The host: clock, storage, network

    The program runs in a browser inside the chat application.  What it
    reads and writes there is kept in a [World]; its [async] functions
    are computations that thread the world and may throw. *)

Module Host.
Import JS.

(** A thrown value: the name of the class of the error and its
    message.  [new Error(msg)] has the name [Error]. *)
Record JsError : Type := mkError {
  err_name : jsstring;
  err_message : jsstring;
}.

Definition Error (msg : jsstring) : JsError := mkError (utf16 "Error") msg.

(** *** Requests and responses *)

Inductive Method : Type := GET | POST | HEAD | DELETE.

(** The body of a request is [new URLSearchParams(formData).toString()];
    it is kept as the form fields it encodes. *)
Record Request : Type := mkRequest {
  req_method : Method;
  req_url : jsstring;
  req_headers : list (jsstring * jsstring);
  req_body : option (gmap (list N) (list N));
}.

(** What [json()] does with the body.  It rejects, with an error whose
    message the engine words and which may quote the body.  Or it
    resolves to [null], and the first read of a field of it throws a
    [TypeError] that the engine words too.  Or it resolves to the
    object the body denotes, an object with string fields; a value that
    is neither [null] nor an object has no fields the program reads,
    and is the object without fields. *)
Inductive JsonResult : Type :=
  | JsonRejects (e : JsError)
  | JsonNull (e : JsError)
  | JsonObject (fields : gmap (list N) (list N)).

(** A response: [status], [statusText], what [text()] resolves to, and
    what [json()] does. *)
Record Response : Type := mkResponse {
  status : N;
  statusText : jsstring;
  text : jsstring;
  json : JsonResult;
}.

(** [response.ok] *)
Definition ok (r : Response) : bool :=
  ((200 <=? status r) && (status r <=? 299))%N.

Inductive NetResult : Type :=
  | Rejected (e : JsError)
  | Responded (r : Response).

(** *** Storage *)

(** The envelope of an entry: the data, [Date.now()] at the time of the
    save, and the time to live, a number of milliseconds.  In the
    envelope [JSON.parse] reads from a text the time to live may be
    [null], which is [None]. *)
Record CacheItem (T : Type) : Type := mkCacheItem {
  data : T;
  timestamp : Z;
  ttl : option number;
}.
Arguments mkCacheItem {T} _ _ _.
Arguments data {T} _.
Arguments timestamp {T} _.
Arguments ttl {T} _.

(** What [JSON.stringify] writes for a number, as [JSON.parse] reads it
    back: the number itself, or [null] for a number that is not
    finite. *)
Definition JSON_number (x : number) : option number :=
  match x with
  | Int z => Some (Int z)
  | Infinity | NegInfinity | NaN => None
  end.

(** A stored text.  [Text item] is a JSON text that [JSON.parse] reads
    as the envelope [item]; [Garbled] is any other text, on which
    [JSON.parse] throws. *)
Inductive Stored : Type :=
  | Text (item : CacheItem (list Parser.ScheduleEvent))
  | Garbled (text : jsstring).

(** [JSON.stringify] of an envelope.  JSON denotes strings, finite
    numbers, arrays and objects exactly, and writes [null] for a number
    that is not finite.  The strings of an event and the time stamp, an
    integer, are written as they are.  So are the three numbers of an
    event where they are safe integers: there the natural number of
    this development is the number the program holds, while [parseInt]
    of a longer run of digits is a rounded number or [Infinity].  What
    is stated of a list read back is stated of such events.  The time
    to live, which need not be finite, goes through [JSON_number]. *)
Definition JSON_stringify (item : CacheItem (list Parser.ScheduleEvent))
    : Stored :=
  Text {| data := data item;
          timestamp := timestamp item;
          ttl := match ttl item with
                 | Some t => JSON_number t
                 | None => None
                 end |}.

Definition JSON_parse (s : Stored)
    : option (CacheItem (list Parser.ScheduleEvent)) :=
  match s with
  | Text item => Some item
  | Garbled _ => None
  end.

(** [!serialized] for a stored text: only the empty text is falsy. *)
Definition isEmptyText (s : Stored) : bool :=
  match s with
  | Text _ => false
  | Garbled [] => true
  | Garbled (_ :: _) => false
  end.

(** The calls the cache makes to a store.  For [localStorage],
    [GetKeys] is [Object.keys(localStorage)]. *)
Inductive StorageCall : Type :=
  | SetItem
  | GetItem
  | RemoveItem
  | GetKeys
  | RemoveItems.

(** [Telegram.WebApp.CloudStorage]: its items, and which calls it
    answers with an error.  Each kind of call fails or not on its own:
    a store may take no write and still answer reads. *)
Record CloudStorage : Type := mkCloud {
  cs_items : gmap (list N) Stored;
  cs_failing : StorageCall -> bool;
}.

(** [localStorage]: its items, and which calls throw (storage is
    blocked, or full for writes). *)
Record LocalStorage : Type := mkLocal {
  ls_items : gmap (list N) Stored;
  ls_failing : StorageCall -> bool;
}.

(** A store that answers every call. *)
Definition answering : StorageCall -> bool := fun _ => false.

(** [window.Telegram.WebApp] *)
Record WebApp : Type := mkWebApp {
  initData : jsstring;
  CloudStorage_ : option CloudStorage;
}.

Record UserCredentials : Type := mkCredentials {
  username : jsstring;
  password : jsstring;
  base_plan_id : jsstring;
}.

(** *** The world *)

Record World : Type := mkWorld {
  (** [Date.now()] *)
  clock : Z;
  (** [window.Telegram?.WebApp] *)
  telegram : option WebApp;
  localStorage : LocalStorage;
  (** [CredentialsManager.cachedCredentials] *)
  cachedCredentials : option UserCredentials;
  (** what the network answers to a request, given the requests sent
      before it, and the time the exchange takes *)
  network : list Request -> Request -> Z * NetResult;
  (** the requests sent so far, oldest first *)
  sent : list Request;
}.

Definition set_clock (t : Z) (w : World) : World :=
  mkWorld t (telegram w) (localStorage w) (cachedCredentials w)
    (network w) (sent w).

Definition set_telegram (t : option WebApp) (w : World) : World :=
  mkWorld (clock w) t (localStorage w) (cachedCredentials w)
    (network w) (sent w).

Definition set_localStorage (l : LocalStorage) (w : World) : World :=
  mkWorld (clock w) (telegram w) l (cachedCredentials w)
    (network w) (sent w).

Definition set_cachedCredentials (c : option UserCredentials) (w : World)
    : World :=
  mkWorld (clock w) (telegram w) (localStorage w) c (network w) (sent w).

Definition set_sent (l : list Request) (w : World) : World :=
  mkWorld (clock w) (telegram w) (localStorage w) (cachedCredentials w)
    (network w) l.

(** *** Computations *)

Inductive Outcome (A : Type) : Type :=
  | Ok (a : A)
  | Throw (e : JsError).
Arguments Ok {A} _.
Arguments Throw {A} _.

Definition M (A : Type) : Type := World -> Outcome A * World.

Definition ret {A} (a : A) : M A := fun w => (Ok a, w).

Definition throw {A} (e : JsError) : M A := fun w => (Throw e, w).

Definition bind {A B} (m : M A) (k : A -> M B) : M B :=
  fun w =>
    match m w with
    | (Ok a, w') => k a w'
    | (Throw e, w') => (Throw e, w')
    end.

(** [try { m } catch (error) { h(error) }] *)
Definition try_catch {A} (m : M A) (h : JsError -> M A) : M A :=
  fun w =>
    match m w with
    | (Ok a, w') => (Ok a, w')
    | (Throw e, w') => h e w'
    end.

Definition read {A} (f : World -> A) : M A := fun w => (Ok (f w), w).

Definition write (f : World -> World) : M unit := fun w => (Ok tt, f w).

Declare Scope js_scope.
Delimit Scope js_scope with js.
Notation "x <- m ;; k" := (bind m (fun x => k))
  (at level 100, m at next level, right associativity) : js_scope.
Notation "m ;; k" := (bind m (fun _ => k))
  (at level 100, right associativity) : js_scope.

(** [Date.now()] *)
Definition Date_now : M Z := read clock.

(** [fetch(url, init)]: the request is recorded, the time of the exchange
    passes, and the promise resolves or rejects as the network says. *)
Definition fetch (req : Request) : M Response :=
  fun w =>
    let '(elapsed, result) := network w (sent w) req in
    let w' := set_sent (sent w ++ [req]) (set_clock (clock w + elapsed)%Z w) in
    match result with
    | Responded r => (Ok r, w')
    | Rejected e => (Throw e, w')
    end.

(** [btoa]: base64 of a string of code units below 256; it throws on any
    other string. *)
Definition base64_char (i : N) : N :=
  if (i <? 26)%N then (65 + i)%N
  else if (i <? 52)%N then (97 + (i - 26))%N
  else if (i <? 62)%N then (48 + (i - 52))%N
  else if (i =? 62)%N then 43%N
  else 47%N.

Fixpoint base64 (l : list N) : jsstring :=
  match l with
  | [] => []
  | [a] =>
      [base64_char (a / 4); base64_char ((a mod 4) * 16); 61%N; 61%N]
  | [a; b] =>
      [base64_char (a / 4); base64_char ((a mod 4) * 16 + b / 16);
       base64_char ((b mod 16) * 4); 61%N]
  | a :: b :: c :: rest =>
      base64_char (a / 4) :: base64_char ((a mod 4) * 16 + b / 16)
      :: base64_char ((b mod 16) * 4 + c / 64) :: base64_char (c mod 64)
      :: base64 rest
  end.

Definition btoa (s : jsstring) : M jsstring :=
  if forallb (fun c => (c <? 256)%N) s then ret (base64 s)
  else throw (mkError (utf16 "InvalidCharacterError")
                (utf16 "The string to be encoded contains characters outside of the Latin1 range.")).

End Host.

(** ** The portal client ([eios-client.ts]) *)

Module Client.
Import JS Regex Parser Host.
Local Open Scope regex_scope.
Local Open Scope js_scope.

Record EIOSConfig : Type := mkEIOSConfig {
  baseUrl : jsstring;
  timeout : N;
}.

(** The configuration of the exported client, [new EIOSClient()]. *)
Definition defaultEIOSConfig : EIOSConfig :=
  {| baseUrl := utf16 "https://eios.linguanet.ru"; timeout := 30000 |}.

(** A line written to the console by [console.log] or [console.warn]. *)
Inductive LogLevel : Type := Log | Warn.

(** The class of the two quote characters, code units 34 and 39; it is
    written [Q] in the patterns below. *)
Definition isQuote (c : N) : bool := ((c =? 34) || (c =? 39))%N.

(** [/<input[^>]*type=QhiddenQ[^>]*>/gi] *)
Definition inputPattern : regex :=
  istr (utf16 "<input") ** star (isNot (chr ">")) ** istr (utf16 "type=")
  ** Cls isQuote ** istr (utf16 "hidden") ** Cls isQuote
  ** star (isNot (chr ">")) ** Chr (chr ">").

(** [/name=Q([^Q]+)Q/i] *)
Definition namePattern : regex :=
  istr (utf16 "name=") ** Cls isQuote
  ** Grp 1 (plus (fun c => negb (isQuote c))) ** Cls isQuote.

(** [/value=Q([^Q]{0,})Q/i] *)
Definition valuePattern : regex :=
  istr (utf16 "value=") ** Cls isQuote
  ** Grp 1 (star (fun c => negb (isQuote c))) ** Cls isQuote.

(** [/'__VIEWSTATE'\s*:\s*'([^']+)'/] *)
Definition viewStatePattern : regex :=
  Str (utf16 "'__VIEWSTATE'") ** star isWhiteSpace ** Chr (chr ":")
  ** star isWhiteSpace ** Chr (chr "'") ** Grp 1 (plus (isNot (chr "'")))
  ** Chr (chr "'").

(** [/'visibleDays':'([^']+)'/] *)
Definition visibleDaysPattern : regex :=
  Str (utf16 "'visibleDays':'") ** Grp 1 (plus (isNot (chr "'")))
  ** Chr (chr "'").

Definition CALLBACKID : jsstring := utf16 "__CALLBACKID".
Definition CALLBACKPARAM : jsstring := utf16 "__CALLBACKPARAM".
Definition VIEWSTATE : jsstring := utf16 "__VIEWSTATE".

(** [dateToTimestamp] *)
Definition dateToTimestamp (dateStr : jsstring) : option Z :=
  Date_getTime dateStr.

(** [formData[name] = value] on the plain object the form is, for a
    string [value]: an own property is set, except under the name
    [__proto__], where the assignment reaches the setter of
    [Object.prototype], which ignores a string and sets nothing. *)
Definition assign (name value : jsstring) (formData : gmap (list N) (list N))
    : gmap (list N) (list N) :=
  if str_eqb name (utf16 "__proto__") then formData
  else <[name := value]> formData.

(** [extractFormData]: the hidden fields of the page, the later of two
    fields of one name winning. *)
Definition extractFormData (html : jsstring) : gmap (list N) (list N) :=
  fold_left
    (fun (formData : gmap (list N) (list N)) inputHtml =>
       let nameMatch := match_ inputHtml namePattern in
       let valueMatch := match_ inputHtml valuePattern in
       match nameMatch with
       | Some nameMatch =>
           let name := Regex.group 1 nameMatch in
           let value :=
             match valueMatch with
             | Some valueMatch => Regex.group 1 valueMatch
             | None => []
             end in
           assign name value formData
       | None => formData
       end)
    (matchG html inputPattern) ∅.

(** [updateViewState] overwrites one field of the form it is given. *)
Definition updateViewState (html : jsstring)
    (formData : gmap (list N) (list N)) : gmap (list N) (list N) :=
  match match_ html viewStatePattern with
  | Some viewStateMatch => <[VIEWSTATE := Regex.group 1 viewStateMatch]> formData
  | None => formData
  end.

(** What [verifyNavigation] writes to the console; it does nothing
    else.  [None] when a part of the visible date is not a plain decimal
    numeral (see [Number_plain]). *)
Definition verifyNavigation (html targetDate : jsstring)
    : option (list (LogLevel * jsstring)) :=
  match match_ html visibleDaysPattern with
  | None => Some []
  | Some visibleMatch =>
      let visibleDate := Regex.group 1 visibleMatch in
      let parts := map Number_plain (split visibleDate (utf16 "/")) in
      if forallb (fun part => if part is Some _ then true else false) parts then
        (* [undefined] where the list is too short *)
        let show (i : nat) : jsstring :=
          match nth_error parts i with
          | Some (Some n) => String_of_N n
          | _ => utf16 "undefined"
          end in
        let day := show 0 in
        let month := show 1 in
        let year := show 2 in
        let dateFromResponse :=
          year ++ utf16 "-" ++ padStart0 2 month ++ utf16 "-"
          ++ padStart0 2 day in
        Some
          [(Log, utf16 "📅 Текущая дата в ответе: " ++ visibleDate);
           if str_eqb dateFromResponse targetDate
           then (Log, utf16 "✅ Успешно перешли к " ++ targetDate ++ utf16 "!")
           else (Warn, utf16 "⚠️ Ожидали " ++ targetDate ++ utf16 ", получили "
                       ++ dateFromResponse)]
      else None
  end.

Section Client.
Context (config : EIOSConfig).

Definition getScheduleUrl (basePlanId : jsstring) : jsstring :=
  baseUrl config
  ++ utf16 "/_layouts/sinc/ia/v1.0/pages/MySchedule.aspx?base_plan_ids="
  ++ basePlanId.

Definition createAuthHeader (username password : jsstring) : M jsstring :=
  encoded <- btoa (username ++ utf16 ":" ++ password) ;;
  ret (utf16 "Basic " ++ encoded).

Definition httpError (response : Response) : JsError :=
  Error (utf16 "HTTP " ++ String_of_N (status response) ++ utf16 ": "
         ++ statusText response).

(** Step 1: the page with the hidden fields. *)
Definition fetchInitialPage (credentials : UserCredentials) : M jsstring :=
  let url := getScheduleUrl (base_plan_id credentials) in
  authHeader <-
    createAuthHeader (username credentials) (password credentials) ;;
  response <-
    fetch {| req_method := GET;
             req_url := url;
             req_headers :=
               [(utf16 "Authorization", authHeader);
                (utf16 "User-Agent",
                 utf16 "Mozilla/5.0 (Macintosh; Intel Mac OS X 10_15_7) AppleWebKit/537.36")];
             req_body := None |} ;;
  if negb (ok response) then throw (httpError response)
  else ret (text response).

Definition postHeaders (authHeader url : jsstring)
    : list (jsstring * jsstring) :=
  [(utf16 "Authorization", authHeader);
   (utf16 "Content-Type",
    utf16 "application/x-www-form-urlencoded; charset=UTF-8");
   (utf16 "X-Requested-With", utf16 "XMLHttpRequest");
   (utf16 "Referer", url);
   (utf16 "User-Agent", utf16 "Mozilla/5.0")].

(** Step 2: the switch to the day view.  The form is the object the
    caller holds: the fields set here stay set for the next step, so
    the form is returned with the page. *)
Definition switchToDayView (credentials : UserCredentials)
    (formData : gmap (list N) (list N))
    : M (jsstring * gmap (list N) (list N)) :=
  let url := getScheduleUrl (base_plan_id credentials) in
  authHeader <-
    createAuthHeader (username credentials) (password credentials) ;;
  let formData :=
    <[CALLBACKID := utf16 "ctl00$PlaceHolderMain$_scheduler_ASPxScheduler"]>
      formData in
  let formData := <[CALLBACKPARAM := utf16 "c0:SAVT|Day"]> formData in
  response <-
    fetch {| req_method := POST;
             req_url := url;
             req_headers := postHeaders authHeader url;
             req_body := Some formData |} ;;
  if negb (ok response) then throw (httpError response)
  else ret (text response, formData).

(** Step 3: the move to the target date. *)
Definition navigateToDate (credentials : UserCredentials)
    (formData : gmap (list N) (list N)) (targetDate : jsstring)
    : M (jsstring * gmap (list N) (list N)) :=
  let url := getScheduleUrl (base_plan_id credentials) in
  authHeader <-
    createAuthHeader (username credentials) (password credentials) ;;
  let targetTimestamp := dateToTimestamp targetDate in
  let dayMs := 86400000%Z in
  let timestampStart := targetTimestamp in
  let timestampEnd := option_map (fun t => t + dayMs)%Z targetTimestamp in
  let callbackParam :=
    utf16 "c0:MOREBTN|" ++ String_of_number timestampEnd ++ utf16 ","
    ++ String_of_number timestampStart ++ utf16 ","
    ++ String_of_Z dayMs ++ utf16 ",null" in
  let formData := <[CALLBACKPARAM := callbackParam]> formData in
  response <-
    fetch {| req_method := POST;
             req_url := url;
             req_headers := postHeaders authHeader url;
             req_body := Some formData |} ;;
  if negb (ok response) then throw (httpError response)
  else
    let html := text response in
    (* [verifyNavigation(html, targetDate)] writes to the console only *)
    ret (html, formData).

(** [fetchSchedule]: the three requests, then the parser.  The [catch]
    of the source logs the error and throws it again. *)
Definition fetchSchedule (credentials : UserCredentials)
    (targetDate : jsstring) : M (list ScheduleEvent) :=
  try_catch
    (initialHtml <- fetchInitialPage credentials ;;
     let formData := extractFormData initialHtml in
     step2 <- switchToDayView credentials formData ;;
     let '(dayViewHtml, formData) := step2 in
     let formData := updateViewState dayViewHtml formData in
     step3 <- navigateToDate credentials formData targetDate ;;
     let '(scheduleHtml, formData) := step3 in
     let events := parseResponse scheduleHtml in
     ret events)
    (fun error => throw error).
End Client.

End Client.

(** ** The cache ([cache.ts]) *)

Module Cache.
Import JS Parser Host.
Local Open Scope js_scope.

Record CacheOptions : Type := mkCacheOptions {
  opt_ttl : option number;
  useCloudStorage : option bool;
}.

Definition CACHE_PREFIX : jsstring := utf16 "schedule_".

Definition DEFAULT_TTL : Z := 24 * 60 * 60 * 1000.

(** [window.Telegram?.WebApp?.CloudStorage] *)
Definition cloudStorage (w : World) : option CloudStorage :=
  match telegram w with
  | Some app => CloudStorage_ app
  | None => None
  end.

Definition set_cloudStorage (c : CloudStorage) (w : World) : World :=
  match telegram w with
  | Some app => set_telegram (Some (mkWebApp (initData app) (Some c))) w
  | None => w
  end.

Definition isCloudStorageAvailable : M bool :=
  read (fun w => if cloudStorage w is Some _ then true else false).

Definition getCacheKey (date : jsstring) : jsstring := CACHE_PREFIX ++ date.

Definition isValid (item : CacheItem (list ScheduleEvent)) : M bool :=
  match ttl item with
  | None => ret true
  | Some t =>
      (* [!item.ttl] *)
      if negb (truthy t) then ret true
      else
        now <- Date_now ;;
        let age := (now - timestamp item)%Z in
        ret (lessThan age t)
  end.

Definition storageError : JsError := Error (utf16 "storage").

(** The promise around [CloudStorage.setItem]: rejected when the store
    calls back with an error.  It is called only where the store is
    available. *)
Definition saveToCloudStorage (key : jsstring) (data : Stored) : M unit :=
  fun w =>
    match cloudStorage w with
    | Some c =>
        if cs_failing c SetItem then (Throw storageError, w)
        else
          (Ok tt,
           set_cloudStorage
             (mkCloud (<[key := data]> (cs_items c)) (cs_failing c)) w)
    | None => (Throw storageError, w)
    end.

(** The promise around [CloudStorage.getItem]: it resolves to [null]
    both on an error and on an absent or empty value. *)
Definition getFromCloudStorage (key : jsstring) : M (option Stored) :=
  fun w =>
    match cloudStorage w with
    | Some c =>
        if cs_failing c GetItem then (Ok None, w)
        else
          match cs_items c !! key with
          | Some value =>
              if isEmptyText value then (Ok None, w) else (Ok (Some value), w)
          | None => (Ok None, w)
          end
    | None => (Throw storageError, w)
    end.

(** The promise around [CloudStorage.removeItem]: rejected when the
    store calls back with an error. *)
Definition removeFromCloudStorage (key : jsstring) : M unit :=
  fun w =>
    match cloudStorage w with
    | Some c =>
        if cs_failing c RemoveItem then (Throw storageError, w)
        else
          (Ok tt,
           set_cloudStorage
             (mkCloud (delete key (cs_items c)) (cs_failing c)) w)
    | None => (Throw storageError, w)
    end.

(** [localStorage.setItem] inside [try]: an exception is logged and
    dropped. *)
Definition saveToLocalStorage (key : jsstring) (data : Stored) : M unit :=
  fun w =>
    let l := localStorage w in
    if ls_failing l SetItem then (Ok tt, w)
    else
      (Ok tt,
       set_localStorage
         (mkLocal (<[key := data]> (ls_items l)) (ls_failing l)) w).

Definition getFromLocalStorage (key : jsstring) : M (option Stored) :=
  fun w =>
    let l := localStorage w in
    if ls_failing l GetItem then (Ok None, w)
    else (Ok (ls_items l !! key), w).

Definition removeFromLocalStorage (key : jsstring) : M unit :=
  fun w =>
    let l := localStorage w in
    if ls_failing l RemoveItem then (Ok tt, w)
    else
      (Ok tt,
       set_localStorage (mkLocal (delete key (ls_items l)) (ls_failing l)) w).

(** [options?.ttl || DEFAULT_TTL] *)
Definition effectiveTtl (options : option CacheOptions) : number :=
  match options with
  | Some o =>
      match opt_ttl o with
      | Some t => if truthy t then t else Int DEFAULT_TTL
      | None => Int DEFAULT_TTL
      end
  | None => Int DEFAULT_TTL
  end.

(** [options?.useCloudStorage !== false] *)
Definition cloudWanted (options : option CacheOptions) : bool :=
  match options with
  | Some o => if useCloudStorage o is Some false then false else true
  | None => true
  end.

Definition save (date : jsstring) (events : list ScheduleEvent)
    (options : option CacheOptions) : M unit :=
  let key := getCacheKey date in
  let ttl := effectiveTtl options in
  now <- Date_now ;;
  let cacheItem :=
    {| data := events; timestamp := now; ttl := Some ttl |} in
  let serialized := JSON_stringify cacheItem in
  available <- isCloudStorageAvailable ;;
  if available && cloudWanted options then
    try_catch (saveToCloudStorage key serialized)
      (fun error => saveToLocalStorage key serialized)
  else saveToLocalStorage key serialized.

Definition remove (date : jsstring) : M unit :=
  let key := getCacheKey date in
  available <- isCloudStorageAvailable ;;
  (if available then
     try_catch (removeFromCloudStorage key) (fun error => ret tt)
   else ret tt) ;;
  removeFromLocalStorage key.

(** [!serialized] *)
Definition missing (serialized : option Stored) : bool :=
  match serialized with
  | None => true
  | Some s => isEmptyText s
  end.

Definition get (date : jsstring) : M (option (list ScheduleEvent)) :=
  let key := getCacheKey date in
  available <- isCloudStorageAvailable ;;
  serialized <-
    (if available then
       try_catch (getFromCloudStorage key) (fun error => ret None)
     else ret None) ;;
  serialized <-
    (if missing serialized then getFromLocalStorage key else ret serialized) ;;
  match serialized with
  | None => ret None
  | Some text =>
      if isEmptyText text then ret None
      else
        (* [try { ... } catch (error) { return null }] around the rest *)
        match JSON_parse text with
        | None => ret None
        | Some cacheItem =>
            try_catch
              (valid <- isValid cacheItem ;;
               if negb valid then
                 remove date ;;
                 ret None
               else ret (Some (data cacheItem)))
              (fun error => ret None)
        end
  end.

End Cache.

(** ** The credentials manager ([credentials-manager.ts]) *)

Module Credentials.
Import JS Host.
Local Open Scope js_scope.

Record CredentialsManagerConfig : Type := mkCredentialsManagerConfig {
  cm_apiUrl : jsstring;
}.

Definition getTelegramInitData : M jsstring :=
  app <- read telegram ;;
  match app with
  | Some app => ret (initData app)
  | None => throw (Error (utf16 "Telegram WebApp недоступен"))
  end.

(** [!data.field]: the field is absent or the empty string. *)
Definition field (data : gmap (list N) (list N)) (name : jsstring) : jsstring :=
  default [] (data !! name).

Definition get (config : CredentialsManagerConfig) : M UserCredentials :=
  cached <- read cachedCredentials ;;
  match cached with
  | Some credentials => ret credentials
  | None =>
      initData <- getTelegramInitData ;;
      response <-
        fetch {| req_method := GET;
                 req_url := cm_apiUrl config ++ utf16 "/api/user/credentials";
                 req_headers :=
                   [(utf16 "X-Telegram-Init-Data", initData);
                    (utf16 "Content-Type", utf16 "application/json")];
                 req_body := None |} ;;
      if negb (ok response) then
        if (status response =? 404)%N then
          throw (Error (utf16 "Учетные данные не найдены. Пожалуйста, введите логин и пароль."))
        else
          throw (Error (utf16 "HTTP " ++ String_of_N (status response)
                        ++ utf16 ": " ++ statusText response))
      else
        match json response with
        | JsonRejects error => throw error
        | JsonNull error => throw error
        | JsonObject data =>
            let username := field data (utf16 "username") in
            let password := field data (utf16 "password") in
            let base_plan_id := field data (utf16 "base_plan_id") in
            if match username, password, base_plan_id with
               | _ :: _, _ :: _, _ :: _ => false
               | _, _, _ => true
               end
            then throw (Error (utf16 "Неполные учетные данные от сервера"))
            else
              let credentials := mkCredentials username password base_plan_id in
              write (set_cachedCredentials (Some credentials)) ;;
              ret credentials
        end
  end.

End Credentials.

(** ** The service ([schedule-service.ts]) *)

Module Service.
Import JS Parser Host.
Local Open Scope js_scope.

(** The configuration after the constructor has filled the defaults
    in. *)
Record ScheduleServiceConfig : Type := mkServiceConfig {
  apiUrl : jsstring;
  useCache : bool;
  cacheTTL : option number;
}.

(** [new ScheduleService({ apiUrl })] *)
Definition createScheduleService (apiUrl : jsstring) : ScheduleServiceConfig :=
  {| apiUrl := apiUrl;
     useCache := true;
     cacheTTL := Some (Int (24 * 60 * 60 * 1000)) |}.

Section Service.
Context (config : ScheduleServiceConfig).

Definition getScheduleForDay (date : jsstring) (forceRefresh : bool)
    : M (list ScheduleEvent) :=
  (* step 1: the cache, unless a refresh is forced *)
  cached <-
    (if useCache config && negb forceRefresh then Cache.get date
     else ret None) ;;
  match cached with
  | Some cached => ret cached
  | None =>
      (* step 2: the credentials *)
      credentials <-
        Credentials.get (Credentials.mkCredentialsManagerConfig (apiUrl config)) ;;
      (* step 3: the portal *)
      events <-
        Client.fetchSchedule Client.defaultEIOSConfig credentials date ;;
      (* step 4: the cache *)
      (if useCache config && (0 <? length events) then
         Cache.save date events
           (Some {| Cache.opt_ttl := cacheTTL config;
                    Cache.useCloudStorage := Some true |})
       else ret tt) ;;
      ret events
  end.
End Service.

End Service.

(** Readings of the client used to state its properties. *)
Module ClientReadings.
Import JS Host Client.

(** [btoa] accepts the string. *)
Definition latin1 (s : jsstring) : bool := forallb (fun c => (c <? 256)%N) s.

Definition authorization (credentials : UserCredentials) : jsstring :=
  utf16 "Basic " ++ base64 (username credentials ++ utf16 ":" ++ password credentials).

(** The request of [fetchInitialPage]. *)
Definition initialRequest (config : EIOSConfig) (credentials : UserCredentials)
    : Request :=
  {| req_method := GET;
     req_url := getScheduleUrl config (base_plan_id credentials);
     req_headers :=
       [(utf16 "Authorization", authorization credentials);
        (utf16 "User-Agent",
         utf16 "Mozilla/5.0 (Macintosh; Intel Mac OS X 10_15_7) AppleWebKit/537.36")];
     req_body := None |}.


(** The callback parameter of the last request sent. *)
Definition postedParam (w : World) : option jsstring :=
  match last (sent w) with
  | Some req =>
      match req_body req with
      | Some body => body !! CALLBACKPARAM
      | None => None
      end
  | None => None
  end.

(** The specification's reading of the callback parameter: the start is
    midnight of the target day in local time, for a zone whose clocks are
    [offsetMinutes] ahead of UTC. *)
Definition localMidnight (offsetMinutes y m d : Z) : Z :=
  (86400000 * daysFromCivil y m d - 60000 * offsetMinutes)%Z.

Definition specCallbackParam (offsetMinutes y m d : Z) : jsstring :=
  utf16 "c0:MOREBTN|"
  ++ String_of_Z (localMidnight offsetMinutes y m d + 86400000)
  ++ utf16 "," ++ String_of_Z (localMidnight offsetMinutes y m d)
  ++ utf16 ",86400000,null".

End ClientReadings.

(** Readings of the stores used to state the properties of the cache. *)
Module CacheReadings.
Import JS Host Cache.

(** The remote store of a world, where the chat application is there
    and has one. *)
Definition remoteStore (w : World) : option CloudStorage :=
  match telegram w with
  | Some app => CloudStorage_ app
  | None => None
  end.

(** What the remote store holds under a key, whether it answers or
    not. *)
Definition cloudHeld (w : World) (key : jsstring) : option Stored :=
  match remoteStore w with
  | Some c => cs_items c !! key
  | None => None
  end.

(** What the local store holds under a key. *)
Definition localHeld (w : World) (key : jsstring) : option Stored :=
  ls_items (localStorage w) !! key.

(** The remote store is there and answers calls of the given kind with
    an error. *)
Definition cloudRefuses (call : StorageCall) (w : World) : bool :=
  match remoteStore w with
  | Some c => cs_failing c call
  | None => false
  end.

(** Calls of the given kind to the local store throw. *)
Definition localRefuses (call : StorageCall) (w : World) : bool :=
  ls_failing (localStorage w) call.

(** What a call of the given kind shows of the remote store under a
    key: nothing when the store is absent or answers that call with an
    error. *)
Definition cloudSeen (call : StorageCall) (w : World) (key : jsstring)
    : option Stored :=
  match remoteStore w with
  | Some c => if cs_failing c call then None else cs_items c !! key
  | None => None
  end.

(** What a call of the given kind shows of the local store under a
    key. *)
Definition localSeen (call : StorageCall) (w : World) (key : jsstring)
    : option Stored :=
  if ls_failing (localStorage w) call then None
  else ls_items (localStorage w) !! key.

(** What [getItem] finds in the remote store under a key. *)
Definition cloudItem (w : World) (key : jsstring) : option Stored :=
  cloudSeen GetItem w key.

(** What [getItem] finds in the local store under a key. *)
Definition localItem (w : World) (key : jsstring) : option Stored :=
  localSeen GetItem w key.

(** The text [get] reads: that of the remote store, or else that of the
    local one. *)
Definition found (w : World) (key : jsstring) : option Stored :=
  if missing (cloudItem w key) then localItem w key else cloudItem w key.

(** The envelope is still good at time [now]. *)
Definition validAt (now : Z) (item : CacheItem (list Parser.ScheduleEvent))
    : bool :=
  match ttl item with
  | None => true
  | Some t => negb (truthy t) || lessThan (now - timestamp item) t
  end.

(** An envelope written with the time to live [t] is still good at the
    age [age]: a time to live that is not finite is stored as [null],
    and the envelope is good for ever. *)
Definition within (age : Z) (t : number) : bool :=
  match JSON_number t with
  | None => true
  | Some t => negb (truthy t) || lessThan age t
  end.

(** The local store takes a write and answers calls of the given
    kind. *)
Definition localShows (call : StorageCall) (w : World) : Prop :=
  localRefuses SetItem w = false /\ localRefuses call w = false.

(** The store that takes what [save] writes, when it may use the remote
    store, answers calls of the given kind: the remote store where it
    takes the write, and else, where it is absent or refuses the write,
    the local store. *)
Definition shows (call : StorageCall) (w : World) : Prop :=
  match remoteStore w with
  | Some c =>
      if cs_failing c SetItem then localShows call w
      else cs_failing c call = false
  | None => localShows call w
  end.

(** What [save] writes under a key, when it may use the remote store,
    is what [get] then reads there: the store that takes the write
    answers [getItem], and where that is the local store because the
    remote one refuses the write, the remote one gives [get] nothing
    under the key. *)
Definition readsBack (w : World) (key : jsstring) : Prop :=
  shows GetItem w
  /\ (cloudRefuses SetItem w = true -> missing (cloudItem w key) = true).

(** Neither store refuses [removeItem]. *)
Definition removes (w : World) : Prop :=
  cloudRefuses RemoveItem w = false /\ localRefuses RemoveItem w = false.

(** A computation that leaves both stores as they are. *)
Definition keeps {A} (m : M A) : Prop :=
  forall w,
    telegram (snd (m w)) = telegram w
    /\ localStorage (snd (m w)) = localStorage w.

(** The two stores of a world. *)
Definition stores (w : World) : option CloudStorage * LocalStorage :=
  (remoteStore w, localStorage w).

(** The three numbers of an event are safe integers: the natural
    number of the development is then the number the program holds, and
    JSON writes it as it is.  ([parseInt] of a longer run of digits is
    a rounded number, or [Infinity], which JSON writes as [null].) *)
Definition exactNumbers (e : Parser.ScheduleEvent) : bool :=
  isSafeInteger (Parser.day e) && isSafeInteger (Parser.month e)
  && isSafeInteger (Parser.year e).

(** Events that [JSON.parse] reads back from the text [JSON.stringify]
    writes for them as they were. *)
Definition plain (events : list Parser.ScheduleEvent) : Prop :=
  forallb exactNumbers events = true.

(** Neither store refuses what [clear] asks of it: the listing of its
    keys and their removal. *)
Definition clears (w : World) : Prop :=
  cloudRefuses GetKeys w = false /\ cloudRefuses RemoveItems w = false
  /\ localRefuses GetKeys w = false /\ localRefuses RemoveItem w = false.

End CacheReadings.

(** Payloads used in the scenarios below, written as the portal writes
    them. *)
Module Fixtures.
Import JS Regex Parser.

Definition englishBlob : jsstring :=
  utf16 "English\\r\\n-Лекция ауд.206 (Комсомольский пр-кт, д.6)\\r\\n(пр: Иванов И.И.)\\r\\nГруппа1".

Definition englishRecord : jsstring :=
  utf16 "['133683_0',2,['" ++ englishBlob ++ utf16 "','11:00','12:20',".

Definition englishPayload : jsstring :=
  utf16 "{'visibleDays':'6/3/2026'}" ++ englishRecord.

Definition englishEvent (d m y : N) (date : jsstring) : ScheduleEvent :=
  {| course_name := utf16 "English";
     teacher := utf16 "Иванов И.И.";
     start_time := utf16 "11:00";
     end_time := utf16 "12:20";
     group := utf16 "Группа1";
     type := utf16 "Лекция";
     room := utf16 "206";
     address := utf16 "Комсомольский пр-кт, д.6";
     day := d;
     month := m;
     year := y;
     start_date := date |}.

(** A record whose end time is before its start time. *)
Definition reversedPayload : jsstring :=
  utf16 "['7_0',2,['Math\\r\\n-Семинар ауд.101\\r\\n(пр: Петров П.П.)\\r\\nГруппа2','14:30','12:00',".

Definition reversedEvent : ScheduleEvent :=
  {| course_name := utf16 "Math";
     teacher := utf16 "Петров П.П.";
     start_time := utf16 "14:30";
     end_time := utf16 "12:00";
     group := utf16 "Группа2";
     type := utf16 "Семинар";
     room := utf16 "101";
     address := [];
     day := 0;
     month := 0;
     year := 0;
     start_date := [] |}.

(** A navigation response, as the portal writes the visible date. *)
Definition navigationResponse (visibleDays : jsstring) : jsstring :=
  utf16 "0|/*DX*/({'stateObject':{'visibleDays':'" ++ visibleDays
  ++ utf16 "'},'result':''})".

Definition student : Host.UserCredentials :=
  Host.mkCredentials (utf16 "student") (utf16 "secret") (utf16 "12345").

(** A world in which the credentials are in memory, neither store holds
    anything, the chat application is absent, and the network answers
    every request at once as [answer] says. *)
Definition worldAnswering (answer : Host.Request -> Host.NetResult)
    : Host.World :=
  {| Host.clock := 0;
     Host.telegram := None;
     Host.localStorage := Host.mkLocal ∅ Host.answering;
     Host.cachedCredentials := Some student;
     Host.network := fun _ req => (0%Z, answer req);
     Host.sent := [] |}.

(** What [json()] does with a body that is not JSON. *)
Definition notJson : Host.JsonResult :=
  Host.JsonRejects
    (Host.mkError (utf16 "SyntaxError") (utf16 "Unexpected end of JSON input")).

(** A world with both stores, holding the given items; the remote store
    answers with an error the calls [remoteFails] says, the local store
    throws on those [localFails] says. *)
Definition worldWithFailures (now : Z)
    (remote local : gmap (list N) Host.Stored)
    (remoteFails localFails : Host.StorageCall -> bool) : Host.World :=
  {| Host.clock := now;
     Host.telegram :=
       Some (Host.mkWebApp (utf16 "query_id=1")
               (Some (Host.mkCloud remote remoteFails)));
     Host.localStorage := Host.mkLocal local localFails;
     Host.cachedCredentials := Some student;
     Host.network :=
       fun _ _ =>
         (0%Z, Host.Responded (Host.mkResponse 200 (utf16 "OK") [] notJson));
     Host.sent := [] |}.

(** A world with both stores, holding the given items and answering
    every call. *)
Definition worldWithStores (now : Z) (remote local : gmap (list N) Host.Stored)
    : Host.World :=
  worldWithFailures now remote local Host.answering Host.answering.

(** A store that refuses writes and nothing else. *)
Definition refusingWrites (call : Host.StorageCall) : bool :=
  match call with
  | Host.SetItem => true
  | _ => false
  end.

(** A store that refuses [removeItem] and nothing else. *)
Definition refusingRemoval (call : Host.StorageCall) : bool :=
  match call with
  | Host.RemoveItem => true
  | _ => false
  end.

(** An envelope written at time 0 to live for a second. *)
Definition staleItem : Host.CacheItem (list Parser.ScheduleEvent) :=
  {| Host.data := [englishEvent 6 3 2026 (utf16 "6 марта 2026")];
     Host.timestamp := 0;
     Host.ttl := Some (Int 1000) |}.

Definition respond (status : N) (statusText text : jsstring) : Host.NetResult :=
  Host.Responded (Host.mkResponse status statusText text notJson).

(** The service as the application creates it. *)
Definition service : Service.ScheduleServiceConfig :=
  Service.createScheduleService (utf16 "https://backend.example").

(** The portal shows a day without classes. *)
Definition emptyDay : Host.World :=
  worldAnswering
    (fun _ => respond 200 (utf16 "OK") (navigationResponse (utf16 "6/3/2026"))).

(** The portal shows the day of the English class. *)
Definition englishDay : Host.World :=
  worldAnswering (fun _ => respond 200 (utf16 "OK") englishPayload).


(** [staleItem] saved at time 0 for a second by [save], over a copy of
    it in the local store, and read 1001 milliseconds later. *)
Definition afterASecond : Host.World :=
  Host.set_clock 1001
    (snd (Cache.save (utf16 "2026-03-06") (Host.data staleItem)
            (Some (Cache.mkCacheOptions (Some (Int 1000)) None))
            (worldWithStores 0 ∅
               {[ Cache.getCacheKey (utf16 "2026-03-06")
                  := Host.JSON_stringify staleItem ]}))).

(** The world after [navigateToDate] for 6 March 2026, with an empty
    form. *)
Definition afterNavigation : Host.World :=
  snd (Client.navigateToDate Client.defaultEIOSConfig student ∅
         (utf16 "2026-03-06")
         (worldAnswering (fun _ => respond 200 (utf16 "OK") []))).

(** [staleItem] written again at time 1000. *)
Definition freshItem : Host.CacheItem (list Parser.ScheduleEvent) :=
  {| Host.data := Host.data staleItem;
     Host.timestamp := 1000;
     Host.ttl := Some (Int 1000) |}.




(** A day without classes, with [staleItem] run out in the remote store
    and [freshItem] in a local store that refuses [removeItem]. *)
Definition emptyDayRefusingRemoval : Host.World :=
  Host.set_clock 1001
    (Host.set_telegram
       (Some (Host.mkWebApp (utf16 "query_id=1")
                (Some (Host.mkCloud
                         {[ Cache.getCacheKey (utf16 "2026-03-06")
                            := Host.JSON_stringify staleItem ]}
                         Host.answering))))
       (Host.set_localStorage
          (Host.mkLocal
             {[ Cache.getCacheKey (utf16 "2026-03-06")
                := Host.JSON_stringify freshItem ]} refusingRemoval)
          emptyDay)).


End Fixtures.

(** ** The helpers of the parser ([schedule-parser.ts]) *)

Module ParserTools.
Import JS Parser.

(** [filterByDate]: the year takes part only when it is given and is not
    zero. *)
Definition filterByDate (events : list ScheduleEvent) (day month : N)
    (year : option N) : list ScheduleEvent :=
  List.filter
    (fun event =>
       let matchesDay := (Parser.day event =? day)%N in
       let matchesMonth := (Parser.month event =? month)%N in
       let matchesYear :=
         match year with
         | Some y => if (y =? 0)%N then true else (Parser.year event =? y)%N
         | None => true
         end in
       matchesDay && matchesMonth && matchesYear)
    events.

(** [array.sort(compare)]: the sort is stable, and [a] stays before [b]
    when [compare(a, b) <= 0]; [before a b] says so.  With a comparator
    that orders its arguments the outcome does not depend on how the
    engine sorts; it is computed here by insertion. *)
Fixpoint insertBy {A} (before : A -> A -> bool) (x : A) (l : list A) : list A :=
  match l with
  | [] => [x]
  | y :: l' => if before x y then x :: y :: l' else y :: insertBy before x l'
  end.

Definition sortBy {A} (before : A -> A -> bool) (l : list A) : list A :=
  fold_right (insertBy before) [] l.

(** The comparator does not tell [a] and [b] apart. *)
Definition tied {A} (before : A -> A -> bool) (a b : A) : bool :=
  before a b && before b a.

(** The hours and minutes the comparator of [sortByTime] reads:
    [start_time.split(':').map(Number)], entries 0 and 1.  [None] when
    one of the two is missing or is not a plain decimal numeral (see
    [Number_plain]). *)
Definition timeOf (event : ScheduleEvent) : option (N * N) :=
  match map Number_plain (split (start_time event) (utf16 ":")) with
  | Some h :: Some m :: _ => Some (h, m)
  | _ => None
  end.

(** [compare(a, b) <= 0] for the comparator of [sortByTime]: the hours
    decide, and the minutes when the hours are equal. *)
Definition timeBefore (a b : N * N) : bool :=
  if negb (fst a =? fst b)%N then (fst a <? fst b)%N
  else (snd a <=? snd b)%N.

Definition eventBefore (a b : ScheduleEvent) : bool :=
  timeBefore (default (0, 0)%N (timeOf a)) (default (0, 0)%N (timeOf b)).

(** One time of day is no later than another. *)
Definition noLater (a b : N * N) : Prop :=
  (fst a < fst b)%N \/ (fst a = fst b /\ (snd a <= snd b)%N).

(** [sortByTime], for events whose start times are read as numbers;
    [None] for any other list.  The source sorts the array in place and
    returns it. *)
Definition sortByTime (events : list ScheduleEvent)
    : option (list ScheduleEvent) :=
  if forallb (fun e => if timeOf e is Some _ then true else false) events
  then Some (sortBy eventBefore events)
  else None.

(** [Array.from(set)] after [set.add] of each element: the first
    occurrences, in order. *)
Fixpoint setOf (seen l : list jsstring) : list jsstring :=
  match l with
  | [] => []
  | x :: l' =>
      if existsb (str_eqb x) seen then setOf seen l'
      else x :: setOf (x :: seen) l'
  end.

(** [a <= b] for strings, the order of [sort()] without a comparator. *)
Definition str_leb (a b : jsstring) : bool := negb (str_ltb b a).

(** [getUniqueTeachers] *)
Definition getUniqueTeachers (events : list ScheduleEvent) : list jsstring :=
  sortBy str_leb
    (setOf []
       (List.filter (fun t => if t is [] then false else true)
          (map teacher events))).

(** The key of [groupByDate]. *)
Definition dateKey (event : ScheduleEvent) : jsstring :=
  String_of_N (year event) ++ utf16 "-"
  ++ padStart0 2 (String_of_N (month event)) ++ utf16 "-"
  ++ padStart0 2 (String_of_N (day event)).

(** [groupByDate].  The object is read as a map: a key holds a hyphen,
    so it is the name of no property an object inherits. *)
Definition groupByDate (events : list ScheduleEvent)
    : gmap (list N) (list ScheduleEvent) :=
  fold_left
    (fun (grouped : gmap (list N) (list ScheduleEvent)) event =>
       let key := dateKey event in
       <[key := default [] (grouped !! key) ++ [event]]> grouped)
    events ∅.

End ParserTools.

(** ** The cache as a whole ([cache.ts]: [clear], [size],
    [getCachedDates]) *)

Module CacheAdmin.
Import JS Parser Host Cache.
Local Open Scope js_scope.

(** [keys.filter((key) => key.startsWith(CACHE_PREFIX))] *)
Definition scheduleKeysOf (items : gmap (list N) Stored) : list jsstring :=
  List.filter (startsWith CACHE_PREFIX) (map fst (map_to_list items)).

(** [CloudStorage.removeItems(keys)], and the loop of
    [localStorage.removeItem(key)] *)
Definition removeItems (keys : list jsstring) (items : gmap (list N) Stored)
    : gmap (list N) Stored :=
  fold_right delete items keys.

(** The promise of [clear] around [getKeys] and [removeItems]: rejected
    when the remote store calls back with an error, be it to [getKeys]
    or to [removeItems]; resolved without a removal when there are no
    schedule keys. *)
Definition clearCloudStorage : M unit :=
  fun w =>
    match cloudStorage w with
    | Some c =>
        if cs_failing c GetKeys then (Throw storageError, w)
        else
          let scheduleKeys := scheduleKeysOf (cs_items c) in
          match scheduleKeys with
          | [] => (Ok tt, w)
          | _ :: _ =>
              if cs_failing c RemoveItems then (Throw storageError, w)
              else
                (Ok tt,
                 set_cloudStorage
                   (mkCloud (removeItems scheduleKeys (cs_items c))
                      (cs_failing c)) w)
          end
    | None => (Throw storageError, w)
    end.

(** The local half of [clear], inside its [try]: an exception, of
    [Object.keys] or of the first [removeItem], is logged and
    dropped. *)
Definition clearLocalStorage : M unit :=
  fun w =>
    let l := localStorage w in
    if ls_failing l GetKeys then (Ok tt, w)
    else
      let scheduleKeys := scheduleKeysOf (ls_items l) in
      match scheduleKeys with
      | [] => (Ok tt, w)
      | _ :: _ =>
          if ls_failing l RemoveItem then (Ok tt, w)
          else
            (Ok tt,
             set_localStorage
               (mkLocal (removeItems scheduleKeys (ls_items l)) (ls_failing l))
               w)
      end.

Definition clear : M unit :=
  available <- isCloudStorageAvailable ;;
  (if available then try_catch clearCloudStorage (fun error => ret tt)
   else ret tt) ;;
  clearLocalStorage.

(** The keys [getKeys] hands to its callback when it reports no error,
    and [Object.keys(localStorage)] when it does not throw. *)
Definition cloudKeys (w : World) : list jsstring :=
  match cloudStorage w with
  | Some c => if cs_failing c GetKeys then [] else scheduleKeysOf (cs_items c)
  | None => []
  end.

Definition localKeys (w : World) : list jsstring :=
  if ls_failing (localStorage w) GetKeys then []
  else scheduleKeysOf (ls_items (localStorage w)).

(** [size]: the schedule keys of the remote store and those of the
    local store, counted one after the other. *)
Definition size : M nat :=
  read (fun w => length (cloudKeys w) + length (localKeys w)).

(** [s.replace(pattern, empty)] for a string pattern: the first
    occurrence goes. *)
Fixpoint removeFirst (pattern s : jsstring) : jsstring :=
  if startsWith pattern s then drop (length pattern) s
  else
    match s with
    | [] => []
    | x :: s' => x :: removeFirst pattern s'
    end.

(** [getCachedDates]: the dates of the keys of both stores, each once,
    sorted as [sort()] sorts strings. *)
Definition getCachedDates : M (list jsstring) :=
  read (fun w =>
          ParserTools.sortBy ParserTools.str_leb
            (ParserTools.setOf []
               (map (removeFirst CACHE_PREFIX) (cloudKeys w ++ localKeys w)))).

End CacheAdmin.

(** ** The rest of the credentials manager ([credentials-manager.ts]:
    [save], [delete], [clear], [validate], [getUsername], [update]) *)

Module CredentialsManager.
Import JS Host Credentials.
Local Open Scope js_scope.

(** The headers of the requests to the backend. *)
Definition backendHeaders (initData : jsstring) : list (jsstring * jsstring) :=
  [(utf16 "X-Telegram-Init-Data", initData);
   (utf16 "Content-Type", utf16 "application/json")].

(** The object whose JSON text is the body of the request of [save]; the
    body is kept as the object it encodes. *)
Definition saveBody (credentials : UserCredentials) : gmap (list N) (list N) :=
  <[utf16 "eios_username" := username credentials]>
    (<[utf16 "eios_password" := password credentials]>
       (<[utf16 "base_plan_id" := base_plan_id credentials]> ∅)).

(** [save] *)
Definition save (config : CredentialsManagerConfig)
    (credentials : UserCredentials) : M unit :=
  initData <- getTelegramInitData ;;
  response <-
    fetch {| req_method := POST;
             req_url := cm_apiUrl config ++ utf16 "/api/auth/credentials";
             req_headers := backendHeaders initData;
             req_body := Some (saveBody credentials) |} ;;
  if negb (ok response) then
    match json response with
    | JsonRejects error => throw error
    | JsonNull error => throw error
    | JsonObject error =>
        (* [error.message || '...'] *)
        match field error (utf16 "message") with
        | [] => throw (Error (utf16 "Ошибка сохранения credentials"))
        | message => throw (Error message)
        end
    end
  else write (set_cachedCredentials (Some credentials)).

(** [clear] *)
Definition clear : M unit := write (set_cachedCredentials None).

(** [delete] *)
Definition delete (config : CredentialsManagerConfig) : M unit :=
  initData <- getTelegramInitData ;;
  response <-
    fetch {| req_method := DELETE;
             req_url := cm_apiUrl config ++ utf16 "/api/user/credentials";
             req_headers := backendHeaders initData;
             req_body := None |} ;;
  if negb (ok response) then
    throw (Error (utf16 "Ошибка удаления credentials"))
  else clear.

(** The request of [validate]: a HEAD to the schedule page of the
    portal, whose address is written out in the method. *)
Definition validateRequest (credentials : UserCredentials)
    (authHeader : jsstring) : Request :=
  {| req_method := HEAD;
     req_url :=
       utf16 "https://eios.linguanet.ru/_layouts/sinc/ia/v1.0/pages/MySchedule.aspx?base_plan_ids="
       ++ base_plan_id credentials;
     req_headers := [(utf16 "Authorization", authHeader)];
     req_body := None |}.

(** [validate]: everything happens inside [try]; the [catch] returns
    [false]. *)
Definition validate (credentials : UserCredentials) : M bool :=
  try_catch
    (encoded <-
       btoa (username credentials ++ utf16 ":" ++ password credentials) ;;
     let authHeader := utf16 "Basic " ++ encoded in
     response <- fetch (validateRequest credentials authHeader) ;;
     let isValid := ok response in
     ret isValid)
    (fun error => ret false).

(** [getUsername]: [null] is [None]. *)
Definition getUsername (config : CredentialsManagerConfig)
    : M (option jsstring) :=
  try_catch
    (cached <- read cachedCredentials ;;
     match cached with
     | Some cached => ret (Some (username cached))
     | None =>
         credentials <- get config ;;
         ret (Some (username credentials))
     end)
    (fun error => ret None).

(** [update] *)
Definition update (config : CredentialsManagerConfig)
    (credentials : UserCredentials) : M unit :=
  isValid <- validate credentials ;;
  if negb isValid then throw (Error (utf16 "Неверный логин или пароль"))
  else save config credentials.

End CredentialsManager.

(** ** The rest of the service and of the client
    ([schedule-service.ts]: [clearCache], [getCacheSize],
    [getCachedDates], [saveCredentials], [deleteCredentials],
    [getUsername], [testConnection], [getScheduleSafe];
    [eios-client.ts]: [testConnection]) *)

Module ServiceAdmin.
Import JS Parser Host Service.
Local Open Scope js_scope.

(** [EIOSClient.testConnection] *)
Definition client_testConnection (config : Client.EIOSConfig) : M bool :=
  try_catch
    (response <-
       fetch {| req_method := HEAD;
                req_url := Client.baseUrl config;
                req_headers := [];
                req_body := None |} ;;
     ret (ok response))
    (fun error => ret false).

Section Service.
Context (config : ScheduleServiceConfig).

(** The credentials manager the constructor creates. *)
Definition credentialsManager : Credentials.CredentialsManagerConfig :=
  Credentials.mkCredentialsManagerConfig (apiUrl config).

Definition clearCache : M unit := CacheAdmin.clear.

Definition getCacheSize : M nat := CacheAdmin.size.

Definition getCachedDates : M (list jsstring) := CacheAdmin.getCachedDates.

Definition saveCredentials (username password basePlanId : jsstring)
    : M unit :=
  let credentials := mkCredentials username password basePlanId in
  isValid <- CredentialsManager.validate credentials ;;
  if negb isValid then
    throw (Error (utf16 "Неверный логин или пароль. Проверьте учетные данные."))
  else CredentialsManager.save credentialsManager credentials.

Definition deleteCredentials : M unit :=
  CredentialsManager.delete credentialsManager ;;
  clearCache.

Definition getUsername : M (option jsstring) :=
  CredentialsManager.getUsername credentialsManager.

Definition testConnection : M bool :=
  client_testConnection Client.defaultEIOSConfig.

(** [getScheduleSafe].  Every value thrown in this program is an
    instance of [Error]: the errors made with [new Error], the
    [TypeError] of a rejected [fetch], the [SyntaxError] of [json()] and
    the [DOMException] of [btoa]. *)
Definition getScheduleSafe (date : jsstring) : M (list ScheduleEvent) :=
  try_catch (getScheduleForDay config date false)
    (fun error =>
       if includes (err_message error) (utf16 "credentials") then throw error
       else ret []).
End Service.

End ServiceAdmin.

(** Worlds used in the scenarios of the credentials manager and of the
    service. *)
Module Scenarios.
Import JS Host.

(** The object the backend answers with for the credentials of
    [Fixtures.student]. *)
Definition studentJson : gmap (list N) (list N) :=
  <[utf16 "username" := utf16 "student"]>
    (<[utf16 "password" := utf16 "secret"]>
       (<[utf16 "base_plan_id" := utf16 "12345"]> ∅)).

(** A world inside the chat application, with nothing in memory and
    nothing in the local store, in which the network answers every
    request at once as [answer] says. *)
Definition worldInChat (answer : Request -> NetResult) : World :=
  {| clock := 0;
     telegram := Some (mkWebApp (utf16 "query_id=1") None);
     localStorage := mkLocal ∅ answering;
     cachedCredentials := None;
     network := fun _ req => (0%Z, answer req);
     sent := [] |}.

(** The backend holds the credentials of the student. *)
Definition backendWithStudent : World :=
  worldInChat
    (fun _ =>
       Responded (mkResponse 200 (utf16 "OK") [] (JsonObject studentJson))).

(** The backend holds no credentials: it answers 404. *)
Definition backendWithoutCredentials : World :=
  worldInChat
    (fun _ =>
       Responded (mkResponse 404 (utf16 "Not Found") [] (JsonObject ∅))).

(** Every request is answered with 401. *)
Definition refusingEverything : World :=
  worldInChat
    (fun _ =>
       Responded (mkResponse 401 (utf16 "Unauthorized") [] (JsonObject ∅))).


(** Every request is answered with 401 and a status text that mentions
    credentials. *)
Definition rejectingCredentials : World :=
  worldInChat
    (fun _ =>
       Responded (mkResponse 401 (utf16 "Bad credentials") [] (JsonObject ∅))).

(** The backend holds the credentials of the student, who is signed in,
    and the local store holds the entry of 6 March. *)
Definition signedInWithCachedDay : World :=
  set_cachedCredentials (Some Fixtures.student)
    (set_localStorage
       (mkLocal
          {[ Cache.getCacheKey (utf16 "2026-03-06")
             := JSON_stringify Fixtures.staleItem ]} answering)
       backendWithStudent).

(** What an engine throws on the body [credentials expired], which is
    not JSON: the message quotes the body. *)
Definition quotingError : JsError :=
  mkError (utf16 "SyntaxError")
    (utf16 "Unexpected token 'c', " ++ [34%N] ++ utf16 "credentials expired"
     ++ [34%N] ++ utf16 " is not valid JSON").

(** Every request is answered with 200 and the body [credentials
    expired]. *)
Definition answeringInProse : World :=
  worldInChat
    (fun _ =>
       Responded (mkResponse 200 (utf16 "OK") (utf16 "credentials expired")
                    (JsonRejects quotingError))).

End Scenarios.

(** Readings of the network used to state the properties of the
    service. *)
Module ServiceReadings.
Import JS Host.

(** An answer of the network explains an error: the error is the
    reason the [fetch] was rejected with, or it is made of the status
    line of a response that is not [ok], or it is what the engine
    throws on the body of a response that is [ok], when [json()]
    rejects or resolves to [null]. *)
Definition explains (answer : NetResult) (e : JsError) : Prop :=
  match answer with
  | Rejected reason => e = reason
  | Responded r =>
      (ok r = false
       /\ e = Error (utf16 "HTTP " ++ String_of_N (status r) ++ utf16 ": "
                     ++ statusText r))
      \/ (ok r = true /\ (json r = JsonRejects e \/ json r = JsonNull e))
  end.

(** An error thrown on the way from [w] to [w'] comes from the network:
    the answer to the last request sent, given the requests sent before
    it, explains it. *)
Definition fromNetwork (w w' : World) (e : JsError) : Prop :=
  exists pre req elapsed answer,
    sent w' = pre ++ [req]
    /\ network w pre req = (elapsed, answer)
    /\ explains answer e.

(** The request of [credentialsManager.get]. *)
Definition credentialsRequest (apiUrl initData : jsstring) : Request :=
  {| req_method := GET;
     req_url := apiUrl ++ utf16 "/api/user/credentials";
     req_headers :=
       [(utf16 "X-Telegram-Init-Data", initData);
        (utf16 "Content-Type", utf16 "application/json")];
     req_body := None |}.

(** The text [getScheduleSafe] looks for in the message of an error. *)
Definition mentionsCredentials (e : JsError) : bool :=
  includes (err_message e) (utf16 "credentials").

(** No computation changes what the network answers. *)
Definition sameNet {A} (m : M A) : Prop :=
  forall w, network (snd (m w)) = network w.

(** A computation throws only errors that come from the network, or
    whose message does not mention credentials. *)
Definition throwsOnly {A} (m : M A) : Prop :=
  forall w e w',
    m w = (Throw e, w')
    -> mentionsCredentials e = false \/ fromNetwork w w' e.

(** The network of [w] answers [req], sent after the requests [reqs],
    with a page. *)
Definition answered (w : World) (reqs : list Request) (req : Request)
    (page : jsstring) : Prop :=
  exists elapsed resp,
    network w reqs req = (elapsed, Responded resp) /\ text resp = page.

End ServiceReadings.

(** * Properties *)

(** ** Facts about strings and the matcher *)

Module RegexFacts.
Import JS Regex.

Lemma startsWith_app (l s : jsstring) :
  startsWith l s = true -> s = l ++ drop (length l) s.
Proof.
  revert s; induction l as [|x l IH]; intros [|y s] H; simpl in *;
    try discriminate; auto.
  apply andb_true_iff in H as [Hx Hl].
  apply N.eqb_eq in Hx; subst y.
  f_equal; auto.
Qed.

Lemma orelse_Some {A} (x y : option A) a :
  orelse x y = Some a -> x = Some a \/ (x = None /\ y = Some a).
Proof. destruct x; simpl; auto. Qed.

Lemma rep_sound {A} greedy p (k : nat -> jsstring -> option A) s :
  forall lo hi pos a,
    rep greedy p lo hi pos s k = Some a ->
    exists l s',
      s = l ++ s' /\ forallb p l = true /\ lo <= length l
      /\ (forall h, hi = Some h -> length l <= h)
      /\ k (pos + length l) s' = Some a.
Proof.
  induction s as [|x s IH]; intros lo hi pos a H.
  - assert (Hk : lo = 0 /\ k pos [] = Some a).
    { cbn [rep] in H.
      destruct greedy; apply orelse_Some in H as [H | [_ H]];
        destruct lo, hi as [[|h]|]; try discriminate; auto. }
    destruct Hk as [-> Hk].
    exists [], []; simpl; rewrite Nat.add_0_r.
    repeat split; auto; intros; lia.
  - assert (Hcase :
      (lo = 0 /\ k pos (x :: s) = Some a) \/
      (hi <> Some 0 /\ p x = true /\
       rep greedy p (Nat.pred lo) (option_map Nat.pred hi) (S pos) s k
       = Some a)).
    { cbn [rep] in H.
      destruct greedy; apply orelse_Some in H as [H | [_ H]].
      all: try (destruct lo; [auto | discriminate]).
      all: right; destruct hi as [[|h]|]; try discriminate;
        destruct (p x); try discriminate; repeat split; auto; congruence. }
    destruct Hcase as [[-> Hk] | (Hhi & Hp & Hrec)].
    + exists [], (x :: s); simpl; rewrite Nat.add_0_r.
      repeat split; auto; intros; lia.
    + apply IH in Hrec as (l & s' & -> & Hall & Hlo & Hh & Hk).
      exists (x :: l), s'; simpl.
      rewrite Hp, Hall.
      replace (pos + S (length l)) with (S pos + length l) by lia.
      repeat split; auto; try lia.
      intros h ->. destruct h as [|h]; [congruence|].
      specialize (Hh h eq_refl). lia.
Qed.

Lemma rmatch_sound {A} (r : regex) :
  forall pos s c (k : nat -> jsstring -> captures -> option A) a,
    rmatch r pos s c k = Some a ->
    exists pos' s' c', sem r pos s c pos' s' c' /\ k pos' s' c' = Some a.
Proof.
  induction r as [x|l|p|r1 IH1 r2 IH2|i r IH|greedy lo hi p|];
    intros pos s c k a H; simpl in H.
  - destruct s as [|y s]; [discriminate|].
    destruct (N.eqb_spec x y); [subst|discriminate].
    exists (S pos), s, c; simpl; auto.
  - destruct (startsWith l s) eqn:Hl; [|discriminate].
    exists (pos + length l), (drop (length l) s), c; simpl.
    split; auto. split; auto using startsWith_app.
  - destruct s as [|y s]; [discriminate|].
    destruct (p y) eqn:Hp; [|discriminate].
    exists (S pos), s, c; simpl; eauto 6.
  - apply IH1 in H as (pos1 & s1 & c1 & H1 & H).
    apply IH2 in H as (pos2 & s2 & c2 & H2 & H).
    exists pos2, s2, c2; simpl; eauto 8.
  - apply IH in H as (pos1 & s1 & c1 & H1 & H).
    exists pos1, s1, ((i, take (pos1 - pos) s) :: c1); simpl; eauto.
  - apply rep_sound in H as (l & s' & -> & Hall & Hlo & Hh & Hk).
    exists (pos + length l), s', c; simpl. split; auto.
    exists l; auto 7.
  - destruct (Nat.eqb_spec pos 0); [|discriminate].
    exists pos, s, c; simpl; auto.
Qed.

(** A run of the matcher reads a prefix of what is left. *)
Lemma sem_prefix (r : regex) :
  forall pos s c pos' s' c',
    sem r pos s c pos' s' c' ->
    exists l, s = l ++ s' /\ pos' = pos + length l.
Proof.
  induction r as [x|l|p|r1 IH1 r2 IH2|i r IH|greedy lo hi p|];
    intros pos s c pos' s' c'; simpl.
  - intros (-> & -> & _). exists [x]; simpl; split; auto; lia.
  - intros (-> & -> & _). eauto.
  - intros (y & -> & _ & -> & _). exists [y]; simpl; split; auto; lia.
  - intros (pos1 & s1 & c1 & H1 & H2).
    apply IH1 in H1 as (l1 & -> & ->).
    apply IH2 in H2 as (l2 & -> & ->).
    exists (l1 ++ l2). rewrite length_app, <- app_assoc. split; auto; lia.
  - intros (c1 & H & _). eauto.
  - intros (l & -> & _ & _ & _ & -> & _). eauto.
  - intros (-> & -> & -> & _). exists []; auto.
Qed.

Lemma search_sound (r : regex) s :
  forall pos m,
    search r pos s = Some m ->
    exists skipped s0 s' c',
      s = skipped ++ s0
      /\ m_index m = pos + length skipped
      /\ sem r (m_index m) s0 [] (m_end m) s' c'
      /\ m_groups m = c'.
Proof.
  induction s as [|x s IH]; intros pos m H; simpl in H.
  - destruct (rmatch r pos [] [] _) eqn:Hm; [|discriminate].
    simplify_eq.
    apply rmatch_sound in Hm as (pos' & s' & c' & Hsem & Hk); simplify_eq.
    exists [], [], s', c'; simpl. rewrite Nat.add_0_r; auto.
  - destruct (rmatch r pos (x :: s) [] _) eqn:Hm.
    + simplify_eq.
      apply rmatch_sound in Hm as (pos' & s' & c' & Hsem & Hk); simplify_eq.
      exists [], (x :: s), s', c'; simpl. rewrite Nat.add_0_r; auto.
    + apply IH in H as (skipped & s0 & s' & c' & -> & Hi & Hsem & Hc).
      exists (x :: skipped), s0, s', c'; simpl.
      repeat split; auto; lia.
Qed.

Lemma exec_sound (r : regex) input lastIndex m :
  exec r input lastIndex = Some m ->
  exists s0 s' c',
    lastIndex <= m_index m
    /\ drop (m_index m) input = s0
    /\ m_index m + length s0 = length input
    /\ sem r (m_index m) s0 [] (m_end m) s' c'
    /\ m_groups m = c'.
Proof.
  unfold exec. destruct (Nat.ltb_spec (length input) lastIndex); [discriminate|].
  intros Hs. apply search_sound in Hs as (skipped & s0 & s' & c' & Hd & Hi & Hsem & Hc).
  exists s0, s', c'.
  assert (Hlen : length (drop lastIndex input) = length skipped + length s0)
    by (rewrite Hd, length_app; lia).
  rewrite length_drop in Hlen.
  repeat split; auto; try lia.
  rewrite Hi, <- drop_drop, Hd, drop_app_length. reflexivity.
Qed.

(** A match of any pattern ends at or after its start, inside the
    input. *)
Lemma exec_bounds (r : regex) input lastIndex m :
  exec r input lastIndex = Some m ->
  lastIndex <= m_index m /\ m_index m <= m_end m /\ m_end m <= length input.
Proof.
  intros H.
  apply exec_sound in H as (s0 & s' & c' & Hle & _ & Hlen & Hsem & _).
  apply sem_prefix in Hsem as (l & Hl & Hend).
  apply (f_equal length) in Hl. rewrite length_app in Hl. lia.
Qed.

(** The fuel [matchG] gives to [matchAll] is enough: more fuel finds the
    same matches. *)
Lemma matchAll_fuel (r : regex) input :
  forall fuel fuel' lastIndex,
    S (length input) - lastIndex <= fuel ->
    S (length input) - lastIndex <= fuel' ->
    matchAll fuel r input lastIndex = matchAll fuel' r input lastIndex.
Proof.
  assert (Hout : forall fuel i, length input < i -> matchAll fuel r input i = []).
  { intros [|fuel] i Hi; [reflexivity|]. simpl. unfold exec.
    destruct (Nat.ltb_spec (length input) i); [reflexivity | lia]. }
  induction fuel as [|fuel IH]; intros fuel' i H H'.
  { rewrite (Hout fuel') by lia. reflexivity. }
  destruct fuel' as [|fuel'].
  { rewrite (Hout (S fuel)) by lia. reflexivity. }
  simpl. destruct (exec r input i) as [m|] eqn:Hm; [|reflexivity].
  apply exec_bounds in Hm as (H1 & H2 & H3).
  f_equal. destruct (Nat.eqb_spec (m_end m) (m_index m)); apply IH; lia.
Qed.

End RegexFacts.

(** ** Dates *)

Module DateFacts.
Import JS.

(** [daysFromCivil] counts the days of the Gregorian calendar from
    1 January 1970: it is 0 there, and grows by one from a day to the
    next, within a month, from the last day of a month to the first of
    the next, and from 31 December to 1 January. *)
Lemma daysFromCivil_epoch : daysFromCivil 1970 1 1 = 0%Z.
Proof. reflexivity. Qed.

Lemma daysFromCivil_next_day y m d :
  daysFromCivil y m (d + 1) = (daysFromCivil y m d + 1)%Z.
Proof. unfold daysFromCivil. destruct (m <=? 2)%Z; lia. Qed.

Lemma daysFromCivil_next_month y m :
  (1 <= m < 12)%Z ->
  daysFromCivil y (m + 1) 1 = (daysFromCivil y m (daysInMonth y m) + 1)%Z.
Proof.
  intros Hm.
  assert (Hc : (m = 1 \/ m = 2 \/ m = 3 \/ m = 4 \/ m = 5 \/ m = 6 \/ m = 7
                \/ m = 8 \/ m = 9 \/ m = 10 \/ m = 11)%Z) by lia.
  unfold daysFromCivil, daysInMonth, isLeap.
  repeat (destruct Hc as [->|Hc]); try subst m;
    repeat match goal with
           | |- context [(?a <=? ?b)%Z] => destruct (Z.leb_spec a b); try lia
           | |- context [(?a =? ?b)%Z] => destruct (Z.eqb_spec a b); try lia
           end;
    cbn [andb orb negb]; Z.to_euclidean_division_equations; lia.
Qed.

Lemma daysFromCivil_next_year y :
  daysFromCivil (y + 1) 1 1 = (daysFromCivil y 12 31 + 1)%Z.
Proof.
  unfold daysFromCivil. cbn [Z.leb Z.compare Pos.compare Pos.compare_cont].
  replace (y + 1 - 1)%Z with y by lia.
  Z.to_euclidean_division_equations; lia.
Qed.

End DateFacts.

(** ** The response parser *)

Module ParserFacts.
Import JS Regex Parser Record RegexFacts.

Lemma hhmm_sem pos s c pos' s' c' :
  sem hhmm pos s c pos' s' c' ->
  exists t, isTime t = true /\ s = t ++ s' /\ pos' = pos + 5 /\ c' = c.
Proof.
  unfold hhmm, exactly; cbn [sem].
  intros (p1 & s1 & c1 & (l1 & -> & Hd1 & Hlo1 & Hhi1 & -> & ->)
          & p2 & s2 & c2 & (Hs1 & -> & ->)
          & l2 & Hs2 & Hd2 & Hlo2 & Hhi2 & -> & ->).
  subst s1 s2.
  specialize (Hhi1 2 eq_refl). specialize (Hhi2 2 eq_refl).
  destruct l1 as [|a [|b [|]]]; simpl in Hlo1, Hhi1; try lia.
  destruct l2 as [|d [|e [|]]]; simpl in Hlo2, Hhi2; try lia.
  exists [a; b; chr ":"; d; e].
  cbn [forallb] in Hd1, Hd2.
  apply andb_true_iff in Hd1 as [Ha Hd1]; apply andb_true_iff in Hd1 as [Hb _].
  apply andb_true_iff in Hd2 as [Hd Hd2]; apply andb_true_iff in Hd2 as [He _].
  unfold isTime. rewrite Ha, Hb, Hd, He.
  repeat split; simpl; lia.
Qed.

Lemma take_app_exact {A} (t s : list A) n : n = length t -> take n (t ++ s) = t.
Proof. intros ->. apply take_app_length. Qed.

(** What a match of [pattern] looks like: it is not empty, it lies inside
    the input, and groups 3 and 4 are times. *)
Lemma exec_pattern html lastIndex m :
  exec pattern html lastIndex = Some m ->
  lastIndex < m_end m /\ m_end m <= length html
  /\ isTime (Regex.group 3 m) = true /\ isTime (Regex.group 4 m) = true.
Proof.
  intros H. apply exec_sound in H as (s0 & s' & c' & Hle & _ & Hlen & Hsem & Hc).
  pose proof (sem_prefix _ _ _ _ _ _ _ Hsem) as (l & Hl & Hend).
  apply (f_equal length) in Hl. rewrite length_app in Hl.
  unfold pattern, plus, plus_lazy in Hsem; cbn [sem] in Hsem.
  destruct Hsem as
    (p1 & s1 & c1 & (_ & Hp1 & _)
     & p2 & s2 & c2 & (c2' & (l1 & _ & _ & _ & _ & Hp2 & _) & _)
     & p3 & s3 & c3 & (_ & Hp3 & _)
     & p4 & s4 & c4 & (l2 & _ & _ & _ & _ & Hp4 & _)
     & p5 & s5 & c5 & (_ & Hp5 & _)
     & p6 & s6 & c6 & (c6' & (l3 & _ & _ & _ & _ & Hp6 & _) & _)
     & p7 & s7 & c7 & (_ & Hp7 & _)
     & p8 & s8 & c8 & (c8' & Ht3 & Hc8)
     & p9 & s9 & c9 & (_ & Hp9 & Hc9)
     & p10 & s10 & c10 & (c10' & Ht4 & Hc10)
     & _ & Hp11 & Hc11).
  apply hhmm_sem in Ht3 as (t3 & Ht3 & -> & -> & ->).
  apply hhmm_sem in Ht4 as (t4 & Ht4 & -> & -> & ->).
  assert (Hl5 : forall t, isTime t = true -> length t = 5).
  { intros [|? [|? [|? [|? [|? [|]]]]]]; simpl; congruence. }
  pose proof (Hl5 _ Ht3) as Hl3. pose proof (Hl5 _ Ht4) as Hl4.
  split; [lia|]. split; [lia|].
  unfold Regex.group. rewrite Hc. subst c' c10 c9 c8.
  cbn [capture Nat.eqb default from_option].
  rewrite !take_app_exact by lia.
  auto.
Qed.

Lemma execAll_fuel html :
  forall fuel lastIndex,
    length html - lastIndex < fuel ->
    exists ms, execAll fuel html lastIndex = Some ms.
Proof.
  induction fuel as [|fuel IH]; intros i Hi; [lia|].
  simpl. destruct (exec pattern html i) as [m|] eqn:Hm; [|eauto].
  apply exec_pattern in Hm as (Hlt & Hle & _).
  destruct (IH (m_end m)) as [ms ->]; [lia|].
  simpl; eauto.
Qed.

Lemma parseLoop_execAll html date :
  forall fuel lastIndex ms events,
    execAll fuel html lastIndex = Some ms ->
    parseLoop fuel html date lastIndex events
    = Some (events ++ map (recordEvent date) (List.filter wellFormed ms)).
Proof.
  induction fuel as [|fuel IH]; intros i ms events H; [discriminate|].
  simpl in *. destruct (exec pattern html i) as [m|] eqn:Hm.
  - destruct (execAll fuel html (m_end m)) as [ms'|] eqn:Hms; [|discriminate].
    simpl in H; simplify_eq.
    rewrite (IH _ _ _ Hms). f_equal.
    unfold loopBody. cbn [List.filter].
    unfold wellFormed at 2, segments.
    destruct (Nat.ltb_spec (length (split (Regex.group 2 m) separator)) 4) as [Hlt|Hge].
    + destruct (Nat.leb_spec 4 (length (split (Regex.group 2 m) separator)));
        [lia|reflexivity].
    + destruct (Nat.leb_spec 4 (length (split (Regex.group 2 m) separator)));
        [|lia].
      rewrite <- app_assoc. reflexivity.
  - simplify_eq. simpl. rewrite app_nil_r. reflexivity.
Qed.

Lemma buildEvent_times date parts startTime endTime :
  start_time (buildEvent date parts startTime endTime) = startTime
  /\ end_time (buildEvent date parts startTime endTime) = endTime.
Proof.
  destruct date as [[d mth] y]. unfold buildEvent, parseDetails.
  repeat match goal with
         | |- context [if ?b then _ else _] => destruct b
         | |- context [match match_ ?a ?b with _ => _ end] =>
             destruct (match_ a b)
         end; auto.
Qed.

End ParserFacts.

Module ParserSpec.
Import JS Regex Parser Record RegexFacts ParserFacts.

(** C7.  For every payload the loop ends, and the events it returns are
    those built from the records of at least four segments, one each and
    in the order of the records: a record of fewer than four segments
    adds nothing, and the records after it are decoded as if it had not
    been there. *)
Theorem malformed_records_are_skipped (html : jsstring) :
  exists ms,
    execAll (S (length html)) html 0 = Some ms
    /\ parseResponseFuel html
       = Some (map (recordEvent (extractDate html))
                 (List.filter (fun m => 4 <=? length (segments m)) ms))
    /\ parseResponse html
       = map (recordEvent (extractDate html))
           (List.filter (fun m => 4 <=? length (segments m)) ms).
Proof.
  destruct (execAll_fuel html (S (length html)) 0) as [ms Hms]; [lia|].
  exists ms. split; [assumption|].
  assert (H : parseResponseFuel html
              = Some (map (recordEvent (extractDate html))
                        (List.filter wellFormed ms))).
  { unfold parseResponseFuel.
    rewrite (parseLoop_execAll _ _ _ _ _ [] Hms). reflexivity. }
  split; [exact H|].
  unfold parseResponse. rewrite H. reflexivity.
Qed.

(** C1, as amended.  Every event the parser returns is the event of a
    record of the payload, a match of the pattern of records, and its
    start and end times are the third and the fourth group of that
    record, copied as they stand: each has the shape of two digits, a
    colon and two digits, and the start time is before the end time
    exactly when the record has them so.  The parser does not compare
    the two. *)
Theorem event_times_have_shape (html : jsstring) (e : ScheduleEvent) :
  In e (parseResponse html) ->
  exists lastIndex m,
    exec pattern html lastIndex = Some m
    /\ e = recordEvent (extractDate html) m
    /\ start_time e = Regex.group 3 m
    /\ end_time e = Regex.group 4 m
    /\ isTime (start_time e) = true
    /\ isTime (end_time e) = true
    /\ str_ltb (start_time e) (end_time e)
       = str_ltb (Regex.group 3 m) (Regex.group 4 m).
Proof.
  intros He.
  set (P := fun x : ScheduleEvent =>
              exists lastIndex m,
                exec pattern html lastIndex = Some m
                /\ x = recordEvent (extractDate html) m
                /\ start_time x = Regex.group 3 m
                /\ end_time x = Regex.group 4 m
                /\ isTime (start_time x) = true
                /\ isTime (end_time x) = true
                /\ str_ltb (start_time x) (end_time x)
                   = str_ltb (Regex.group 3 m) (Regex.group 4 m)).
  assert (Hinv : forall fuel i acc evs,
             (forall x, In x acc -> P x) ->
             parseLoop fuel html (extractDate html) i acc = Some evs ->
             forall x, In x evs -> P x).
  { induction fuel as [|fuel IH]; intros i acc evs Hacc H; [discriminate|].
    simpl in H. destruct (exec pattern html i) as [m|] eqn:Hm.
    - eapply IH; [| exact H].
      pose proof (exec_pattern _ _ _ Hm) as (_ & _ & H3 & H4).
      unfold loopBody. intros x Hx.
      destruct (length (split (Regex.group 2 m) separator) <? 4); [auto|].
      apply in_app_or in Hx as [Hx | [<- | []]]; [auto|].
      exists i, m. split; [exact Hm|]. split; [reflexivity|].
      destruct (buildEvent_times (extractDate html)
                  (split (Regex.group 2 m) separator)
                  (Regex.group 3 m) (Regex.group 4 m)) as [-> ->].
      repeat (split; [first [assumption | reflexivity]|]). reflexivity.
    - simplify_eq; auto. }
  unfold parseResponse in He.
  destruct (parseResponseFuel html) as [evs|] eqn:Hp; [|destruct He].
  eapply Hinv; [| exact Hp | exact He]. intros x [].
Qed.

(** A run of the theorem above on a payload of one record, whose times
    stand in the record as 14:30 and 12:00. *)
Lemma event_times_have_shape_witness :
  In Fixtures.reversedEvent (parseResponse Fixtures.reversedPayload)
  /\ exists lastIndex m,
       exec pattern Fixtures.reversedPayload lastIndex = Some m
       /\ Regex.group 3 m = utf16 "14:30"
       /\ Regex.group 4 m = utf16 "12:00"
       /\ isTime (start_time Fixtures.reversedEvent) = true
       /\ isTime (end_time Fixtures.reversedEvent) = true.
Proof.
  assert (H : In Fixtures.reversedEvent (parseResponse Fixtures.reversedPayload))
    by (vm_compute; left; reflexivity).
  split; [exact H|].
  destruct (event_times_have_shape Fixtures.reversedPayload
              Fixtures.reversedEvent H)
    as (i & m & Hm & _ & H3 & H4 & Hs & He & _).
  exists i, m. rewrite <- H3, <- H4.
  split; [exact Hm|]. split; [vm_compute; reflexivity|].
  split; [vm_compute; reflexivity|]. split; assumption.
Defined.

(** C1, as stated, fails: the parser returns the event of a record whose
    end time is before its start time. *)
Lemma start_before_end_counterexample :
  ~ (forall e, In e (parseResponse Fixtures.reversedPayload) ->
               str_ltb (start_time e) (end_time e) = true).
Proof.
  intros H. specialize (H Fixtures.reversedEvent).
  assert (Hin : In Fixtures.reversedEvent (parseResponse Fixtures.reversedPayload))
    by (vm_compute; left; reflexivity).
  apply H in Hin. vm_compute in Hin. discriminate.
Qed.

(** C8.  The blob of the record splits into the four segments of the
    scenario, and the parser returns exactly one event with the fields of
    the scenario; the date fields come from the [visibleDays] marker of
    the payload and are zero and empty without it. *)
Theorem decode_english_record :
  split Fixtures.englishBlob separator
  = [utf16 "English"; utf16 "-Лекция ауд.206 (Комсомольский пр-кт, д.6)";
     utf16 "(пр: Иванов И.И.)"; utf16 "Группа1"]
  /\ parseResponseFuel Fixtures.englishRecord
     = Some [Fixtures.englishEvent 0 0 0 []]
  /\ parseResponse Fixtures.englishRecord = [Fixtures.englishEvent 0 0 0 []]
  /\ parseResponse Fixtures.englishPayload
     = [Fixtures.englishEvent 6 3 2026 (utf16 "6 марта 2026")].
Proof. repeat split; vm_compute; reflexivity. Qed.

End ParserSpec.

(** ** The portal client *)

Module ClientSpec.
Import JS Regex Parser Host Client ClientReadings.

Lemma createAuthHeader_latin1 credentials w :
  latin1 (username credentials ++ utf16 ":" ++ password credentials) = true ->
  createAuthHeader (username credentials) (password credentials) w
  = (Ok (authorization credentials), w).
Proof.
  intros H. unfold createAuthHeader, bind, btoa.
  unfold latin1 in H. rewrite H. reflexivity.
Qed.

(** C2, as amended.  [fetchInitialPage] sends one GET request.  On a
    status outside 200-299, 401 and 403 among them, it throws one kind of
    error, an [Error] whose message is the status and its text; when the
    request itself fails it throws what [fetch] rejected with.  No class
    of error tells a refused login from any other failure. *)
Theorem initial_page_errors (config : EIOSConfig)
    (credentials : UserCredentials) (w : World) :
  latin1 (username credentials ++ utf16 ":" ++ password credentials) = true ->
  let req := initialRequest config credentials in
  let out := fetchInitialPage config credentials w in
  sent (snd out) = sent w ++ [req]
  /\ match snd (network w (sent w) req) with
     | Rejected e => fst out = Throw e
     | Responded r =>
         fst out
         = if ok r then Ok (text r)
           else Throw (mkError (utf16 "Error")
                         (utf16 "HTTP " ++ String_of_N (status r)
                          ++ utf16 ": " ++ statusText r))
     end.
Proof.
  intros Hl req out. subst out.
  unfold fetchInitialPage, bind.
  rewrite (createAuthHeader_latin1 _ _ Hl).
  fold (initialRequest config credentials). fold req.
  unfold fetch.
  destruct (network w (sent w) req) as [elapsed [e|r]]; simpl; [auto|].
  destruct (ok r); simpl; auto.
Qed.

(** The theorem above, in a world where the portal answers 403. *)
Lemma initial_page_errors_witness :
  latin1 (username Fixtures.student ++ utf16 ":" ++ password Fixtures.student)
  = true
  /\ fst (fetchInitialPage defaultEIOSConfig Fixtures.student
            (Fixtures.worldAnswering
               (fun _ => Fixtures.respond 403 (utf16 "Forbidden") [])))
     = Throw (mkError (utf16 "Error") (utf16 "HTTP 403: Forbidden")).
Proof.
  assert (H : latin1 (username Fixtures.student ++ utf16 ":"
                      ++ password Fixtures.student) = true)
    by (vm_compute; reflexivity).
  split; [exact H|].
  pose proof (initial_page_errors defaultEIOSConfig Fixtures.student
                (Fixtures.worldAnswering
                   (fun _ => Fixtures.respond 403 (utf16 "Forbidden") []))
                H) as [_ Hout].
  exact Hout.
Defined.

(** C2, as stated, fails: on status 401 the error thrown is not an
    [AuthenticationError]; it is the [Error] thrown on status 500 too,
    with another message. *)
Lemma authentication_error_counterexample :
  ~ (exists msg w',
       fetchInitialPage defaultEIOSConfig Fixtures.student
         (Fixtures.worldAnswering
            (fun _ => Fixtures.respond 401 (utf16 "Unauthorized") []))
       = (Throw (mkError (utf16 "AuthenticationError") msg), w'))
  /\ fst (fetchInitialPage defaultEIOSConfig Fixtures.student
            (Fixtures.worldAnswering
               (fun _ => Fixtures.respond 401 (utf16 "Unauthorized") [])))
     = Throw (mkError (utf16 "Error") (utf16 "HTTP 401: Unauthorized"))
  /\ fst (fetchInitialPage defaultEIOSConfig Fixtures.student
            (Fixtures.worldAnswering
               (fun _ => Fixtures.respond 500
                           (utf16 "Internal Server Error") [])))
     = Throw (mkError (utf16 "Error")
                (utf16 "HTTP 500: Internal Server Error")).
Proof.
  split; [|split; vm_compute; reflexivity].
  intros (msg & w' & H).
  apply (f_equal fst) in H. vm_compute in H. discriminate.
Qed.

(** C4, as amended.  [navigateToDate] posts the form with its callback
    parameter set to the end of the target day, its start, the length of
    a day and [null], where the start is midnight UTC of the target day
    in milliseconds since 1970 and the end is a day later. *)
Theorem navigate_callback_param (config : EIOSConfig)
    (credentials : UserCredentials) (formData : gmap (list N) (list N))
    (targetDate : jsstring) (y m d : Z) (w : World) :
  latin1 (username credentials ++ utf16 ":" ++ password credentials) = true ->
  parseIsoDate targetDate = Some (y, m, d) ->
  let start := (86400000 * daysFromCivil y m d)%Z in
  let finish := (start + 86400000)%Z in
  exists req,
    sent (snd (navigateToDate config credentials formData targetDate w))
    = sent w ++ [req]
    /\ req_method req = POST
    /\ req_url req = getScheduleUrl config (base_plan_id credentials)
    /\ req_body req
       = Some (<[CALLBACKPARAM :=
                   utf16 "c0:MOREBTN|" ++ String_of_Z finish ++ utf16 ","
                   ++ String_of_Z start ++ utf16 ",86400000,null"]> formData).
Proof.
  intros Hl Hd start finish.
  unfold navigateToDate, bind.
  rewrite (createAuthHeader_latin1 _ _ Hl).
  unfold dateToTimestamp, Date_getTime. rewrite Hd.
  cbn [option_map String_of_number].
  unfold fetch.
  match goal with
  | |- context [network w (sent w) ?r] =>
      exists r; destruct (network w (sent w) r) as [elapsed [e|r']]
  end; simpl.
  - repeat split; reflexivity.
  - destruct (ok r'); simpl; repeat split; reflexivity.
Qed.

(** The theorem above for 6 March 2026. *)
Lemma navigate_callback_param_witness :
  latin1 (username Fixtures.student ++ utf16 ":" ++ password Fixtures.student)
  = true
  /\ parseIsoDate (utf16 "2026-03-06") = Some (2026, 3, 6)%Z
  /\ exists req,
       sent (snd (navigateToDate defaultEIOSConfig Fixtures.student ∅
                    (utf16 "2026-03-06")
                    (Fixtures.worldAnswering
                       (fun _ => Fixtures.respond 200 (utf16 "OK") []))))
       = [req]
       /\ req_body req
          = Some {[ CALLBACKPARAM :=
                      utf16 "c0:MOREBTN|1772841600000,1772755200000,86400000,null" ]}.
Proof.
  assert (Hl : latin1 (username Fixtures.student ++ utf16 ":"
                       ++ password Fixtures.student) = true)
    by (vm_compute; reflexivity).
  assert (Hd : parseIsoDate (utf16 "2026-03-06") = Some (2026, 3, 6)%Z)
    by (vm_compute; reflexivity).
  split; [exact Hl|]. split; [exact Hd|].
  destruct (navigate_callback_param defaultEIOSConfig Fixtures.student ∅
              (utf16 "2026-03-06") 2026 3 6
              (Fixtures.worldAnswering
                 (fun _ => Fixtures.respond 200 (utf16 "OK") []))
              Hl Hd) as (req & Hsent & _ & _ & Hbody).
  exists req. split; [exact Hsent|].
  rewrite Hbody. reflexivity.
Defined.

(** C4, as stated, fails: where local time is three hours ahead of UTC,
    the parameter posted for 6 March 2026 starts at midnight UTC, three
    hours after local midnight. *)
Lemma local_midnight_counterexample :
  postedParam Fixtures.afterNavigation
  = Some (utf16 "c0:MOREBTN|1772841600000,1772755200000,86400000,null")
  /\ specCallbackParam 180 2026 3 6
     = utf16 "c0:MOREBTN|1772830800000,1772744400000,86400000,null"
  /\ postedParam Fixtures.afterNavigation
     <> Some (specCallbackParam 180 2026 3 6).
Proof.
  assert (H1 : postedParam Fixtures.afterNavigation
               = Some (utf16 "c0:MOREBTN|1772841600000,1772755200000,86400000,null"))
    by (vm_compute; reflexivity).
  assert (H2 : specCallbackParam 180 2026 3 6
               = utf16 "c0:MOREBTN|1772830800000,1772744400000,86400000,null")
    by (vm_compute; reflexivity).
  split; [exact H1|]. split; [exact H2|].
  rewrite H1, H2. vm_compute. discriminate.
Qed.

(** C9.  For the target date 2026-03-06 a response whose visible date is
    6/3/2026 is reported as reached; one whose visible date is 3/6/2026,
    which is 6 March only when read month first, is reported as another
    date, 2026-06-03. *)
Theorem verifyNavigation_day_first :
  verifyNavigation (Fixtures.navigationResponse (utf16 "6/3/2026"))
    (utf16 "2026-03-06")
  = Some [(Log, utf16 "📅 Текущая дата в ответе: 6/3/2026");
          (Log, utf16 "✅ Успешно перешли к 2026-03-06!")]
  /\ verifyNavigation (Fixtures.navigationResponse (utf16 "3/6/2026"))
       (utf16 "2026-03-06")
     = Some [(Log, utf16 "📅 Текущая дата в ответе: 3/6/2026");
             (Warn, utf16 "⚠️ Ожидали 2026-03-06, получили 2026-06-03")].
Proof. split; vm_compute; reflexivity. Qed.

End ClientSpec.

(** ** The cache *)

Module CacheFacts.
Import JS Parser Host Cache CacheReadings.

(** Unfolds the operations of the cache and the plumbing of
    computations, leaving the lookups in the two stores and the answers
    of the stores to the kinds of calls. *)
Ltac run_cache :=
  cbv [save get remove bind try_catch Date_now read write
       isCloudStorageAvailable cloudStorage
       saveToCloudStorage saveToLocalStorage getFromCloudStorage
       getFromLocalStorage removeFromCloudStorage removeFromLocalStorage
       set_localStorage set_clock set_telegram set_cloudStorage missing
       isValid ret
       found cloudItem localItem cloudSeen localSeen cloudHeld localHeld
       cloudRefuses localRefuses remoteStore stores
       telegram localStorage CloudStorage_ cs_failing cs_items ls_failing
       ls_items clock cachedCredentials network sent opt_ttl initData
       useCloudStorage data ttl timestamp fst snd andb negb].

Ltac run_cache_in H :=
  cbv [save get remove bind try_catch Date_now read write
       isCloudStorageAvailable cloudStorage
       saveToCloudStorage saveToLocalStorage getFromCloudStorage
       getFromLocalStorage removeFromCloudStorage removeFromLocalStorage
       set_localStorage set_clock set_telegram set_cloudStorage missing
       isValid ret
       found cloudItem localItem cloudSeen localSeen cloudHeld localHeld
       cloudRefuses localRefuses remoteStore stores shows localShows readsBack removes
       telegram localStorage CloudStorage_ cs_failing cs_items ls_failing
       ls_items clock cachedCredentials network sent opt_ttl initData
       useCloudStorage data ttl timestamp fst snd andb negb] in H.

(** The three shapes of a world's stores: both stores, the chat
    application without a remote store, no chat application. *)
Ltac split_world w :=
  destruct w as [?clk [[?init [[?citems ?cfail]|]]|] [?litems ?lfail]
                 ?cc ?net ?snt].

(** The answers of the stores to the kinds of calls that occur in the
    goal. *)
Ltac split_flags :=
  repeat match goal with
         | |- context [?f SetItem] => is_var f; destruct (f SetItem) eqn:?
         | |- context [?f GetItem] => is_var f; destruct (f GetItem) eqn:?
         | |- context [?f RemoveItem] =>
             is_var f; destruct (f RemoveItem) eqn:?
         | |- context [?f GetKeys] => is_var f; destruct (f GetKeys) eqn:?
         | |- context [?f RemoveItems] =>
             is_var f; destruct (f RemoveItems) eqn:?
         end.


(** What [JSON.parse] reads from what [JSON.stringify] wrote. *)
Lemma JSON_parse_stringify item :
  JSON_parse (JSON_stringify item)
  = Some {| data := data item;
            timestamp := timestamp item;
            ttl := match ttl item with
                   | Some t => JSON_number t
                   | None => None
                   end |}.
Proof. reflexivity. Qed.

Lemma isEmptyText_stringify item : isEmptyText (JSON_stringify item) = false.
Proof. reflexivity. Qed.

(** The readings of a store through a call, in terms of what it holds
    and of what it refuses. *)
Lemma cloudSeen_held call w key :
  cloudSeen call w key
  = if cloudRefuses call w then None else cloudHeld w key.
Proof.
  unfold cloudSeen, cloudRefuses, cloudHeld.
  destruct (remoteStore w); reflexivity.
Qed.

Lemma localSeen_held call w key :
  localSeen call w key
  = if localRefuses call w then None else localHeld w key.
Proof. reflexivity. Qed.

(** [save] does not throw. *)
Lemma save_ok date events options w :
  fst (save date events options w) = Ok tt.
Proof.
  split_world w; run_cache; try destruct (cloudWanted options);
    cbv iota beta; split_flags; reflexivity.
Qed.

(** [save] leaves the clock, the requests sent and the credentials as
    they are, and does not change what the stores refuse. *)
Lemma save_frame date events options w :
  clock (snd (save date events options w)) = clock w
  /\ sent (snd (save date events options w)) = sent w
  /\ cachedCredentials (snd (save date events options w))
     = cachedCredentials w
  /\ (forall call,
        cloudRefuses call (snd (save date events options w))
        = cloudRefuses call w
        /\ localRefuses call (snd (save date events options w))
           = localRefuses call w).
Proof.
  split_world w; run_cache; try destruct (cloudWanted options);
    cbv iota beta; split_flags; repeat split; reflexivity.
Qed.

(** [save] writes under one key. *)
Lemma save_other_keys date events options w key :
  key <> getCacheKey date ->
  cloudHeld (snd (save date events options w)) key = cloudHeld w key
  /\ localHeld (snd (save date events options w)) key = localHeld w key.
Proof.
  intros Hne.
  split_world w; run_cache; try destruct (cloudWanted options);
    cbv iota beta; split_flags; cbv iota beta;
    rewrite ?lookup_insert_ne by congruence; split; reflexivity.
Qed.

(** A save that may not use the remote store leaves it as it is. *)
Lemma save_local_only date events options w key :
  cloudWanted options = false ->
  cloudHeld (snd (save date events options w)) key = cloudHeld w key.
Proof.
  intros Hc. split_world w; run_cache; rewrite ?Hc; cbv iota beta;
    split_flags; reflexivity.
Qed.

(** What [get] reads after a [save] that may use the remote store, where
    the store that takes the write is the one [get] reads. *)
Lemma save_found date events options w :
  cloudWanted options = true ->
  readsBack w (getCacheKey date) ->
  found (snd (save date events options w)) (getCacheKey date)
  = Some (JSON_stringify {| data := events;
                            timestamp := clock w;
                            ttl := Some (effectiveTtl options) |}).
Proof.
  intros Hc Hr.
  split_world w; run_cache_in Hr; run_cache; rewrite ?Hc; cbv iota beta;
    split_flags; cbv iota beta in Hr |- *;
    rewrite ?lookup_insert_eq; cbv iota beta;
    rewrite ?isEmptyText_stringify;
    try reflexivity;
    try (destruct Hr as [[? ?] ?]; congruence);
    try (destruct Hr as [? ?]; congruence).
  all: destruct Hr as [_ Hr]; specialize (Hr eq_refl).
  all: destruct (citems !! getCacheKey date) as [text|]; [|reflexivity].
  all: rewrite Hr; reflexivity.
Qed.

(** Case analysis on the answers of the stores, the texts under the
    key and the tests of [get], each settled once. *)
Ltac split_get date :=
  repeat (cbv iota beta;
          match goal with
          | H : ?f ?call = _ |- context [?f ?call] => is_var f; rewrite H
          | H : ?m !! getCacheKey date = _
            |- context [?m !! getCacheKey date] => rewrite H
          | H : isEmptyText ?x = _ |- context [isEmptyText ?x] => rewrite H
          | H : JSON_parse ?x = _ |- context [JSON_parse ?x] => rewrite H
          | H : (?a =? ?b)%Z = _ |- context [(?a =? ?b)%Z] => rewrite H
          | H : (?a <? ?b)%Z = _ |- context [(?a <? ?b)%Z] => rewrite H
          | |- context [?f GetItem] => is_var f; destruct (f GetItem) eqn:?
          | |- context [?m !! getCacheKey date] =>
              destruct (m !! getCacheKey date) as [?text|] eqn:?
          | |- context [isEmptyText ?x] => destruct (isEmptyText x) eqn:?
          | |- context [JSON_parse ?x] =>
              destruct (JSON_parse x) as [[? ? [[?t| | |]|]]|] eqn:?;
              cbv [orb negb ttl timestamp data truthy lessThan]
          | |- context [(?a =? ?b)%Z] => destruct (a =? b)%Z eqn:?
          | |- context [(?a <? ?b)%Z] => destruct (a <? b)%Z eqn:?
          | |- context [remove date ?w0] =>
              destruct (remove date w0) as [[[]|?] ?]
          end).

(** [get] in terms of the text it reads. *)
Lemma get_spec date w :
  get date w
  = match found w (getCacheKey date) with
    | None => (Ok None, w)
    | Some text =>
        if isEmptyText text then (Ok None, w)
        else
          match JSON_parse text with
          | None => (Ok None, w)
          | Some item =>
              if validAt (clock w) item then (Ok (Some (data item)), w)
              else (Ok None, snd (remove date w))
          end
    end.
Proof.
  split_world w;
    cbv [get bind try_catch Date_now read isCloudStorageAvailable
         cloudStorage remoteStore getFromCloudStorage getFromLocalStorage
         missing isValid
         ret found cloudItem localItem cloudSeen localSeen validAt
         telegram localStorage CloudStorage_ cs_failing cs_items ls_failing
         ls_items clock fst snd negb];
    split_get date; cbv iota beta; try reflexivity; congruence.
Qed.

(** [remove] asks each store to take the key out; a store that refuses
    is left as it is, and nothing else is touched. *)
Lemma remove_spec date w :
  cloudHeld (snd (remove date w)) (getCacheKey date)
  = (if cloudRefuses RemoveItem w then cloudHeld w (getCacheKey date)
     else None)
  /\ localHeld (snd (remove date w)) (getCacheKey date)
     = (if localRefuses RemoveItem w then localHeld w (getCacheKey date)
        else None)
  /\ (forall key, key <> getCacheKey date ->
        cloudHeld (snd (remove date w)) key = cloudHeld w key
        /\ localHeld (snd (remove date w)) key = localHeld w key)
  /\ clock (snd (remove date w)) = clock w
  /\ sent (snd (remove date w)) = sent w
  /\ cachedCredentials (snd (remove date w)) = cachedCredentials w
  /\ (forall call,
        cloudRefuses call (snd (remove date w)) = cloudRefuses call w
        /\ localRefuses call (snd (remove date w)) = localRefuses call w).
Proof.
  split_world w; run_cache; split_flags; cbv iota beta;
    rewrite ?lookup_delete_eq; repeat split; auto;
    apply lookup_delete_ne; congruence.
Qed.

Lemma remove_ok date w : fst (remove date w) = Ok tt.
Proof. split_world w; run_cache; split_flags; reflexivity. Qed.

Lemma found_None w key :
  cloudItem w key = None -> localItem w key = None -> found w key = None.
Proof. unfold found. intros -> ->. reflexivity. Qed.

Lemma found_same_items w w' key :
  cloudItem w' key = cloudItem w key ->
  localItem w' key = localItem w key ->
  found w' key = found w key.
Proof. unfold found. intros -> ->. reflexivity. Qed.


Lemma found_set_clock t w key : found (set_clock t w) key = found w key.
Proof. reflexivity. Qed.

Lemma found_Some w key text :
  found w key = Some text ->
  is_Some (cloudItem w key) \/ is_Some (localItem w key).
Proof.
  unfold found. destruct (missing (cloudItem w key)); intros H; rewrite H; eauto.
Qed.

(** What [get] finds after [remove], where neither store refuses the
    removal. *)
Lemma remove_found date w :
  removes w -> found (snd (remove date w)) (getCacheKey date) = None.
Proof.
  intros [Hc Hl].
  destruct (remove_spec date w) as (H1 & H2 & _).
  rewrite Hc in H1. rewrite Hl in H2.
  apply found_None; unfold cloudItem, localItem;
    rewrite ?cloudSeen_held, ?localSeen_held, ?H1, ?H2;
    match goal with |- (if ?b then _ else _) = _ => destruct b end;
    reflexivity.
Qed.


Lemma removes_same_stores w w' :
  stores w' = stores w -> removes w -> removes w'.
Proof.
  unfold stores. intros H. injection H as Hc Hl.
  unfold removes, cloudRefuses, localRefuses. rewrite Hc, Hl. auto.
Qed.

Lemma shows_same_stores call w w' :
  stores w' = stores w -> shows call w -> shows call w'.
Proof.
  unfold stores. intros H. injection H as Hc Hl.
  unfold shows, localShows, cloudRefuses, localRefuses. rewrite Hc, Hl. auto.
Qed.



(** [get] leaves the clock, the requests sent and the credentials as
    they are, and does not change what the stores refuse. *)
Lemma get_frame date w :
  clock (snd (get date w)) = clock w
  /\ sent (snd (get date w)) = sent w
  /\ cachedCredentials (snd (get date w)) = cachedCredentials w
  /\ (forall call,
        cloudRefuses call (snd (get date w)) = cloudRefuses call w
        /\ localRefuses call (snd (get date w)) = localRefuses call w).
Proof.
  rewrite get_spec.
  destruct (remove_spec date w) as (_ & _ & _ & Hc & Hs & Hcc & Hf).
  destruct (found w (getCacheKey date)) as [text|]; [|auto].
  destruct (isEmptyText text); [auto|].
  destruct (JSON_parse text) as [item|]; [|auto].
  destruct (validAt (clock w) item); auto.
Qed.

Lemma get_removes date w : removes w -> removes (snd (get date w)).
Proof.
  destruct (get_frame date w) as (_ & _ & _ & Hf).
  unfold removes. destruct (Hf RemoveItem) as [-> ->]. auto.
Qed.

(** [get] answers from the text it finds and the clock. *)
Lemma get_fst_same date w w' :
  found w' (getCacheKey date) = found w (getCacheKey date) ->
  clock w' = clock w ->
  fst (get date w') = fst (get date w).
Proof.
  intros Hf Hc. rewrite !get_spec, Hf, Hc.
  destruct (found w (getCacheKey date)) as [text|]; [|reflexivity].
  destruct (isEmptyText text); [reflexivity|].
  destruct (JSON_parse text) as [item|]; [|reflexivity].
  destruct (validAt (clock w) item); reflexivity.
Qed.

(** What is saved with the remote store allowed, where the store that
    takes the write is the one [get] reads, is read back exactly while
    its time to live has not run out. *)
Lemma save_get_lifetime date events options now' w :
  cloudWanted options = true ->
  readsBack w (getCacheKey date) ->
  get date (set_clock now' (snd (save date events options w)))
  = if within (now' - clock w) (effectiveTtl options)
    then (Ok (Some events), set_clock now' (snd (save date events options w)))
    else (Ok None,
          snd (remove date
                 (set_clock now' (snd (save date events options w))))).
Proof.
  intros Hc Hr.
  rewrite get_spec, found_set_clock, (save_found _ _ _ _ Hc Hr).
  rewrite isEmptyText_stringify, JSON_parse_stringify.
  unfold validAt, within. cbn [ttl timestamp data].
  change (clock (set_clock now' (snd (save date events options w)))) with now'.
  reflexivity.
Qed.



End CacheFacts.

Module CacheSpec.
Import JS Parser Host Cache CacheReadings CacheFacts.







End CacheSpec.

(** ** The service *)

Module ServiceFacts.
Import JS Parser Host Client ClientReadings Cache CacheReadings CacheFacts
  Service.

Lemma keeps_ret {A} (a : A) : keeps (ret a).
Proof. intros w; auto. Qed.

Lemma keeps_throw {A} e : keeps (@throw A e).
Proof. intros w; auto. Qed.

Lemma keeps_read {A} (f : World -> A) : keeps (read f).
Proof. intros w; auto. Qed.



Lemma keeps_fetch req : keeps (fetch req).
Proof.
  intros w. unfold fetch.
  destruct (network w (sent w) req) as [elapsed [e|r]]; simpl; auto.
Qed.

Lemma keeps_btoa s : keeps (btoa s).
Proof. unfold btoa. destruct (forallb _ s); [apply keeps_ret | apply keeps_throw]. Qed.

Lemma keeps_write_credentials c : keeps (write (set_cachedCredentials c)).
Proof. intros w; auto. Qed.

Create HintDb keeps.
#[export] Hint Resolve keeps_ret keeps_throw keeps_read keeps_fetch keeps_btoa
  keeps_write_credentials : keeps.




Lemma createAuthHeader_world u p w :
  snd (createAuthHeader u p w) = w.
Proof.
  unfold createAuthHeader, bind, btoa.
  destruct (forallb _ _); reflexivity.
Qed.






End ServiceFacts.

Module ServiceSpec.
Import JS Parser Host Client ClientReadings Cache CacheReadings CacheFacts
  Service ServiceFacts.








(** Where a store refuses a removal, the lookup after a call that
    returned the empty list may find an entry: the first lookup met the
    entry of the remote store, which had run out, and removed it there,
    but not the good entry of the local store, which the second lookup
    then reads. *)
Example refused_eviction_unmasks_local_entry :
  fst (Cache.get (utf16 "2026-03-06") Fixtures.emptyDayRefusingRemoval)
  = Ok None
  /\ fst (getScheduleForDay Fixtures.service (utf16 "2026-03-06") false
            Fixtures.emptyDayRefusingRemoval) = Ok []
  /\ localRefuses RemoveItem Fixtures.emptyDayRefusingRemoval = true
  /\ fst (Cache.get (utf16 "2026-03-06")
            (snd (getScheduleForDay Fixtures.service (utf16 "2026-03-06")
                    false Fixtures.emptyDayRefusingRemoval)))
     = Ok (Some (data Fixtures.freshItem)).
Proof. repeat split; vm_compute; reflexivity. Qed.

End ServiceSpec.

(** ** Sorting *)

Module SortFacts.
Import JS ParserTools.

Section SortBy.
Context {A : Type} (before : A -> A -> bool).
Hypothesis before_total : forall a b, before a b = true \/ before b a = true.
Hypothesis before_trans :
  forall a b c, before a b = true -> before b c = true -> before a c = true.

Lemma insertBy_perm x l : Permutation (x :: l) (insertBy before x l).
Proof.
  induction l as [|y l IH]; simpl; [reflexivity|].
  destruct (before x y); [reflexivity|].
  rewrite perm_swap. apply perm_skip. exact IH.
Qed.

Lemma sortBy_perm l : Permutation l (sortBy before l).
Proof.
  induction l as [|x l IH]; simpl; [reflexivity|].
  rewrite <- insertBy_perm. apply perm_skip. exact IH.
Qed.

Lemma insertBy_sorted x l :
  StronglySorted (fun a b => before a b = true) l ->
  StronglySorted (fun a b => before a b = true) (insertBy before x l).
Proof.
  induction 1 as [|y l Hs IH Hy]; simpl.
  - repeat constructor.
  - destruct (before x y) eqn:Hxy.
    + constructor; [constructor; assumption|].
      constructor; [assumption|].
      eapply Forall_impl; [exact Hy|]. intros; eapply before_trans; eauto.
    + assert (Hyx : before y x = true)
        by (destruct (before_total x y); congruence).
      constructor; [exact IH|].
      apply (Permutation_Forall (insertBy_perm x l)).
      constructor; assumption.
Qed.

Lemma sortBy_sorted l :
  StronglySorted (fun a b => before a b = true) (sortBy before l).
Proof.
  induction l as [|x l IH]; simpl; [constructor|].
  apply insertBy_sorted. exact IH.
Qed.

(** The sort is stable: those that the order does not tell apart from
    [a] keep the order they had. *)
Lemma insertBy_tied a x l :
  StronglySorted (fun a b => before a b = true) l ->
  List.filter (tied before a) (insertBy before x l)
  = List.filter (tied before a) (x :: l).
Proof.
  induction 1 as [|y l Hs IH Hy]; [reflexivity|].
  cbn [insertBy]. destruct (before x y) eqn:Hxy; [reflexivity|].
  cbn [List.filter] in *. rewrite IH.
  destruct (tied before a x) eqn:Hax; [|reflexivity].
  destruct (tied before a y) eqn:Hay; [|reflexivity].
  apply andb_true_iff in Hax as [H1 H2]. apply andb_true_iff in Hay as [H3 H4].
  rewrite (before_trans x a y H2 H3) in Hxy. discriminate.
Qed.

Lemma sortBy_stable a l :
  List.filter (tied before a) (sortBy before l) = List.filter (tied before a) l.
Proof.
  induction l as [|x l IH]; [reflexivity|].
  cbn [sortBy fold_right]. fold (sortBy before l).
  rewrite insertBy_tied by apply sortBy_sorted.
  cbn [List.filter]. rewrite IH. reflexivity.
Qed.
End SortBy.

(** The order of strings. *)
Lemma str_eqb_eq a b : str_eqb a b = true <-> a = b.
Proof.
  revert b; induction a as [|x a IH]; intros [|y b]; simpl;
    try (split; [discriminate | congruence]); [tauto|].
  rewrite andb_true_iff, N.eqb_eq, IH. split; [intros [-> ->] | intros H];
    [reflexivity | injection H; auto].
Qed.

Lemma str_ltb_irrefl a : str_ltb a a = false.
Proof.
  induction a as [|x a IH]; [reflexivity|]. simpl.
  destruct (N.ltb_spec x x); [lia | exact IH].
Qed.

Lemma str_ltb_trans a b c :
  str_ltb a b = true -> str_ltb b c = true -> str_ltb a c = true.
Proof.
  revert b c; induction a as [|x a IH]; intros [|y b] [|z c]; simpl;
    try discriminate; auto.
  destruct (N.ltb_spec x y), (N.ltb_spec y x), (N.ltb_spec y z),
    (N.ltb_spec z y), (N.ltb_spec x z), (N.ltb_spec z x);
    try discriminate; try lia; eauto.
Qed.

Lemma str_ltb_total a b :
  str_ltb a b = false -> str_ltb b a = false -> a = b.
Proof.
  revert b; induction a as [|x a IH]; intros [|y b]; simpl;
    try discriminate; auto.
  destruct (N.ltb_spec x y), (N.ltb_spec y x); try discriminate; try lia.
  intros Ha Hb. assert (x = y) by lia. subst. f_equal. auto.
Qed.

Lemma str_ltb_asym a b : str_ltb a b = true -> str_ltb b a = false.
Proof.
  intros H. destruct (str_ltb b a) eqn:Hb; [|reflexivity].
  pose proof (str_ltb_trans _ _ _ H Hb) as Haa.
  rewrite str_ltb_irrefl in Haa. discriminate.
Qed.

Lemma str_leb_total a b : str_leb a b = true \/ str_leb b a = true.
Proof.
  unfold str_leb. destruct (str_ltb b a) eqn:H; [|auto].
  rewrite (str_ltb_asym _ _ H). auto.
Qed.

Lemma str_leb_trans a b c :
  str_leb a b = true -> str_leb b c = true -> str_leb a c = true.
Proof.
  unfold str_leb. rewrite !negb_true_iff. intros Hba Hcb.
  destruct (str_ltb c a) eqn:Hca; [|reflexivity].
  destruct (str_ltb a b) eqn:Hab.
  - rewrite (str_ltb_trans _ _ _ Hca Hab) in Hcb. discriminate.
  - rewrite <- (str_ltb_total _ _ Hab Hba) in Hcb. congruence.
Qed.

(** A sorted list without repetitions ascends strictly. *)
Lemma sorted_NoDup_strict l :
  StronglySorted (fun a b => str_leb a b = true) l ->
  List.NoDup l ->
  StronglySorted (fun a b => str_ltb a b = true) l.
Proof.
  induction 1 as [|x l Hs IH Hx]; intros Hnd; constructor.
  - apply IH. inversion Hnd; assumption.
  - inversion Hnd as [|? ? Hnin _]; subst.
    rewrite List.Forall_forall in Hx. apply List.Forall_forall.
    intros y Hy. specialize (Hx y Hy). unfold str_leb in Hx.
    apply negb_true_iff in Hx.
    destruct (str_ltb x y) eqn:Hxy; [reflexivity|].
    rewrite (str_ltb_total _ _ Hxy Hx) in Hnin. contradiction.
Qed.

End SortFacts.

(** ** The helpers of the parser *)

Module ParserToolsFacts.
Import JS Regex Parser Record RegexFacts ParserFacts ParserTools SortFacts.

Lemma execAll_In html :
  forall fuel lastIndex ms m,
    execAll fuel html lastIndex = Some ms -> In m ms ->
    exists j, exec pattern html j = Some m.
Proof.
  induction fuel as [|fuel IH]; intros i ms m H Hin; [discriminate|].
  simpl in H. destruct (exec pattern html i) as [m0|] eqn:Hm.
  - destruct (execAll fuel html (m_end m0)) as [ms'|] eqn:Hms; [|discriminate].
    simpl in H; simplify_eq. destruct Hin as [<-|Hin]; eauto.
  - simplify_eq. destruct Hin.
Qed.

(** What holds of the event of every record holds of every event the
    parser returns. *)
Lemma parseResponse_ind (P : ScheduleEvent -> Prop) html :
  (forall j m, exec pattern html j = Some m ->
               P (recordEvent (extractDate html) m)) ->
  forall e, In e (parseResponse html) -> P e.
Proof.
  intros HP e He.
  destruct (execAll_fuel html (S (length html)) 0) as [ms Hms]; [lia|].
  unfold parseResponse, parseResponseFuel in He.
  rewrite (parseLoop_execAll _ _ _ _ _ [] Hms) in He. simpl in He.
  apply in_map_iff in He as (m & <- & Hm).
  apply filter_In in Hm as [Hm _].
  destruct (execAll_In _ _ _ _ _ Hms Hm) as [j Hj]. eauto.
Qed.

(** A group that holds a quantified class holds what the class read. *)
Lemma sem_group_rep i greedy lo hi p pos s c pos' s' c' :
  sem (Grp i (Rep greedy lo hi p)) pos s c pos' s' c' ->
  exists l,
    s = l ++ s' /\ pos' = pos + length l /\ c' = (i, l) :: c
    /\ forallb p l = true /\ lo <= length l.
Proof.
  cbn [sem]. intros (c1 & (l & -> & Hp & Hlo & _ & -> & ->) & ->).
  exists l. replace (pos + length l - pos) with (length l) by lia.
  rewrite take_app_length. auto.
Qed.

Lemma match_room details m :
  match_ details roomPattern = Some m ->
  forallb isDigit (Regex.group 1 m) = true.
Proof.
  intros H. apply exec_sound in H as (s0 & s' & c' & _ & _ & _ & Hsem & Hc).
  unfold roomPattern, opt, star, plus in Hsem.
  destruct Hsem as (p1 & s1 & c1 & (_ & _ & ->)
                    & p2 & s2 & c2 & (l2 & _ & _ & _ & _ & _ & ->)
                    & p3 & s3 & c3 & (l3 & _ & _ & _ & _ & _ & ->)
                    & Hg).
  apply sem_group_rep in Hg as (l & _ & _ & -> & Hl & _).
  unfold Regex.group. rewrite Hc. exact Hl.
Qed.

Lemma match_address details m :
  match_ details addressPattern = Some m ->
  forallb (isNot (chr ")")) (Regex.group 1 m) = true.
Proof.
  intros H. apply exec_sound in H as (s0 & s' & c' & _ & _ & _ & Hsem & Hc).
  unfold addressPattern, plus in Hsem.
  destruct Hsem as (p1 & s1 & c1 & (_ & _ & ->)
                    & p2 & s2 & c2 & Hg & _ & _ & Hc2).
  apply sem_group_rep in Hg as (l & _ & _ & -> & Hl & _).
  unfold Regex.group. rewrite Hc, Hc2. exact Hl.
Qed.

Lemma match_teacher line m :
  match_ line teacherPattern = Some m ->
  forallb (isNot (chr ")")) (Regex.group 1 m) = true.
Proof.
  intros H. apply exec_sound in H as (s0 & s' & c' & _ & _ & _ & Hsem & Hc).
  unfold teacherPattern, star, plus in Hsem.
  destruct Hsem as (p1 & s1 & c1 & (_ & _ & ->)
                    & p2 & s2 & c2 & (l2 & _ & _ & _ & _ & _ & ->)
                    & p3 & s3 & c3 & Hg & _ & _ & Hc3).
  apply sem_group_rep in Hg as (l & _ & _ & -> & Hl & _).
  unfold Regex.group. rewrite Hc, Hc3. exact Hl.
Qed.

(** [trim] keeps what it is given, less some of it. *)
Lemma trimStart_forallb p s :
  forallb p s = true -> forallb p (trimStart s) = true.
Proof.
  induction s as [|x s IH]; simpl; [auto|].
  destruct (isWhiteSpace x); [|auto].
  intros H. apply andb_true_iff in H as [_ H]. auto.
Qed.

Lemma forallb_rev {A} (p : A -> bool) l : forallb p (rev l) = forallb p l.
Proof.
  induction l as [|x l IH]; [reflexivity|]. simpl.
  rewrite forallb_app, IH. simpl. rewrite andb_true_r. apply andb_comm.
Qed.

Lemma trim_forallb p s : forallb p s = true -> forallb p (trim s) = true.
Proof.
  intros H. unfold trim. rewrite forallb_rev.
  apply trimStart_forallb. rewrite forallb_rev.
  apply trimStart_forallb. exact H.
Qed.

Lemma extractTeacher_no_paren line :
  forallb (isNot (chr ")")) (extractTeacher line) = true.
Proof.
  unfold extractTeacher.
  destruct (match_ line teacherPattern) as [m|] eqn:Hm; [|reflexivity].
  apply trim_forallb. eapply match_teacher; eauto.
Qed.

(** The labels [parseDetails] knows. *)
Lemma parseDetails_fields details e :
  let e' := parseDetails details e in
  course_name e' = course_name e /\ teacher e' = teacher e
  /\ start_time e' = start_time e /\ end_time e' = end_time e
  /\ Parser.group e' = Parser.group e
  /\ day e' = day e /\ month e' = month e /\ year e' = year e
  /\ start_date e' = start_date e
  /\ (type e' = type e
      \/ In (type e') [utf16 "Лекция"; utf16 "Практическое занятие";
                       utf16 "Семинар"; utf16 "Лабораторная работа"])
  /\ (room e' = room e \/ forallb isDigit (room e') = true)
  /\ (address e' = address e
      \/ forallb (isNot (chr ")")) (address e') = true).
Proof.
  unfold parseDetails.
  destruct (match_ details roomPattern) as [mr|] eqn:Hr;
    destruct (match_ details addressPattern) as [ma|] eqn:Ha;
    try apply match_room in Hr; try apply match_address in Ha;
    cbv beta iota zeta;
    repeat match goal with
           | |- context [includes details ?label] =>
               destruct (includes details label)
           end;
    cbn [set_type set_room set_address course_name teacher start_time
         end_time Parser.group type room address day month year start_date];
    repeat split; auto;
    right; cbn [In];
    repeat match goal with
           | |- ?a = ?b \/ _ => first [constr_eq a b; left; reflexivity | right]
           end.
Qed.

Lemma recordEvent_fields date m :
  let e := recordEvent date m in
  (day e, month e, year e) = date
  /\ start_time e = Regex.group 3 m
  /\ (start_date e = [] <-> month e = 0%N)
  /\ In (type e) [[]; utf16 "Лекция"; utf16 "Практическое занятие";
                  utf16 "Семинар"; utf16 "Лабораторная работа"]
  /\ forallb isDigit (room e) = true
  /\ forallb (isNot (chr ")")) (address e) = true
  /\ forallb (isNot (chr ")")) (teacher e) = true.
Proof.
  destruct date as [[d mth] y]. unfold recordEvent, buildEvent.
  match goal with
  | |- context [parseDetails ?details ?e0] =>
      pose proof (parseDetails_fields details e0) as H; cbv zeta in H;
      destruct H as (_ & Ht & Hs & _ & _ & Hd & Hm & Hy & Hsd & Hty & Hr & Ha)
  end.
  cbv zeta. rewrite Hd, Hm, Hy, Hs, Hsd, Ht. cbn [day month year start_time
    start_date teacher type room address] in *.
  split; [reflexivity|]. split; [reflexivity|].
  split.
  { destruct (N.eqb_spec mth 0) as [->|Hne]; [tauto|].
    split; [|contradiction].
    destruct (String_of_N d); discriminate. }
  split.
  { destruct Hty as [->|Hty]; [left; reflexivity | right; exact Hty]. }
  split; [destruct Hr as [->|Hr]; auto|].
  split; [destruct Ha as [->|Ha]; auto|].
  apply extractTeacher_no_paren.
Qed.

(** The fields of every event the parser returns. *)
Lemma parseResponse_fields html e :
  In e (parseResponse html) ->
  (day e, month e, year e) = extractDate html
  /\ (exists j m, exec pattern html j = Some m
                  /\ start_time e = Regex.group 3 m)
  /\ (start_date e = [] <-> month e = 0%N)
  /\ In (type e) [[]; utf16 "Лекция"; utf16 "Практическое занятие";
                  utf16 "Семинар"; utf16 "Лабораторная работа"]
  /\ forallb isDigit (room e) = true
  /\ forallb (isNot (chr ")")) (address e) = true
  /\ forallb (isNot (chr ")")) (teacher e) = true.
Proof.
  revert e. apply parseResponse_ind. intros j m Hm.
  destruct (recordEvent_fields (extractDate html) m)
    as (H1 & H2 & H3 & H4 & H5 & H6 & H7).
  repeat split; eauto; apply H3.
Qed.

Lemma filter_all {A} (p : A -> bool) l :
  (forall x, In x l -> p x = true) -> List.filter p l = l.
Proof.
  induction l as [|x l IH]; intros H; [reflexivity|]. simpl.
  rewrite (H x) by (left; reflexivity). f_equal. apply IH.
  intros; apply H; right; assumption.
Qed.

Lemma filter_none {A} (p : A -> bool) l :
  (forall x, In x l -> p x = false) -> List.filter p l = [].
Proof.
  induction l as [|x l IH]; intros H; [reflexivity|]. simpl.
  rewrite (H x) by (left; reflexivity). apply IH.
  intros; apply H; right; assumption.
Qed.

End ParserToolsFacts.

Module ParserToolsSpec.
Import JS Regex Parser Record RegexFacts ParserFacts ParserTools SortFacts
  ParserToolsFacts.

(** X1.  Every event the parser returns is normalised: its type is the
    empty string or one of the four known labels, its room holds decimal
    digits only, and neither its address nor its teacher holds a closing
    parenthesis. *)
Theorem decoded_events_are_normalised (html : jsstring) (e : ScheduleEvent) :
  In e (parseResponse html) ->
  In (type e) [[]; utf16 "Лекция"; utf16 "Практическое занятие";
               utf16 "Семинар"; utf16 "Лабораторная работа"]
  /\ forallb isDigit (room e) = true
  /\ forallb (isNot (chr ")")) (address e) = true
  /\ forallb (isNot (chr ")")) (teacher e) = true.
Proof.
  intros He.
  destruct (parseResponse_fields html e He) as (_ & _ & _ & H).
  exact H.
Qed.

Lemma decoded_events_are_normalised_witness :
  In Fixtures.reversedEvent (parseResponse Fixtures.reversedPayload)
  /\ In (type Fixtures.reversedEvent)
       [[]; utf16 "Лекция"; utf16 "Практическое занятие";
        utf16 "Семинар"; utf16 "Лабораторная работа"]
  /\ forallb isDigit (room Fixtures.reversedEvent) = true.
Proof.
  assert (H : In Fixtures.reversedEvent (parseResponse Fixtures.reversedPayload))
    by (vm_compute; left; reflexivity).
  split; [exact H|].
  destruct (decoded_events_are_normalised _ _ H) as (Ht & Hr & _).
  split; assumption.
Defined.

(** X2.  All the events of one payload carry the date of its
    [visibleDays] marker (zeros without one), and the readable date of an
    event is empty exactly when its month is zero. *)
Theorem batch_shares_date (html : jsstring) (e : ScheduleEvent) :
  In e (parseResponse html) ->
  (day e, month e, year e) = extractDate html
  /\ (start_date e = [] <-> month e = 0%N).
Proof.
  intros He.
  destruct (parseResponse_fields html e He) as (H1 & _ & H2 & _).
  auto.
Qed.

Lemma batch_shares_date_witness :
  In (Fixtures.englishEvent 6 3 2026 (utf16 "6 марта 2026"))
    (parseResponse Fixtures.englishPayload)
  /\ extractDate Fixtures.englishPayload = (6, 3, 2026)%N.
Proof.
  assert (H : In (Fixtures.englishEvent 6 3 2026 (utf16 "6 марта 2026"))
                (parseResponse Fixtures.englishPayload))
    by (vm_compute; left; reflexivity).
  split; [exact H|].
  destruct (batch_shares_date _ _ H) as [Hd _]. rewrite <- Hd. reflexivity.
Defined.

(** X3.  [filterByDate] keeps the events of one payload all together or
    drops them all: it returns the whole list when the day and month asked
    for are those of the payload (and the year, when one is given and is
    not zero), and the empty list otherwise. *)
Theorem filterByDate_batch (html : jsstring) (d m : N) (y : option N) :
  filterByDate (parseResponse html) d m y
  = let '(day0, month0, year0) := extractDate html in
    if (day0 =? d)%N && (month0 =? m)%N
       && match y with
          | Some y => (y =? 0)%N || (year0 =? y)%N
          | None => true
          end
    then parseResponse html
    else [].
Proof.
  destruct (extractDate html) as [[day0 month0] year0] eqn:Hd.
  assert (H : forall e, In e (parseResponse html) ->
                        day e = day0 /\ month e = month0 /\ year e = year0).
  { intros e He. apply parseResponse_fields in He as [He _].
    rewrite Hd in He. injection He; auto. }
  unfold filterByDate.
  match goal with |- _ = (if ?c then _ else _) => destruct c eqn:Hc end;
    [apply filter_all | apply filter_none];
    intros e He; destruct (H e He) as (-> & -> & ->); cbv zeta;
    (destruct y as [y|]; [destruct (y =? 0)%N|]); cbn [orb] in Hc; exact Hc.
Qed.

End ParserToolsSpec.

Module ParserToolsFacts2.
Import JS Regex Parser Record RegexFacts ParserFacts ParserTools SortFacts
  ParserToolsFacts.

Lemma digit_not_colon a : isDigit a = true -> (58 =? a)%N = false.
Proof.
  unfold isDigit. intros H. apply andb_true_iff in H as [_ H].
  apply N.leb_le in H. apply N.eqb_neq. lia.
Qed.

(** The comparator of [sortByTime] reads a time of the shape of two
    digits, a colon and two digits. *)
Lemma timeOf_isTime e :
  isTime (start_time e) = true -> exists t, timeOf e = Some t.
Proof.
  unfold timeOf. destruct (start_time e) as [|a [|b [|c [|d [|f [|]]]]]];
    try discriminate.
  unfold isTime. rewrite !andb_true_iff, N.eqb_eq.
  intros ((((Ha & Hb) & ->) & Hd) & Hf).
  change (utf16 ":") with [58%N].
  cbn [split split_go startsWith length Nat.pred].
  rewrite !(digit_not_colon _ Ha), !(digit_not_colon _ Hb),
    !(digit_not_colon _ Hd), !(digit_not_colon _ Hf).
  cbn [andb N.eqb Pos.eqb split_go rev app map].
  unfold Number_plain. cbn [forallb length Nat.leb]. rewrite Ha, Hb, Hd, Hf.
  cbn [andb]. eauto.
Qed.

Lemma timeBefore_noLater a b : timeBefore a b = true <-> noLater a b.
Proof.
  unfold timeBefore, noLater.
  destruct (N.eqb_spec (fst a) (fst b)); cbn [negb].
  - rewrite N.leb_le. split; [auto | intros [?|[_ ?]]; [lia | assumption]].
  - rewrite N.ltb_lt. split; [auto | intros [?|[? _]]; [assumption | lia]].
Qed.

Lemma eventBefore_total a b :
  eventBefore a b = true \/ eventBefore b a = true.
Proof.
  unfold eventBefore. rewrite !timeBefore_noLater. unfold noLater. lia.
Qed.

Lemma eventBefore_trans a b c :
  eventBefore a b = true -> eventBefore b c = true -> eventBefore a c = true.
Proof.
  unfold eventBefore. rewrite !timeBefore_noLater. unfold noLater. lia.
Qed.

Lemma tied_same_time a b ta tb :
  timeOf a = Some ta -> timeOf b = Some tb ->
  tied eventBefore a b = true <-> ta = tb.
Proof.
  intros Ha Hb. unfold tied, eventBefore. rewrite Ha, Hb. cbn [default from_option].
  rewrite andb_true_iff, !timeBefore_noLater. unfold noLater.
  destruct ta as [h1 m1], tb as [h2 m2]; cbn [fst snd id].
  split; [intros ?; f_equal; lia | intros H; injection H; lia].
Qed.

Lemma StronglySorted_impl {A} (R R' : A -> A -> Prop) l :
  (forall a b, In a l -> In b l -> R a b -> R' a b) ->
  StronglySorted R l -> StronglySorted R' l.
Proof.
  intros H Hs. induction Hs as [|x l Hs IH Hx]; constructor.
  - apply IH. intros a b Ha Hb. apply H; right; assumption.
  - apply List.Forall_forall. intros b Hb.
    apply H; [left; reflexivity | right; assumption |].
    rewrite List.Forall_forall in Hx. auto.
Qed.

(** [setOf] keeps each string once. *)
Lemma existsb_str_eqb x seen :
  existsb (str_eqb x) seen = true <-> In x seen.
Proof.
  rewrite existsb_exists. split.
  - intros (y & Hy & Heq). apply str_eqb_eq in Heq. subst. assumption.
  - intros H. exists x. split; [assumption | apply str_eqb_eq; reflexivity].
Qed.

Lemma setOf_In l :
  forall seen x, In x (setOf seen l) <-> In x l /\ ~ In x seen.
Proof.
  induction l as [|y l IH]; intros seen x; simpl; [tauto|].
  destruct (existsb (str_eqb y) seen) eqn:Hy.
  - apply existsb_str_eqb in Hy. rewrite IH. split.
    + intros [? ?]; auto.
    + intros [[<-|?] ?]; [contradiction | auto].
  - assert (Hn : ~ In y seen).
    { intros H. apply existsb_str_eqb in H. congruence. }
    simpl. rewrite IH. simpl.
    destruct (decide (y = x)) as [->|Hne]; [tauto|].
    split; [intros [?|[? ?]]; [contradiction | tauto] | ].
    intros [[?|?] ?]; [contradiction | right; tauto].
Qed.

Lemma setOf_NoDup l : forall seen, List.NoDup (setOf seen l).
Proof.
  induction l as [|y l IH]; intros seen; simpl; [constructor|].
  destruct (existsb (str_eqb y) seen); [apply IH|].
  constructor; [|apply IH].
  rewrite setOf_In. simpl. tauto.
Qed.

(** The groups of [groupByDate], one key at a time. *)
Lemma groupByDate_fold k events :
  forall grouped : gmap (list N) (list ScheduleEvent),
    fold_left
      (fun (grouped : gmap (list N) (list ScheduleEvent)) event =>
         let key := dateKey event in
         <[key := default [] (grouped !! key) ++ [event]]> grouped)
      events grouped !! k
    = match List.filter (fun e => bool_decide (dateKey e = k)) events with
      | [] => grouped !! k
      | l => Some (default [] (grouped !! k) ++ l)
      end.
Proof.
  induction events as [|e events IH]; intros grouped; [reflexivity|].
  cbn [fold_left List.filter]. rewrite IH. cbv zeta.
  destruct (decide (dateKey e = k)) as [Hk|Hk].
  - rewrite (bool_decide_eq_true_2 _ Hk). subst k.
    rewrite lookup_insert_eq. cbn [default from_option id].
    destruct (List.filter _ events); [reflexivity|].
    rewrite <- app_assoc. reflexivity.
  - rewrite (bool_decide_eq_false_2 _ Hk).
    rewrite lookup_insert_ne by assumption. reflexivity.
Qed.

End ParserToolsFacts2.

Module ParserToolsSpec2.
Import JS Regex Parser Record RegexFacts ParserFacts ParserTools SortFacts
  ParserToolsFacts ParserToolsFacts2.

(** X4.  On events whose start times the comparator reads as hours and
    minutes, [sortByTime] returns the same events, in an order in which no
    event starts later than one after it, and events of one start time
    keep the order they had. *)
Theorem sortByTime_sorts (events : list ScheduleEvent) :
  (forall e, In e events -> exists t, timeOf e = Some t) ->
  exists sorted,
    sortByTime events = Some sorted
    /\ Permutation events sorted
    /\ StronglySorted
         (fun a b => exists ta tb,
                       timeOf a = Some ta /\ timeOf b = Some tb
                       /\ noLater ta tb)
         sorted
    /\ forall t,
         List.filter (fun e => bool_decide (timeOf e = Some t)) sorted
         = List.filter (fun e => bool_decide (timeOf e = Some t)) events.
Proof.
  intros Hall.
  pose proof (sortBy_perm eventBefore events) as Hperm.
  assert (Hall' : forall e, In e (sortBy eventBefore events) ->
                            exists t, timeOf e = Some t).
  { intros e He. apply Hall. eapply Permutation_in; [symmetry|]; eauto. }
  exists (sortBy eventBefore events). split; [|split; [exact Hperm|split]].
  - unfold sortByTime.
    replace (forallb _ events) with true; [reflexivity|].
    symmetry. apply forallb_forall. intros e He.
    destruct (Hall e He) as [t ->]. reflexivity.
  - eapply StronglySorted_impl;
      [|apply (sortBy_sorted eventBefore eventBefore_total eventBefore_trans)].
    intros a b Ha Hb Hab.
    destruct (Hall' a Ha) as [ta Hta], (Hall' b Hb) as [tb Htb].
    exists ta, tb. repeat split; auto.
    unfold eventBefore in Hab. rewrite Hta, Htb in Hab.
    apply timeBefore_noLater. exact Hab.
  - intros t.
    destruct (List.filter (fun e => bool_decide (timeOf e = Some t)) events)
      as [|a rest] eqn:Hf.
    + apply filter_none. intros e He.
      assert (Hin : In e events)
        by (eapply Permutation_in; [symmetry|]; eauto).
      destruct (bool_decide (timeOf e = Some t)) eqn:Hb; [|reflexivity].
      assert (Hin' : In e (List.filter
                             (fun e => bool_decide (timeOf e = Some t)) events))
        by (apply filter_In; auto).
      rewrite Hf in Hin'. destruct Hin'.
    + assert (Ha : In a events /\ timeOf a = Some t).
      { assert (Hin : In a (a :: rest)) by (left; reflexivity).
        rewrite <- Hf in Hin. apply filter_In in Hin as [? Hb].
        apply bool_decide_eq_true in Hb. auto. }
      destruct Ha as [Ha Hta]. rewrite <- Hf.
      assert (Hsame : forall e te,
                 timeOf e = Some te ->
                 bool_decide (timeOf e = Some t) = tied eventBefore a e).
      { intros e te Hte.
        pose proof (tied_same_time a e t te Hta Hte) as Ht.
        destruct (tied eventBefore a e).
        - apply bool_decide_eq_true. rewrite Hte. f_equal. symmetry.
          apply Ht. reflexivity.
        - apply bool_decide_eq_false. rewrite Hte. intros H.
          injection H as ->. destruct Ht as [_ Ht].
          specialize (Ht eq_refl). discriminate. }
      transitivity (List.filter (tied eventBefore a) (sortBy eventBefore events)).
      { apply filter_ext_in. intros e He.
        destruct (Hall' e He) as [te Hte]. eauto. }
      rewrite (sortBy_stable eventBefore eventBefore_total eventBefore_trans).
      apply filter_ext_in. intros e He.
      destruct (Hall e He) as [te Hte]. symmetry. eauto.
Qed.

Lemma sortByTime_sorts_witness :
  (forall e, In e [Fixtures.reversedEvent;
                   Fixtures.englishEvent 0 0 0 []] ->
             exists t, timeOf e = Some t)
  /\ sortByTime [Fixtures.reversedEvent; Fixtures.englishEvent 0 0 0 []]
     = Some [Fixtures.englishEvent 0 0 0 []; Fixtures.reversedEvent].
Proof.
  assert (H : forall e, In e [Fixtures.reversedEvent;
                              Fixtures.englishEvent 0 0 0 []] ->
                        exists t, timeOf e = Some t).
  { intros e [<-|[<-|[]]]; vm_compute; eauto. }
  split; [exact H|].
  destruct (sortByTime_sorts _ H) as (sorted & Hs & _).
  rewrite Hs. vm_compute in Hs. symmetry. exact Hs.
Defined.

(** X5.  The comparator of [sortByTime] reads the start time of every
    event the parser returns, so sorting what the parser returns never
    compares with [NaN]: the result is the same events ordered by start
    time. *)
Theorem sortByTime_after_parse (html : jsstring) :
  exists sorted,
    sortByTime (parseResponse html) = Some sorted
    /\ Permutation (parseResponse html) sorted
    /\ StronglySorted
         (fun a b => exists ta tb,
                       timeOf a = Some ta /\ timeOf b = Some tb
                       /\ noLater ta tb)
         sorted.
Proof.
  assert (Hall : forall e, In e (parseResponse html) ->
                           exists t, timeOf e = Some t).
  { intros e He. apply timeOf_isTime.
    apply parseResponse_fields in He as (_ & (j & m & Hm & ->) & _).
    apply exec_pattern in Hm as (_ & _ & H3 & _). exact H3. }
  pose proof (sortBy_perm eventBefore (parseResponse html)) as Hperm.
  exists (sortBy eventBefore (parseResponse html)).
  split; [|split; [exact Hperm|]].
  - unfold sortByTime.
    replace (forallb _ (parseResponse html)) with true; [reflexivity|].
    symmetry. apply forallb_forall. intros e He.
    destruct (Hall e He) as [t ->]. reflexivity.
  - eapply StronglySorted_impl;
      [|apply (sortBy_sorted eventBefore eventBefore_total eventBefore_trans)].
    intros a b Ha Hb Hab.
    assert (Ha' : In a (parseResponse html))
      by (eapply Permutation_in; [symmetry|]; eauto).
    assert (Hb' : In b (parseResponse html))
      by (eapply Permutation_in; [symmetry|]; eauto).
    destruct (Hall a Ha') as [ta Hta], (Hall b Hb') as [tb Htb].
    exists ta, tb. repeat split; auto.
    unfold eventBefore in Hab. rewrite Hta, Htb in Hab.
    apply timeBefore_noLater. exact Hab.
Qed.

(** X6.  [getUniqueTeachers] returns the teachers of the events that are
    not the empty string, each once, in strictly ascending order of their
    code units. *)
Theorem getUniqueTeachers_sorted_set (events : list ScheduleEvent) :
  StronglySorted (fun a b => str_ltb a b = true) (getUniqueTeachers events)
  /\ forall x,
       In x (getUniqueTeachers events)
       <-> x <> [] /\ exists e, In e events /\ teacher e = x.
Proof.
  unfold getUniqueTeachers.
  set (names := List.filter (fun t => if t is [] then false else true)
                  (map teacher events)).
  pose proof (sortBy_perm str_leb (setOf [] names)) as Hperm.
  split.
  - apply sorted_NoDup_strict.
    + apply (sortBy_sorted str_leb str_leb_total str_leb_trans).
    + eapply Permutation_NoDup; [exact Hperm | apply setOf_NoDup].
  - intros x. split.
    + intros Hx. apply (Permutation_in _ (Permutation_sym Hperm)) in Hx.
      apply setOf_In in Hx as [Hx _]. subst names.
      apply filter_In in Hx as [Hx Hne]. apply in_map_iff in Hx as (e & <- & He).
      split; [destruct (teacher e); [discriminate | discriminate]|eauto].
    + intros (Hne & e & He & <-).
      apply (Permutation_in _ Hperm). apply setOf_In. split; [|auto].
      subst names. apply filter_In. split; [apply in_map; assumption|].
      destruct (teacher e); [contradiction | reflexivity].
Qed.

(** X7.  [groupByDate] files every event under the key of its date:
    under a key lie the events of that date, in the order they had; a
    key no event has is absent. *)
Theorem groupByDate_partitions (events : list ScheduleEvent) (k : jsstring) :
  groupByDate events !! k
  = match List.filter (fun e => bool_decide (dateKey e = k)) events with
    | [] => None
    | l => Some l
    end.
Proof.
  unfold groupByDate. rewrite groupByDate_fold.
  rewrite lookup_empty. reflexivity.
Qed.

(** X8.  Grouping what the parser returns for one payload gives at most
    one group, which holds all the events. *)
Theorem groupByDate_after_parse (html : jsstring) :
  groupByDate (parseResponse html)
  = match parseResponse html with
    | [] => ∅
    | e :: _ => {[ dateKey e := parseResponse html ]}
    end.
Proof.
  apply map_eq. intros k. unfold groupByDate. rewrite groupByDate_fold.
  rewrite lookup_empty. cbn [default from_option app].
  destruct (parseResponse html) as [|e0 rest] eqn:Hp;
    [rewrite lookup_empty; reflexivity|].
  assert (Hkey : forall e, In e (e0 :: rest) -> dateKey e = dateKey e0).
  { intros e He. rewrite <- Hp in He.
    assert (H0 : In e0 (parseResponse html)) by (rewrite Hp; left; reflexivity).
    apply parseResponse_fields in He as (He & _).
    apply parseResponse_fields in H0 as (H0 & _).
    rewrite <- H0 in He. injection He as Hd Hm Hy.
    unfold dateKey. rewrite Hd, Hm, Hy. reflexivity. }
  destruct (decide (dateKey e0 = k)) as [<-|Hk].
  - rewrite lookup_singleton_eq.
    rewrite filter_all; [reflexivity|].
    intros e He. apply bool_decide_eq_true. auto.
  - rewrite lookup_singleton_ne by assumption.
    rewrite filter_none; [reflexivity|].
    intros e He. apply bool_decide_eq_false. rewrite (Hkey e He). assumption.
Qed.

End ParserToolsSpec2.

(** ** The cache as a whole *)

Module CacheAdminFacts.
Import JS Parser Host Cache CacheReadings CacheFacts CacheAdmin ParserTools
  SortFacts ParserToolsFacts2.

Ltac run_admin :=
  cbv [clear clearCloudStorage clearLocalStorage size getCachedDates
       cloudKeys localKeys
       save get remove bind try_catch Date_now read write
       isCloudStorageAvailable cloudStorage
       saveToCloudStorage saveToLocalStorage getFromCloudStorage
       getFromLocalStorage removeFromCloudStorage removeFromLocalStorage
       set_localStorage set_clock set_telegram set_cloudStorage missing
       isValid ret
       found cloudItem localItem cloudSeen localSeen cloudHeld localHeld
       cloudRefuses localRefuses remoteStore stores
       telegram localStorage CloudStorage_ cs_failing cs_items ls_failing
       ls_items clock cachedCredentials network sent opt_ttl initData
       useCloudStorage data ttl timestamp fst snd andb negb].

Lemma startsWith_prefix p s : startsWith p (p ++ s) = true.
Proof.
  induction p as [|x p IH]; [reflexivity|]. simpl.
  rewrite N.eqb_refl. exact IH.
Qed.

Lemma startsWith_split p s :
  startsWith p s = true -> exists rest, s = p ++ rest.
Proof.
  revert s; induction p as [|x p IH]; intros s H; [exists s; reflexivity|].
  destruct s as [|y s]; [discriminate|]. simpl in H.
  apply andb_true_iff in H as [Hx H]. apply N.eqb_eq in Hx. subst y.
  destruct (IH s H) as [rest ->]. exists rest. reflexivity.
Qed.

Lemma removeFirst_prefix p s : removeFirst p (p ++ s) = s.
Proof.
  destruct p as [|x p]; [destruct s; reflexivity|].
  cbn [removeFirst app]. change (x :: p ++ s) with ((x :: p) ++ s).
  rewrite startsWith_prefix. apply drop_app_length.
Qed.

Lemma scheduleKeysOf_In items k :
  In k (scheduleKeysOf items)
  <-> startsWith CACHE_PREFIX k = true /\ is_Some (items !! k).
Proof.
  unfold scheduleKeysOf. rewrite filter_In, in_map_iff. split.
  - intros [([k' v] & <- & Hin) Hp]. split; [exact Hp|].
    apply list_elem_of_In, elem_of_map_to_list in Hin. simpl. eauto.
  - intros [Hp [v Hv]]. split; [|exact Hp].
    exists (k, v). split; [reflexivity|].
    apply list_elem_of_In, elem_of_map_to_list. exact Hv.
Qed.

Lemma scheduleKeysOf_NoDup items : List.NoDup (scheduleKeysOf items).
Proof.
  unfold scheduleKeysOf. apply List.NoDup_filter.
  apply NoDup_ListNoDup, NoDup_fst_map_to_list.
Qed.

Lemma removeItems_lookup (ks : list jsstring)
    (items : gmap (list N) Stored) (k : jsstring) :
  (In k ks -> removeItems ks items !! k = None)
  /\ (~ In k ks -> removeItems ks items !! k = items !! k).
Proof.
  induction ks as [|x ks [IH1 IH2]]; [split; [intros [] | reflexivity]|].
  cbn [removeItems fold_right]. fold (removeItems ks items).
  destruct (decide (x = k)) as [->|Hne].
  - rewrite lookup_delete_eq. split; [reflexivity|].
    intros H. exfalso. apply H. left. reflexivity.
  - rewrite lookup_delete_ne by assumption. split.
    + intros [?|?]; [contradiction | auto].
    + intros H. apply IH2. intros ?. apply H. right. assumption.
Qed.

(** Taking the schedule keys out leaves the other keys, and those
    alone. *)
Lemma cleared_lookup (items : gmap (list N) Stored) k :
  removeItems (scheduleKeysOf items) items !! k
  = if startsWith CACHE_PREFIX k then None else items !! k.
Proof.
  destruct (removeItems_lookup (scheduleKeysOf items) items k) as [H1 H2].
  destruct (startsWith CACHE_PREFIX k) eqn:Hp.
  - destruct (items !! k) as [v|] eqn:Hv.
    + apply H1. apply scheduleKeysOf_In. rewrite Hv. eauto.
    + apply H2.
      rewrite scheduleKeysOf_In, Hv. intros [_ [? ?]]. discriminate.
  - apply H2. rewrite scheduleKeysOf_In. intros [? _]. congruence.
Qed.

Lemma no_schedule_keys (items : gmap (list N) Stored) :
  (forall k, startsWith CACHE_PREFIX k = true -> items !! k = None) ->
  scheduleKeysOf items = [].
Proof.
  intros H. destruct (scheduleKeysOf items) as [|k l] eqn:Hk; [reflexivity|].
  assert (Hin : In k (scheduleKeysOf items)) by (rewrite Hk; left; reflexivity).
  apply scheduleKeysOf_In in Hin as [Hp [v Hv]].
  rewrite (H k Hp) in Hv. discriminate.
Qed.

Lemma schedule_keys_nil_lookup (items : gmap (list N) Stored) k :
  scheduleKeysOf items = [] ->
  items !! k = if startsWith CACHE_PREFIX k then None else items !! k.
Proof.
  intros H. destruct (startsWith CACHE_PREFIX k) eqn:Hp; [|reflexivity].
  destruct (items !! k) as [v|] eqn:Hv; [|reflexivity].
  assert (Hin : In k (scheduleKeysOf items))
    by (apply scheduleKeysOf_In; rewrite Hv; eauto).
  rewrite H in Hin. destruct Hin.
Qed.

(** The remote half of [clear]: the store is left as it is when it
    refuses the listing or the removal, and is without its schedule
    keys otherwise. *)
Lemma clearCloudStorage_spec w :
  (forall key,
     cloudHeld (snd (clearCloudStorage w)) key
     = if cloudRefuses GetKeys w || cloudRefuses RemoveItems w
       then cloudHeld w key
       else if startsWith CACHE_PREFIX key then None else cloudHeld w key)
  /\ localStorage (snd (clearCloudStorage w)) = localStorage w
  /\ clock (snd (clearCloudStorage w)) = clock w
  /\ sent (snd (clearCloudStorage w)) = sent w
  /\ cachedCredentials (snd (clearCloudStorage w)) = cachedCredentials w
  /\ (forall call,
        cloudRefuses call (snd (clearCloudStorage w)) = cloudRefuses call w).
Proof.
  split_world w; run_admin.
  - destruct (cfail GetKeys); [repeat split; reflexivity|].
    destruct (scheduleKeysOf citems) as [|k0 ks] eqn:Hk.
    + cbn [orb]. repeat split; try reflexivity. intros key.
      destruct (cfail RemoveItems); [reflexivity|].
      apply schedule_keys_nil_lookup. exact Hk.
    + destruct (cfail RemoveItems); cbn [orb]; repeat split; try reflexivity.
      intros key. cbv [fst snd]. rewrite <- Hk. apply cleared_lookup.
  - cbn [orb]. repeat split; try reflexivity.
    intros key. destruct (startsWith CACHE_PREFIX key); reflexivity.
  - cbn [orb]. repeat split; try reflexivity.
    intros key. destruct (startsWith CACHE_PREFIX key); reflexivity.
Qed.

(** The local half of [clear]. *)
Lemma clearLocalStorage_spec w :
  fst (clearLocalStorage w) = Ok tt
  /\ (forall key,
        localHeld (snd (clearLocalStorage w)) key
        = if localRefuses GetKeys w || localRefuses RemoveItem w
          then localHeld w key
          else if startsWith CACHE_PREFIX key then None else localHeld w key)
  /\ telegram (snd (clearLocalStorage w)) = telegram w
  /\ clock (snd (clearLocalStorage w)) = clock w
  /\ sent (snd (clearLocalStorage w)) = sent w
  /\ cachedCredentials (snd (clearLocalStorage w)) = cachedCredentials w
  /\ (forall call,
        localRefuses call (snd (clearLocalStorage w)) = localRefuses call w).
Proof.
  destruct w as [clk tg [litems lfail] cc net snt]. run_admin.
  destruct (lfail GetKeys); [repeat split; reflexivity|].
  destruct (scheduleKeysOf litems) as [|k0 ks] eqn:Hk.
  - cbn [orb]. repeat split; try reflexivity. intros key.
    destruct (lfail RemoveItem); [reflexivity|].
    apply schedule_keys_nil_lookup. exact Hk.
  - destruct (lfail RemoveItem); cbn [orb]; repeat split; try reflexivity.
    intros key. cbv [fst snd]. rewrite <- Hk. apply cleared_lookup.
Qed.

(** What [clear] leaves in the stores. *)
Lemma clear_spec w :
  fst (clear w) = Ok tt
  /\ (forall key,
        cloudHeld (snd (clear w)) key
        = if cloudRefuses GetKeys w || cloudRefuses RemoveItems w
          then cloudHeld w key
          else if startsWith CACHE_PREFIX key then None else cloudHeld w key)
  /\ (forall key,
        localHeld (snd (clear w)) key
        = if localRefuses GetKeys w || localRefuses RemoveItem w
          then localHeld w key
          else if startsWith CACHE_PREFIX key then None else localHeld w key)
  /\ clock (snd (clear w)) = clock w
  /\ sent (snd (clear w)) = sent w
  /\ cachedCredentials (snd (clear w)) = cachedCredentials w
  /\ (forall call,
        cloudRefuses call (snd (clear w)) = cloudRefuses call w
        /\ localRefuses call (snd (clear w)) = localRefuses call w).
Proof.
  assert (Hrun : exists w1,
             clear w = clearLocalStorage w1
             /\ (w1 = snd (clearCloudStorage w)
                 \/ (w1 = w /\ cloudStorage w = None))).
  { unfold clear, bind, isCloudStorageAvailable, read, try_catch, ret.
    destruct (cloudStorage w) as [c|] eqn:Hc.
    - exists (snd (clearCloudStorage w)). split; [|left; reflexivity].
      destruct (clearCloudStorage w) as [[[]|e] w1]; reflexivity.
    - exists w. split; [reflexivity | right; split; reflexivity]. }
  destruct Hrun as (w1 & -> & Hw1).
  destruct (clearLocalStorage_spec w1) as (Hok & Hl & Ht & Hk & Hs & Hm & Hf).
  assert (Hcloud : forall key,
             cloudHeld (snd (clearLocalStorage w1)) key = cloudHeld w1 key).
  { intros key. unfold cloudHeld, remoteStore. rewrite Ht. reflexivity. }
  assert (Hcf : forall call,
             cloudRefuses call (snd (clearLocalStorage w1))
             = cloudRefuses call w1).
  { intros call. unfold cloudRefuses, remoteStore. rewrite Ht. reflexivity. }
  split; [exact Hok|].
  destruct Hw1 as [->|[-> Hnone]].
  - destruct (clearCloudStorage_spec w) as (Hc & Hl' & Hk' & Hs' & Hm' & Hf').
    split; [intros key; rewrite Hcloud; apply Hc|].
    split.
    { intros key. rewrite Hl. unfold localHeld, localRefuses.
      rewrite Hl'. reflexivity. }
    split; [congruence|]. split; [congruence|]. split; [congruence|].
    intros call. split; [rewrite Hcf; apply Hf'|].
    rewrite Hf. unfold localRefuses. rewrite Hl'. reflexivity.
  - split.
    { intros key. rewrite Hcloud. unfold cloudHeld, cloudRefuses.
      change (remoteStore w) with (cloudStorage w).
      rewrite Hnone. destruct (startsWith CACHE_PREFIX key); reflexivity. }
    split; [exact Hl|].
    split; [exact Hk|]. split; [exact Hs|]. split; [exact Hm|].
    intros call. split; [apply Hcf | apply Hf].
Qed.

(** *** Keys and dates *)

Lemma getCacheKey_prefix date :
  startsWith CACHE_PREFIX (getCacheKey date) = true.
Proof. apply startsWith_prefix. Qed.

Lemma getCacheKey_inj a b : getCacheKey a = getCacheKey b -> a = b.
Proof. unfold getCacheKey. intros H. exact (app_inv_head _ _ _ H). Qed.

Lemma removeFirst_getCacheKey date :
  removeFirst CACHE_PREFIX (getCacheKey date) = date.
Proof. apply removeFirst_prefix. Qed.

Lemma nil_of_no_elements {A} (l : list A) : (forall x, ~ In x l) -> l = [].
Proof.
  destruct l as [|x l]; [reflexivity|].
  intros H. destruct (H x). left. reflexivity.
Qed.

Lemma cloudKeys_In w key :
  In key (cloudKeys w)
  <-> startsWith CACHE_PREFIX key = true
      /\ is_Some (cloudSeen GetKeys w key).
Proof.
  unfold cloudKeys, cloudSeen.
  change (remoteStore w) with (cloudStorage w).
  destruct (cloudStorage w) as [c|]; [destruct (cs_failing c GetKeys)|];
    try apply scheduleKeysOf_In;
    (split; [intros [] | intros [_ [? ?]]; discriminate]).
Qed.

Lemma localKeys_In w key :
  In key (localKeys w)
  <-> startsWith CACHE_PREFIX key = true
      /\ is_Some (localSeen GetKeys w key).
Proof.
  unfold localKeys, localSeen.
  destruct (ls_failing (localStorage w) GetKeys);
    try apply scheduleKeysOf_In;
    (split; [intros [] | intros [_ [? ?]]; discriminate]).
Qed.

Lemma cloudKeys_NoDup w : List.NoDup (cloudKeys w).
Proof.
  unfold cloudKeys.
  destruct (cloudStorage w) as [c|]; [destruct (cs_failing c GetKeys)|];
    try apply scheduleKeysOf_NoDup; constructor.
Qed.

Lemma localKeys_NoDup w : List.NoDup (localKeys w).
Proof.
  unfold localKeys.
  destruct (ls_failing (localStorage w) GetKeys);
    try apply scheduleKeysOf_NoDup; constructor.
Qed.

(** The dates read off a list of schedule keys. *)
Lemma dates_In (ks : list jsstring) d :
  (forall key, In key ks -> startsWith CACHE_PREFIX key = true) ->
  In d (map (removeFirst CACHE_PREFIX) ks) <-> In (getCacheKey d) ks.
Proof.
  intros Hp. rewrite in_map_iff. split.
  - intros (key & <- & Hin).
    destruct (startsWith_split _ _ (Hp key Hin)) as [rest ->].
    rewrite removeFirst_prefix. exact Hin.
  - intros Hin. exists (getCacheKey d).
    split; [apply removeFirst_getCacheKey | exact Hin].
Qed.

(** The dates [getCachedDates] collects before it sorts them. *)
Lemma collected_In w d :
  In d (map (removeFirst CACHE_PREFIX) (cloudKeys w ++ localKeys w))
  <-> is_Some (cloudSeen GetKeys w (getCacheKey d))
      \/ is_Some (localSeen GetKeys w (getCacheKey d)).
Proof.
  rewrite dates_In.
  - rewrite in_app_iff, cloudKeys_In, localKeys_In, getCacheKey_prefix.
    tauto.
  - intros key Hin. apply in_app_iff in Hin as [Hin|Hin];
      [apply cloudKeys_In in Hin | apply localKeys_In in Hin]; tauto.
Qed.

Lemma setOf_incl l seen x : In x (setOf seen l) -> In x l.
Proof. rewrite setOf_In. tauto. Qed.

Lemma setOf_length l : forall seen, length (setOf seen l) <= length l.
Proof.
  induction l as [|y l IH]; intros seen; simpl; [lia|].
  destruct (existsb (str_eqb y) seen); [specialize (IH seen) |
                                        specialize (IH (y :: seen))];
    simpl; lia.
Qed.

(** A list with a repetition loses an element in [setOf]. *)
Lemma setOf_length_lt l :
  ~ List.NoDup l -> length (setOf [] l) < length l.
Proof.
  intros Hdup.
  destruct (Nat.lt_ge_cases (length (setOf [] l)) (length l)) as [?|Hge];
    [assumption|].
  exfalso. apply Hdup.
  apply (List.NoDup_incl_NoDup (l := setOf [] l)).
  - apply setOf_NoDup.
  - exact Hge.
  - intros x Hx. eapply setOf_incl. exact Hx.
Qed.

(** What [getCachedDates] returns. *)
Lemma getCachedDates_spec (w : World) :
  exists dates,
    getCachedDates w = (Ok dates, w)
    /\ StronglySorted (fun a b => str_ltb a b = true) dates
    /\ forall d,
         In d dates
         <-> is_Some (cloudSeen GetKeys w (getCacheKey d))
             \/ is_Some (localSeen GetKeys w (getCacheKey d)).
Proof.
  eexists. split; [reflexivity|].
  set (collected := map (removeFirst CACHE_PREFIX) (cloudKeys w ++ localKeys w)).
  pose proof (sortBy_perm str_leb (setOf [] collected)) as Hperm.
  split.
  - apply sorted_NoDup_strict.
    + apply (sortBy_sorted str_leb str_leb_total str_leb_trans).
    + eapply Permutation_NoDup; [exact Hperm | apply setOf_NoDup].
  - intros d. rewrite <- collected_In. fold collected. split.
    + intros Hd. apply (Permutation_in _ (Permutation_sym Hperm)) in Hd.
      eapply setOf_incl. exact Hd.
    + intros Hd. apply (Permutation_in _ Hperm). apply setOf_In.
      split; [exact Hd | intros []].
Qed.

(** What [save] writes is listed by the store that takes it. *)
Lemma save_listed date events options w :
  cloudWanted options = true ->
  shows GetKeys w ->
  is_Some (cloudSeen GetKeys (snd (save date events options w))
             (getCacheKey date))
  \/ is_Some (localSeen GetKeys (snd (save date events options w))
                (getCacheKey date)).
Proof.
  intros Hc Hs.
  split_world w; run_cache_in Hs; run_cache; rewrite ?Hc; cbv iota beta.
  - destruct (cfail SetItem) eqn:Hset; cbv iota beta.
    + destruct Hs as [Hl1 Hl2]. rewrite Hl1. cbv iota beta. rewrite Hl2.
      right. rewrite lookup_insert_eq. eauto.
    + rewrite Hs. left. rewrite lookup_insert_eq. eauto.
  - destruct Hs as [Hl1 Hl2]. rewrite Hl1. cbv iota beta. rewrite Hl2.
    right. rewrite lookup_insert_eq. eauto.
  - destruct Hs as [Hl1 Hl2]. rewrite Hl1. cbv iota beta. rewrite Hl2.
    right. rewrite lookup_insert_eq. eauto.
Qed.

(** After a [clear] that neither store refuses, no schedule key is left
    in either. *)
Lemma cleared_keys w key :
  clears w ->
  startsWith CACHE_PREFIX key = true ->
  cloudHeld (snd (clear w)) key = None /\ localHeld (snd (clear w)) key = None.
Proof.
  intros (H1 & H2 & H3 & H4) Hp.
  destruct (clear_spec w) as (_ & Hc & Hl & _).
  rewrite Hc, Hl, H1, H2, H3, H4, Hp. split; reflexivity.
Qed.

Lemma seen_cleared call w key now' :
  clears w ->
  startsWith CACHE_PREFIX key = true ->
  cloudSeen call (set_clock now' (snd (clear w))) key = None
  /\ localSeen call (set_clock now' (snd (clear w))) key = None.
Proof.
  intros Hcl Hp. destruct (cleared_keys w key Hcl Hp) as [Hc Hl].
  rewrite cloudSeen_held, localSeen_held.
  change (cloudHeld (set_clock now' (snd (clear w))) key)
    with (cloudHeld (snd (clear w)) key).
  change (localHeld (set_clock now' (snd (clear w))) key)
    with (localHeld (snd (clear w)) key).
  rewrite Hc, Hl.
  split; match goal with |- (if ?b then _ else _) = _ => destruct b end;
    reflexivity.
Qed.

Lemma get_after_clear w date now' :
  clears w ->
  get date (set_clock now' (snd (clear w)))
  = (Ok None, set_clock now' (snd (clear w))).
Proof.
  intros Hcl.
  destruct (seen_cleared GetItem w (getCacheKey date) now' Hcl
              (getCacheKey_prefix date)) as [Hc Hl].
  rewrite get_spec, found_None; [reflexivity | exact Hc | exact Hl].
Qed.

(** [get] finds the same text where the stores hold the same under the
    key and refuse the same calls. *)
Lemma found_same_held w w' key :
  cloudHeld w' key = cloudHeld w key ->
  localHeld w' key = localHeld w key ->
  (forall call,
     cloudRefuses call w' = cloudRefuses call w
     /\ localRefuses call w' = localRefuses call w) ->
  found w' key = found w key.
Proof.
  intros Hc Hl Hf. destruct (Hf GetItem) as [Hfc Hfl].
  apply found_same_items; unfold cloudItem, localItem;
    rewrite ?cloudSeen_held, ?localSeen_held, ?Hfc, ?Hfl, ?Hc, ?Hl;
    reflexivity.
Qed.

End CacheAdminFacts.

Module CacheAdminSpec.
Import JS Parser Host Cache CacheReadings CacheFacts CacheAdmin ParserTools
  SortFacts ParserToolsFacts2 CacheAdminFacts.

(** X9.  [clear] does not throw.  A store that refuses neither the
    listing of its keys nor their removal is left without any key that
    starts with the prefix of the cache, and with every other key as it
    was; a store that refuses the listing or the removal is left as it
    was.  The clock, the requests sent, the credentials in memory and
    what the stores refuse are as before. *)
Theorem clear_removes_schedule_keys (w : World) :
  fst (clear w) = Ok tt
  /\ (forall key,
        cloudHeld (snd (clear w)) key
        = if cloudRefuses GetKeys w || cloudRefuses RemoveItems w
          then cloudHeld w key
          else if startsWith CACHE_PREFIX key then None else cloudHeld w key)
  /\ (forall key,
        localHeld (snd (clear w)) key
        = if localRefuses GetKeys w || localRefuses RemoveItem w
          then localHeld w key
          else if startsWith CACHE_PREFIX key then None else localHeld w key)
  /\ clock (snd (clear w)) = clock w
  /\ sent (snd (clear w)) = sent w
  /\ cachedCredentials (snd (clear w)) = cachedCredentials w
  /\ (forall call,
        cloudRefuses call (snd (clear w)) = cloudRefuses call w
        /\ localRefuses call (snd (clear w)) = localRefuses call w).
Proof. exact (clear_spec w). Qed.

(** X10.  After a [clear] that neither store refuses, at any later
    time, [get] returns [null] for every date and changes nothing,
    [size] returns 0 and [getCachedDates] returns the empty list. *)
Theorem cache_is_empty_after_clear (w : World) (date : jsstring) (now' : Z) :
  clears w ->
  let w' := set_clock now' (snd (clear w)) in
  get date w' = (Ok None, w')
  /\ size w' = (Ok 0, w')
  /\ getCachedDates w' = (Ok [], w').
Proof.
  intros Hcl. cbv zeta.
  assert (Hck : cloudKeys (set_clock now' (snd (clear w))) = []).
  { apply nil_of_no_elements. intros key Hin.
    apply cloudKeys_In in Hin as [Hp [v Hv]].
    destruct (seen_cleared GetKeys w key now' Hcl Hp) as [Hc _].
    rewrite Hc in Hv. discriminate. }
  assert (Hlk : localKeys (set_clock now' (snd (clear w))) = []).
  { apply nil_of_no_elements. intros key Hin.
    apply localKeys_In in Hin as [Hp [v Hv]].
    destruct (seen_cleared GetKeys w key now' Hcl Hp) as [_ Hl].
    rewrite Hl in Hv. discriminate. }
  split; [|split].
  - apply get_after_clear. exact Hcl.
  - unfold size, read. rewrite Hck, Hlk. reflexivity.
  - unfold getCachedDates, read. rewrite Hck, Hlk. reflexivity.
Qed.

(** The theorem above where both stores hold the entry of 6 March: two
    keys are counted before the [clear], none after it. *)
Lemma cache_is_empty_after_clear_witness :
  clears Fixtures.afterASecond
  /\ fst (size Fixtures.afterASecond) = Ok 2
  /\ fst (size (set_clock 2000 (snd (clear Fixtures.afterASecond)))) = Ok 0
  /\ fst (getCachedDates (set_clock 2000 (snd (clear Fixtures.afterASecond))))
     = Ok []
  /\ fst (get (utf16 "2026-03-06")
            (set_clock 2000 (snd (clear Fixtures.afterASecond))))
     = Ok None.
Proof.
  assert (H : clears Fixtures.afterASecond)
    by (repeat split; vm_compute; reflexivity).
  split; [exact H|]. split; [vm_compute; reflexivity|].
  destruct (cache_is_empty_after_clear Fixtures.afterASecond
              (utf16 "2026-03-06") 2000 H) as (Hg & Hs & Hd).
  rewrite Hg, Hs, Hd. repeat split; reflexivity.
Defined.

(** X11.  [getCachedDates] does not throw and changes nothing.  It
    returns, in strictly ascending order of their code units, the dates
    [d] for which the listing of the keys finds the key of [d] in the
    remote store or in the local one. *)
Theorem getCachedDates_sorted_set (w : World) :
  exists dates,
    getCachedDates w = (Ok dates, w)
    /\ StronglySorted (fun a b => str_ltb a b = true) dates
    /\ forall d,
         In d dates
         <-> is_Some (cloudSeen GetKeys w (getCacheKey d))
             \/ is_Some (localSeen GetKeys w (getCacheKey d)).
Proof. exact (getCachedDates_spec w). Qed.

(** X12.  [size] counts the schedule keys of the remote store and those
    of the local store: it is at least the number of dates
    [getCachedDates] returns, and greater when a date has a key in both
    stores. *)
Theorem size_counts_both_stores (w : World) :
  exists dates n,
    getCachedDates w = (Ok dates, w)
    /\ size w = (Ok n, w)
    /\ length dates <= n
    /\ forall d,
         is_Some (cloudSeen GetKeys w (getCacheKey d)) ->
         is_Some (localSeen GetKeys w (getCacheKey d)) ->
         length dates < n.
Proof.
  do 2 eexists. split; [reflexivity|]. split; [reflexivity|].
  set (collected := map (removeFirst CACHE_PREFIX) (cloudKeys w ++ localKeys w)).
  pose proof (sortBy_perm str_leb (setOf [] collected)) as Hperm.
  rewrite <- (Permutation_length Hperm).
  assert (Hlen : length collected = length (cloudKeys w) + length (localKeys w)).
  { subst collected. rewrite length_map, length_app. reflexivity. }
  rewrite <- Hlen. split; [apply setOf_length|].
  intros d Hc Hl. apply setOf_length_lt. intros Hnd.
  subst collected. rewrite map_app in Hnd.
  apply NoDup_ListNoDup, NoDup_app in Hnd as (_ & Hdisj & _).
  apply (Hdisj d); apply list_elem_of_In; apply dates_In.
  - intros key Hin. apply cloudKeys_In in Hin. tauto.
  - apply cloudKeys_In. split; [apply getCacheKey_prefix | exact Hc].
  - intros key Hin. apply localKeys_In in Hin. tauto.
  - apply localKeys_In. split; [apply getCacheKey_prefix | exact Hl].
Qed.

(** X13.  After a [save] that may use the remote store, in a world
    where the store that takes the write answers the listing of its
    keys, the saved date is among the dates [getCachedDates] returns. *)
Theorem saved_date_is_listed (w : World) (date : jsstring)
    (events : list ScheduleEvent) (options : option CacheOptions) :
  cloudWanted options = true ->
  shows GetKeys w ->
  exists dates,
    getCachedDates (snd (save date events options w))
    = (Ok dates, snd (save date events options w))
    /\ In date dates.
Proof.
  intros Hc Hs.
  destruct (getCachedDates_spec (snd (save date events options w)))
    as (dates & Hd & _ & Hin).
  exists dates. split; [exact Hd|].
  apply Hin. apply save_listed; assumption.
Qed.

(** The theorem above where the remote store refuses the write and the
    local store takes it. *)
Lemma saved_date_is_listed_witness :
  cloudWanted None = true
  /\ shows GetKeys
       (Fixtures.worldWithFailures 0 ∅ ∅ Fixtures.refusingWrites answering)
  /\ exists dates,
       fst (getCachedDates
              (snd (save (utf16 "2026-03-06") (data Fixtures.staleItem) None
                      (Fixtures.worldWithFailures 0 ∅ ∅
                         Fixtures.refusingWrites answering))))
       = Ok dates
       /\ In (utf16 "2026-03-06") dates.
Proof.
  assert (H1 : cloudWanted None = true) by reflexivity.
  assert (H2 : shows GetKeys
                 (Fixtures.worldWithFailures 0 ∅ ∅ Fixtures.refusingWrites
                    answering))
    by (split; reflexivity).
  split; [exact H1|]. split; [exact H2|].
  destruct (saved_date_is_listed
              (Fixtures.worldWithFailures 0 ∅ ∅ Fixtures.refusingWrites
                 answering)
              (utf16 "2026-03-06") (data Fixtures.staleItem) None H1 H2)
    as (dates & Hd & Hin).
  exists dates. rewrite Hd. split; [reflexivity | exact Hin].
Defined.

(** X14.  [remove] does not throw, and [get] answers for every other
    date as it did before.  Where neither store refuses the removal,
    [get] then returns [null] for the removed date at any time, and the
    date is not among those [getCachedDates] returns. *)
Theorem remove_forgets_one_date (w : World) (date : jsstring) :
  let w' := snd (remove date w) in
  fst (remove date w) = Ok tt
  /\ (forall other, other <> date -> fst (get other w') = fst (get other w))
  /\ (removes w ->
      (forall now', get date (set_clock now' w') = (Ok None, set_clock now' w'))
      /\ exists dates, getCachedDates w' = (Ok dates, w') /\ ~ In date dates).
Proof.
  cbv zeta.
  destruct (remove_spec date w) as (Hc & Hl & Hother & Hclock & _).
  split; [apply remove_ok|]. split.
  - intros other Hne. apply get_fst_same; [|exact Hclock].
    assert (Hk : getCacheKey other <> getCacheKey date)
      by (intros H; apply Hne, getCacheKey_inj, H).
    destruct (Hother _ Hk) as [H1 H2].
    pose proof (remove_spec date w) as (_ & _ & _ & _ & _ & _ & Hf).
    apply found_same_held; assumption.
  - intros [Hrc Hrl]. rewrite Hrc in Hc. rewrite Hrl in Hl. split.
    + intros now'. rewrite get_spec, found_set_clock.
      rewrite (remove_found date w (conj Hrc Hrl)). reflexivity.
    + destruct (getCachedDates_spec (snd (remove date w)))
        as (dates & Hd & _ & Hin).
      exists dates. split; [exact Hd|].
      rewrite Hin, cloudSeen_held, localSeen_held, Hc, Hl.
      intros [[? H]|[? H]];
        match type of H with
        | (if ?b then _ else _) = _ => destruct b; discriminate H
        end.
Qed.

(** The theorem above where both stores hold the entry of 6 March. *)
Lemma remove_forgets_one_date_witness :
  removes Fixtures.afterASecond
  /\ fst (getCachedDates Fixtures.afterASecond) = Ok [utf16 "2026-03-06"]
  /\ fst (getCachedDates
            (snd (remove (utf16 "2026-03-06") Fixtures.afterASecond)))
     = Ok []
  /\ fst (get (utf16 "2026-03-06")
            (set_clock 500
               (snd (remove (utf16 "2026-03-06") Fixtures.afterASecond))))
     = Ok None.
Proof.
  assert (H : removes Fixtures.afterASecond) by (split; reflexivity).
  split; [exact H|]. split; [vm_compute; reflexivity|].
  split; [vm_compute; reflexivity|].
  destruct (remove_forgets_one_date Fixtures.afterASecond (utf16 "2026-03-06"))
    as (_ & _ & Hrm).
  destruct (Hrm H) as [Hget _].
  rewrite Hget. reflexivity.
Defined.

(** X15.  [save] for one date leaves the answer of [get] for every
    other date as it was. *)
Theorem save_keeps_other_dates (w : World) (date other : jsstring)
    (events : list ScheduleEvent) (options : option CacheOptions) :
  other <> date ->
  fst (get other (snd (save date events options w))) = fst (get other w).
Proof.
  intros Hne.
  assert (Hk : getCacheKey other <> getCacheKey date)
    by (intros H; apply Hne, getCacheKey_inj, H).
  destruct (save_other_keys date events options w _ Hk) as [H1 H2].
  destruct (save_frame date events options w) as (Hclock & _ & _ & Hf).
  apply get_fst_same; [|exact Hclock].
  apply found_same_held; assumption.
Qed.

(** The theorem above where the local store holds the entry of 6 March:
    a save for 7 March leaves it readable. *)
Lemma save_keeps_other_dates_witness :
  utf16 "2026-03-06" <> utf16 "2026-03-07"
  /\ fst (get (utf16 "2026-03-06")
            (snd (save (utf16 "2026-03-07") [] None
                    (Fixtures.worldWithStores 500 ∅
                       {[ getCacheKey (utf16 "2026-03-06")
                          := JSON_stringify Fixtures.staleItem ]}))))
     = Ok (Some (data Fixtures.staleItem)).
Proof.
  assert (H : utf16 "2026-03-06" <> utf16 "2026-03-07")
    by (intros H; vm_compute in H; discriminate H).
  split; [exact H|].
  rewrite (save_keeps_other_dates _ _ _ [] None H).
  vm_compute. reflexivity.
Defined.

(** X16.  What [save] writes, in a world where what it writes under the
    key is what [get] reads there, is read back by [get] exactly while
    the entry is within the time to live in force, [options?.ttl ||
    DEFAULT_TTL]: while less than that time has passed since the save,
    or at any time when that time is not a finite number, [get] returns
    the saved list, and from then on [null].  The numbers of the events
    are safe integers. *)
Theorem saved_entry_lifetime (w : World) (date : jsstring)
    (events : list ScheduleEvent) (options : option CacheOptions) (now' : Z) :
  cloudWanted options = true ->
  plain events ->
  readsBack w (getCacheKey date) ->
  fst (get date (set_clock now' (snd (save date events options w))))
  = Ok (if within (now' - clock w) (effectiveTtl options) then Some events
        else None).
Proof.
  intros Hc _ Hr. rewrite (save_get_lifetime _ _ _ _ _ Hc Hr).
  destruct (within _ _); reflexivity.
Qed.

(** The theorem above at the very end of the second an entry was to
    live. *)
Lemma saved_entry_lifetime_witness :
  cloudWanted (Some (mkCacheOptions (Some (Int 1000)) None)) = true
  /\ plain (data Fixtures.staleItem)
  /\ readsBack (Fixtures.worldWithStores 0 ∅ ∅)
       (getCacheKey (utf16 "2026-03-06"))
  /\ fst (get (utf16 "2026-03-06")
            (set_clock 1000
               (snd (save (utf16 "2026-03-06") (data Fixtures.staleItem)
                       (Some (mkCacheOptions (Some (Int 1000)) None))
                       (Fixtures.worldWithStores 0 ∅ ∅)))))
     = Ok None.
Proof.
  assert (H1 : cloudWanted (Some (mkCacheOptions (Some (Int 1000)) None))
               = true) by reflexivity.
  assert (H2 : readsBack (Fixtures.worldWithStores 0 ∅ ∅)
                 (getCacheKey (utf16 "2026-03-06")))
    by (split; [reflexivity | intros H; discriminate H]).
  assert (Hp : plain (data Fixtures.staleItem)) by (vm_compute; reflexivity).
  split; [exact H1|]. split; [exact Hp|]. split; [exact H2|].
  rewrite (saved_entry_lifetime _ _ _ _ 1000 H1 Hp H2). reflexivity.
Defined.

(** X17.  In a world where what [save] writes under the key is what
    [get] reads there, and for events whose numbers are safe integers:
    an entry saved without a time to live, or with a
    time to live of 0 or [NaN], lives for twenty-four hours, [get]
    returning it while less than 86400000 milliseconds have passed since
    the save and [null] from then on; an entry saved with an infinite
    time to live is returned at any time. *)
Theorem entry_without_ttl_lives_a_day (w : World) (date : jsstring)
    (events : list ScheduleEvent) (t : option number) (now' : Z) :
  plain events ->
  readsBack w (getCacheKey date) ->
  (t = None \/ t = Some (Int 0) \/ t = Some NaN ->
   fst (get date
          (set_clock now'
             (snd (save date events (Some (mkCacheOptions t (Some true))) w))))
   = Ok (if (now' - clock w <? 86400000)%Z then Some events else None))
  /\ (t = Some Infinity \/ t = Some NegInfinity ->
      fst (get date
             (set_clock now'
                (snd (save date events (Some (mkCacheOptions t (Some true)))
                        w))))
      = Ok (Some events)).
Proof.
  intros _ Hr.
  rewrite (save_get_lifetime date events
             (Some (mkCacheOptions t (Some true))) now' w eq_refl Hr).
  split.
  - intros [->|[->| ->]]; cbn [effectiveTtl opt_ttl truthy Z.eqb negb];
      unfold within, JSON_number, DEFAULT_TTL, truthy, lessThan;
      cbn [Z.eqb orb negb Z.mul];
      destruct (now' - clock w <? _)%Z; reflexivity.
  - intros [->| ->]; reflexivity.
Qed.

(** The theorem above with a time to live of 0, a millisecond before
    the day is over, and with an infinite one, a year later. *)
Lemma entry_without_ttl_lives_a_day_witness :
  plain (data Fixtures.staleItem)
  /\ readsBack (Fixtures.worldWithStores 0 ∅ ∅)
       (getCacheKey (utf16 "2026-03-06"))
  /\ fst (get (utf16 "2026-03-06")
            (set_clock 86399999
               (snd (save (utf16 "2026-03-06") (data Fixtures.staleItem)
                       (Some (mkCacheOptions (Some (Int 0)) (Some true)))
                       (Fixtures.worldWithStores 0 ∅ ∅)))))
     = Ok (Some (data Fixtures.staleItem))
  /\ fst (get (utf16 "2026-03-06")
            (set_clock 31536000000
               (snd (save (utf16 "2026-03-06") (data Fixtures.staleItem)
                       (Some (mkCacheOptions (Some Infinity) (Some true)))
                       (Fixtures.worldWithStores 0 ∅ ∅)))))
     = Ok (Some (data Fixtures.staleItem)).
Proof.
  assert (H : readsBack (Fixtures.worldWithStores 0 ∅ ∅)
                (getCacheKey (utf16 "2026-03-06")))
    by (split; [reflexivity | intros H; discriminate H]).
  assert (Hp : plain (data Fixtures.staleItem)) by (vm_compute; reflexivity).
  split; [exact Hp|]. split; [exact H|]. split.
  - destruct (entry_without_ttl_lives_a_day (Fixtures.worldWithStores 0 ∅ ∅)
                (utf16 "2026-03-06") (data Fixtures.staleItem) (Some (Int 0))
                86399999 Hp H) as [H0 _].
    rewrite H0; [reflexivity | right; left; reflexivity].
  - destruct (entry_without_ttl_lives_a_day (Fixtures.worldWithStores 0 ∅ ∅)
                (utf16 "2026-03-06") (data Fixtures.staleItem) (Some Infinity)
                31536000000 Hp H) as [_ Hinf].
    rewrite Hinf; [reflexivity | left; reflexivity].
Defined.

(** X18.  While the remote store holds a text under the key of a date, a
    [save] for that date with [useCloudStorage: false] does not change
    what [get] returns for it: [get] goes on reading the remote
    store. *)
Theorem local_save_is_shadowed (w : World) (date : jsstring)
    (events : list ScheduleEvent) (t : option number) (text : Stored) :
  cloudItem w (getCacheKey date) = Some text ->
  isEmptyText text = false ->
  fst (get date
         (snd (save date events (Some (mkCacheOptions t (Some false))) w)))
  = fst (get date w).
Proof.
  intros Hc He.
  destruct (save_frame date events (Some (mkCacheOptions t (Some false))) w)
    as (Hclock & _ & _ & Hf).
  apply get_fst_same; [|exact Hclock].
  assert (Hsame : cloudItem
                    (snd (save date events
                            (Some (mkCacheOptions t (Some false))) w))
                    (getCacheKey date)
                  = cloudItem w (getCacheKey date)).
  { unfold cloudItem. rewrite !cloudSeen_held.
    destruct (Hf GetItem) as [-> _].
    rewrite save_local_only by reflexivity. reflexivity. }
  unfold found. rewrite Hsame, Hc. cbn [missing]. rewrite He. reflexivity.
Qed.

(** The theorem above where the remote store holds the English class for
    6 March: an empty list saved locally is not what [get] returns. *)
Lemma local_save_is_shadowed_witness :
  cloudItem
    (Fixtures.worldWithStores 500
       {[ getCacheKey (utf16 "2026-03-06")
          := JSON_stringify Fixtures.staleItem ]} ∅)
    (getCacheKey (utf16 "2026-03-06"))
  = Some (JSON_stringify Fixtures.staleItem)
  /\ isEmptyText (JSON_stringify Fixtures.staleItem) = false
  /\ fst (get (utf16 "2026-03-06")
            (snd (save (utf16 "2026-03-06") []
                    (Some (mkCacheOptions None (Some false)))
                    (Fixtures.worldWithStores 500
                       {[ getCacheKey (utf16 "2026-03-06")
                          := JSON_stringify Fixtures.staleItem ]} ∅))))
     = Ok (Some (data Fixtures.staleItem)).
Proof.
  assert (H1 : cloudItem
                 (Fixtures.worldWithStores 500
                    {[ getCacheKey (utf16 "2026-03-06")
                       := JSON_stringify Fixtures.staleItem ]} ∅)
                 (getCacheKey (utf16 "2026-03-06"))
               = Some (JSON_stringify Fixtures.staleItem))
    by (vm_compute; reflexivity).
  split; [exact H1|]. split; [reflexivity|].
  rewrite (local_save_is_shadowed _ _ [] None _ H1 eq_refl).
  vm_compute. reflexivity.
Defined.

End CacheAdminSpec.

(** ** The credentials manager *)

Module CredentialsFacts.
Import JS Host Credentials CredentialsManager ClientReadings.

(** Credentials in memory are returned as they are. *)
Lemma get_cached config w c :
  cachedCredentials w = Some c -> get config w = (Ok c, w).
Proof. unfold get, bind, read, ret. intros ->. reflexivity. Qed.

Ltac run_get :=
  unfold get, getTelegramInitData, bind, read, ret, throw, write, fetch.

(** What a [get] that returns has done. *)
Lemma get_ok config w c w' :
  get config w = (Ok c, w') ->
  cachedCredentials w' = Some c
  /\ (cachedCredentials w = None ->
      username c <> [] /\ password c <> [] /\ base_plan_id c <> []
      /\ exists r, sent w' = sent w ++ [r]
                   /\ req_method r = GET
                   /\ req_url r = cm_apiUrl config
                                  ++ utf16 "/api/user/credentials").
Proof.
  run_get.
  destruct (cachedCredentials w) as [c0|] eqn:Hc.
  { intros H; simplify_eq. split; [assumption | discriminate]. }
  destruct (telegram w) as [app|]; [|discriminate].
  destruct (network w (sent w) _) as [elapsed [e|r]]; [discriminate|].
  destruct (ok r); cbn [negb]; [|destruct (status r =? 404)%N; discriminate].
  destruct (json r) as [e|e|d]; [discriminate..|].
  destruct (field d (utf16 "username")) as [|u1 u] eqn:Hu; [discriminate|].
  destruct (field d (utf16 "password")) as [|p1 p] eqn:Hp; [discriminate|].
  destruct (field d (utf16 "base_plan_id")) as [|b1 b] eqn:Hb; [discriminate|].
  intros H; simplify_eq. split; [reflexivity|]. intros _.
  cbn [username password base_plan_id sent set_cachedCredentials set_sent].
  repeat (split; [discriminate|]).
  eexists. split; [reflexivity|]. split; reflexivity.
Qed.

(** A [get] that throws leaves the memory empty. *)
Lemma get_throw config w e w' :
  get config w = (Throw e, w') ->
  cachedCredentials w = None /\ cachedCredentials w' = None.
Proof.
  run_get.
  destruct (cachedCredentials w) as [c0|] eqn:Hc; [discriminate|].
  destruct (telegram w) as [app|]; [|intros H; simplify_eq; auto].
  destruct (network w (sent w) _) as [elapsed [e0|r]];
    [intros H; simplify_eq; auto|].
  destruct (ok r); cbn [negb];
    [|destruct (status r =? 404)%N; intros H; simplify_eq; auto].
  destruct (json r) as [e0|e0|d]; [intros H; simplify_eq; auto..|].
  destruct (field d (utf16 "username")) as [|u1 u];
    [intros H; simplify_eq; auto|].
  destruct (field d (utf16 "password")) as [|p1 p];
    [intros H; simplify_eq; auto|].
  destruct (field d (utf16 "base_plan_id")) as [|b1 b];
    [intros H; simplify_eq; auto|].
  discriminate.
Qed.


(** [validate] in terms of what the network answers. *)
Lemma validate_spec credentials w :
  let req := validateRequest credentials (authorization credentials) in
  validate credentials w
  = if latin1 (username credentials ++ utf16 ":" ++ password credentials)
    then
      let w1 :=
        set_sent (sent w ++ [req])
          (set_clock (clock w + fst (network w (sent w) req))%Z w) in
      match snd (network w (sent w) req) with
      | Responded r => (Ok (ok r), w1)
      | Rejected e => (Ok false, w1)
      end
    else (Ok false, w).
Proof.
  cbv zeta. unfold validate, try_catch, bind, btoa, latin1, authorization.
  destruct (forallb _ _); [|reflexivity].
  unfold ret, fetch.
  destruct (network w (sent w) _) as [elapsed [e|r]]; reflexivity.
Qed.

Lemma validate_ok credentials w : exists b, fst (validate credentials w) = Ok b.
Proof.
  rewrite validate_spec. cbv zeta.
  destruct (latin1 _); [|eauto].
  destruct (snd (network w (sent w) _)); eauto.
Qed.

(** [validate] touches neither the memory nor the stores, and sends at
    most its one request. *)
Lemma validate_frame credentials w :
  cachedCredentials (snd (validate credentials w)) = cachedCredentials w
  /\ telegram (snd (validate credentials w)) = telegram w
  /\ localStorage (snd (validate credentials w)) = localStorage w
  /\ (sent (snd (validate credentials w)) = sent w
      \/ sent (snd (validate credentials w))
         = sent w ++ [validateRequest credentials (authorization credentials)]).
Proof.
  rewrite validate_spec. cbv zeta.
  destruct (latin1 _); [|auto].
  destruct (snd (network w (sent w) _)); auto.
Qed.

(** What [save] leaves behind. *)
Lemma save_spec config credentials w :
  match save config credentials w with
  | (Ok _, w') =>
      cachedCredentials w' = Some credentials
      /\ exists r, sent w' = sent w ++ [r]
                   /\ req_method r = POST
                   /\ req_url r = cm_apiUrl config
                                  ++ utf16 "/api/auth/credentials"
                   /\ req_body r = Some (saveBody credentials)
  | (Throw e, w') => cachedCredentials w' = cachedCredentials w
  end
  /\ telegram (snd (save config credentials w)) = telegram w
  /\ localStorage (snd (save config credentials w)) = localStorage w.
Proof.
  unfold save, getTelegramInitData, bind, read, ret, throw, write, fetch.
  destruct (telegram w) as [app|] eqn:Ht; [|auto].
  destruct (network w (sent w) _) as [elapsed [e|r]]; [auto|].
  destruct (ok r); cbn [negb].
  - split; [|auto]. split; [reflexivity|].
    eexists. split; [reflexivity|]. auto.
  - destruct (json r) as [e|e|d]; [auto..|].
    destruct (field d (utf16 "message")); auto.
Qed.

(** What [delete] leaves behind. *)
Lemma delete_spec config w :
  match delete config w with
  | (Ok _, w') => cachedCredentials w' = None
  | (Throw e, w') => cachedCredentials w' = cachedCredentials w
  end
  /\ telegram (snd (delete config w)) = telegram w
  /\ localStorage (snd (delete config w)) = localStorage w.
Proof.
  unfold delete, clear, getTelegramInitData, bind, read, ret, throw, write,
    fetch.
  destruct (telegram w) as [app|] eqn:Ht; [|auto].
  destruct (network w (sent w) _) as [elapsed [e|r]]; [auto|].
  destruct (ok r); cbn [negb]; auto.
Qed.

End CredentialsFacts.

Module CredentialsSpec.
Import JS Host Credentials CredentialsManager ClientReadings CredentialsFacts.

(** X19.  Once [get] has returned credentials they stay in memory: in
    any world with that memory, whatever the backend would answer
    there, [get] returns the same credentials, sends no request and
    changes nothing. *)
Theorem credentials_are_fetched_once (config config2 : CredentialsManagerConfig)
    (w w' w2 : World) (c : UserCredentials) :
  get config w = (Ok c, w') ->
  cachedCredentials w2 = cachedCredentials w' ->
  get config2 w2 = (Ok c, w2).
Proof.
  intros Hget Hsame. apply get_cached.
  rewrite Hsame. apply (get_ok _ _ _ _ Hget).
Qed.

Lemma credentials_are_fetched_once_witness :
  fst (get (mkCredentialsManagerConfig (utf16 "https://backend.example"))
         Scenarios.backendWithStudent)
  = Ok Fixtures.student
  /\ get (mkCredentialsManagerConfig (utf16 "https://backend.example"))
       (snd (get (mkCredentialsManagerConfig (utf16 "https://backend.example"))
               Scenarios.backendWithStudent))
     = (Ok Fixtures.student,
        snd (get (mkCredentialsManagerConfig (utf16 "https://backend.example"))
               Scenarios.backendWithStudent)).
Proof.
  assert (H : get (mkCredentialsManagerConfig (utf16 "https://backend.example"))
                Scenarios.backendWithStudent
              = (Ok Fixtures.student,
                 snd (get (mkCredentialsManagerConfig
                             (utf16 "https://backend.example"))
                        Scenarios.backendWithStudent)))
    by (vm_compute; reflexivity).
  split; [rewrite H; reflexivity|].
  exact (credentials_are_fetched_once _ _ _ _ _ _ H eq_refl).
Defined.

(** X20.  [get] takes credentials from the backend whole or not at all:
    with nothing in memory, a [get] that returns has sent one GET to
    [/api/user/credentials], its credentials have a login, a password and
    a plan none of which is empty, and they are then in memory; a [get]
    that throws leaves the memory empty. *)
Theorem credentials_from_backend_are_complete
    (config : CredentialsManagerConfig) (w : World) :
  cachedCredentials w = None ->
  match get config w with
  | (Ok c, w') =>
      username c <> [] /\ password c <> [] /\ base_plan_id c <> []
      /\ cachedCredentials w' = Some c
      /\ exists r, sent w' = sent w ++ [r]
                   /\ req_method r = GET
                   /\ req_url r = cm_apiUrl config
                                  ++ utf16 "/api/user/credentials"
  | (Throw e, w') => cachedCredentials w' = None
  end.
Proof.
  intros Hnone.
  destruct (get config w) as [[c|e] w'] eqn:Hget.
  - destruct (get_ok _ _ _ _ Hget) as (Hmem & Hrest).
    destruct (Hrest Hnone) as (Hu & Hp & Hb & Hr). auto.
  - apply (get_throw _ _ _ _ Hget).
Qed.

Lemma credentials_from_backend_are_complete_witness :
  cachedCredentials Scenarios.backendWithoutCredentials = None
  /\ fst (get (mkCredentialsManagerConfig (utf16 "https://backend.example"))
            Scenarios.backendWithoutCredentials)
     = Throw (Error (utf16 "Учетные данные не найдены. Пожалуйста, введите логин и пароль."))
  /\ cachedCredentials
       (snd (get (mkCredentialsManagerConfig (utf16 "https://backend.example"))
               Scenarios.backendWithoutCredentials))
     = None.
Proof.
  split; [reflexivity|]. split; [vm_compute; reflexivity|].
  pose proof (credentials_from_backend_are_complete
                (mkCredentialsManagerConfig (utf16 "https://backend.example"))
                Scenarios.backendWithoutCredentials eq_refl) as H.
  destruct (get _ Scenarios.backendWithoutCredentials) as [[c|e] w'] eqn:Hget.
  - vm_compute in Hget. discriminate Hget.
  - exact H.
Defined.


(** X21.  [validate] never throws, and touches neither the credentials
    in memory nor the stores.  It returns [true] exactly when the login
    and the password have no character outside Latin-1 and the portal
    answers the HEAD request, which carries them as Basic
    authorization, with a status from 200 to 299; when they have such a
    character no request is sent. *)
Theorem validate_reports_the_portal (credentials : UserCredentials)
    (w : World) :
  let req := validateRequest credentials (authorization credentials) in
  let plain :=
    latin1 (username credentials ++ utf16 ":" ++ password credentials) in
  exists b,
    fst (validate credentials w) = Ok b
    /\ (b = true
        <-> plain = true
            /\ exists r, snd (network w (sent w) req) = Responded r
                         /\ ok r = true)
    /\ (plain = false -> snd (validate credentials w) = w)
    /\ (plain = true -> sent (snd (validate credentials w)) = sent w ++ [req])
    /\ cachedCredentials (snd (validate credentials w)) = cachedCredentials w
    /\ telegram (snd (validate credentials w)) = telegram w
    /\ localStorage (snd (validate credentials w)) = localStorage w.
Proof.
  cbv zeta. rewrite validate_spec. cbv zeta.
  destruct (latin1 _).
  - destruct (snd (network w (sent w) _)) as [e|r] eqn:Hn.
    + exists false. cbn [fst snd]. repeat split; auto; try discriminate.
      intros (_ & r & Hr & _). discriminate.
    + exists (ok r). cbn [fst snd]. repeat split; auto; try discriminate.
      * eauto.
      * intros (_ & r' & Hr & Hok). injection Hr as ->. exact Hok.
  - exists false. cbn [fst snd]. repeat split; auto; try discriminate.
    intros (? & _). discriminate.
Qed.

(** X22.  After a [save] that returns, the saved credentials are what
    [get] returns, from memory and without a request; a [save] that
    throws leaves the memory as it was.  Neither touches the stores. *)
Theorem saved_credentials_are_served (config : CredentialsManagerConfig)
    (credentials : UserCredentials) (w : World) :
  match save config credentials w with
  | (Ok _, w') => get config w' = (Ok credentials, w')
  | (Throw e, w') => cachedCredentials w' = cachedCredentials w
  end
  /\ telegram (snd (save config credentials w)) = telegram w
  /\ localStorage (snd (save config credentials w)) = localStorage w.
Proof.
  destruct (save_spec config credentials w) as (H & Ht & Hl).
  split; [|auto].
  destruct (save config credentials w) as [[[]|e] w']; [|exact H].
  apply get_cached. apply H.
Qed.

(** X23.  [update] sends nothing to the backend for credentials the
    portal does not accept: when [validate] returns [false], [update]
    throws, the memory is as it was, and the only request that may have
    been sent is the HEAD of [validate]. *)
Theorem update_needs_valid_credentials (config : CredentialsManagerConfig)
    (credentials : UserCredentials) (w : World) :
  fst (validate credentials w) = Ok false ->
  exists w',
    update config credentials w
    = (Throw (Error (utf16 "Неверный логин или пароль")), w')
    /\ cachedCredentials w' = cachedCredentials w
    /\ (sent w' = sent w
        \/ sent w'
           = sent w ++ [validateRequest credentials (authorization credentials)]).
Proof.
  intros Hv. exists (snd (validate credentials w)).
  destruct (validate_frame credentials w) as (Hc & _ & _ & Hs).
  split; [|auto].
  unfold update, bind.
  destruct (validate credentials w) as [[b|e] w1]; cbn [fst snd] in *;
    [|discriminate].
  injection Hv as ->. reflexivity.
Qed.

Lemma update_needs_valid_credentials_witness :
  fst (validate Fixtures.student Scenarios.refusingEverything) = Ok false
  /\ fst (update (mkCredentialsManagerConfig (utf16 "https://backend.example"))
            Fixtures.student Scenarios.refusingEverything)
     = Throw (Error (utf16 "Неверный логин или пароль"))
  /\ length (sent (snd (update (mkCredentialsManagerConfig
                                  (utf16 "https://backend.example"))
                          Fixtures.student Scenarios.refusingEverything)))
     = 1.
Proof.
  assert (H : fst (validate Fixtures.student Scenarios.refusingEverything)
              = Ok false) by (vm_compute; reflexivity).
  split; [exact H|].
  destruct (update_needs_valid_credentials
              (mkCredentialsManagerConfig (utf16 "https://backend.example"))
              Fixtures.student Scenarios.refusingEverything H)
    as (w' & Hu & _).
  rewrite Hu. split; [reflexivity|].
  vm_compute in Hu. injection Hu as <-. reflexivity.
Defined.

End CredentialsSpec.

(** ** The rest of the service *)

Module ServiceAdminFacts.
Import JS Regex Parser Host Client ClientReadings Cache CacheReadings
  CacheFacts Service ServiceFacts ServiceReadings ServiceAdmin
  CredentialsFacts.


Lemma sameNet_ret {A} (a : A) : sameNet (ret a).
Proof. intros w; reflexivity. Qed.

Lemma sameNet_throw {A} e : sameNet (@throw A e).
Proof. intros w; reflexivity. Qed.

Lemma sameNet_read {A} (f : World -> A) : sameNet (read f).
Proof. intros w; reflexivity. Qed.

Lemma sameNet_bind {A B} (m : M A) (k : A -> M B) :
  sameNet m -> (forall a, sameNet (k a)) -> sameNet (bind m k).
Proof.
  intros Hm Hk w. unfold bind.
  specialize (Hm w). destruct (m w) as [[a|e] w']; simpl in *; [|assumption].
  rewrite (Hk a w'). assumption.
Qed.

Lemma sameNet_try_catch {A} (m : M A) (h : JsError -> M A) :
  sameNet m -> (forall e, sameNet (h e)) -> sameNet (try_catch m h).
Proof.
  intros Hm Hh w. unfold try_catch.
  specialize (Hm w). destruct (m w) as [[a|e] w']; simpl in *; [assumption|].
  rewrite (Hh e w'). assumption.
Qed.

Lemma sameNet_fetch req : sameNet (fetch req).
Proof.
  intros w. unfold fetch.
  destruct (network w (sent w) req) as [elapsed [e|r]]; reflexivity.
Qed.

Lemma sameNet_btoa s : sameNet (btoa s).
Proof.
  unfold btoa. destruct (forallb _ s); [apply sameNet_ret | apply sameNet_throw].
Qed.

Lemma sameNet_write_credentials c : sameNet (write (set_cachedCredentials c)).
Proof. intros w; reflexivity. Qed.

Ltac sameNet_step :=
  match goal with
  | |- sameNet (bind _ _) => apply sameNet_bind; [|intros ?]
  | |- sameNet (try_catch _ _) => apply sameNet_try_catch; [|intros ?]
  | |- sameNet (ret _) => apply sameNet_ret
  | |- sameNet (throw _) => apply sameNet_throw
  | |- sameNet (read _) => apply sameNet_read
  | |- sameNet (fetch _) => apply sameNet_fetch
  | |- sameNet (btoa _) => apply sameNet_btoa
  | |- sameNet (write (set_cachedCredentials _)) =>
      apply sameNet_write_credentials
  | |- sameNet (if ?b then _ else _) => destruct b
  | |- sameNet (let '(_, _) := ?p in _) => destruct p
  | |- sameNet (match ?x with _ => _ end) => destruct x
  end.

Lemma sameNet_credentials config : sameNet (Credentials.get config).
Proof.
  unfold Credentials.get, Credentials.getTelegramInitData.
  repeat sameNet_step.
Qed.

Lemma sameNet_fetchInitialPage config credentials :
  sameNet (fetchInitialPage config credentials).
Proof. unfold fetchInitialPage, createAuthHeader. repeat sameNet_step. Qed.

Lemma sameNet_switchToDayView config credentials form :
  sameNet (switchToDayView config credentials form).
Proof. unfold switchToDayView, createAuthHeader. repeat sameNet_step. Qed.

(** The cache leaves the network, and the launch data of the chat
    application, as they are. *)
Lemma remove_net date w :
  network (snd (Cache.remove date w)) = network w
  /\ option_map initData (telegram (snd (Cache.remove date w)))
     = option_map initData (telegram w).
Proof. split_world w; run_cache; split_flags; split; reflexivity. Qed.

Lemma get_net date w :
  network (snd (Cache.get date w)) = network w
  /\ option_map initData (telegram (snd (Cache.get date w)))
     = option_map initData (telegram w).
Proof.
  rewrite get_spec.
  destruct (found w (getCacheKey date)) as [text|]; [|auto].
  destruct (isEmptyText text); [auto|].
  destruct (JSON_parse text) as [item|]; [|auto].
  destruct (validAt (clock w) item); [auto | apply remove_net].
Qed.

Lemma get_never_throws date w : exists r, fst (Cache.get date w) = Ok r.
Proof.
  rewrite get_spec.
  destruct (found w (getCacheKey date)) as [text|]; [|eauto].
  destruct (isEmptyText text); [eauto|].
  destruct (JSON_parse text) as [item|]; [|eauto].
  destruct (validAt (clock w) item); eauto.
Qed.

Lemma fromNetwork_same w w1 w' e :
  network w1 = network w -> fromNetwork w1 w' e -> fromNetwork w w' e.
Proof. unfold fromNetwork. intros ->. auto. Qed.

(** The shapes in which an error comes from the network. *)
Lemma fromNetwork_rejected w w' req elapsed e :
  sent w' = sent w ++ [req] ->
  network w (sent w) req = (elapsed, Rejected e) ->
  fromNetwork w w' e.
Proof.
  intros Hs Hn. exists (sent w), req, elapsed, (Rejected e).
  split; [exact Hs|]. split; [exact Hn | reflexivity].
Qed.

Lemma fromNetwork_status w w' req elapsed r :
  sent w' = sent w ++ [req] ->
  network w (sent w) req = (elapsed, Responded r) ->
  ok r = false ->
  fromNetwork w w'
    (Error (utf16 "HTTP " ++ String_of_N (status r) ++ utf16 ": "
            ++ statusText r)).
Proof.
  intros Hs Hn Hok. exists (sent w), req, elapsed, (Responded r).
  split; [exact Hs|]. split; [exact Hn|]. left. split; [exact Hok|reflexivity].
Qed.

Lemma fromNetwork_json w w' req elapsed r e :
  sent w' = sent w ++ [req] ->
  network w (sent w) req = (elapsed, Responded r) ->
  ok r = true ->
  json r = JsonRejects e \/ json r = JsonNull e ->
  fromNetwork w w' e.
Proof.
  intros Hs Hn Hok Hj. exists (sent w), req, elapsed, (Responded r).
  split; [exact Hs|]. split; [exact Hn|]. right. split; assumption.
Qed.

(** *** Where the errors come from *)


Lemma throwsOnly_bind {A B} (m : M A) (k : A -> M B) :
  throwsOnly m -> sameNet m -> (forall a, throwsOnly (k a)) ->
  throwsOnly (bind m k).
Proof.
  intros Hm Hn Hk w e w'. unfold bind.
  specialize (Hm w). specialize (Hn w).
  destruct (m w) as [[a|e0] w1]; cbn [snd] in Hn.
  - intros H. destruct (Hk a _ _ _ H) as [?|Hf]; [auto|].
    right. eapply fromNetwork_same; eassumption.
  - intros H. injection H as <- <-. eauto.
Qed.

Lemma throwsOnly_credentials config : throwsOnly (Credentials.get config).
Proof.
  intros w e w'.
  unfold Credentials.get, Credentials.getTelegramInitData, bind, read, ret,
    throw, write, fetch.
  destruct (cachedCredentials w) as [c0|]; [discriminate|].
  destruct (telegram w) as [app|];
    [|intros H; simplify_eq; left; vm_compute; reflexivity].
  destruct (network w (sent w) _) as [elapsed [e0|r]] eqn:Hn.
  { intros H; simplify_eq. right.
    eapply fromNetwork_rejected; [reflexivity | exact Hn]. }
  destruct (ok r) eqn:Hok; cbn [negb].
  2: { destruct (status r =? 404)%N; intros H; simplify_eq.
       - left. vm_compute. reflexivity.
       - right. eapply fromNetwork_status; [reflexivity | exact Hn | exact Hok]. }
  destruct (json r) as [e0|e0|d] eqn:Hj.
  1, 2: intros H; simplify_eq; right;
    eapply fromNetwork_json; [reflexivity | exact Hn | exact Hok | auto].
  destruct (Credentials.field d (utf16 "username")) as [|u1 u];
    [intros H; simplify_eq; left; vm_compute; reflexivity|].
  destruct (Credentials.field d (utf16 "password")) as [|p1 p];
    [intros H; simplify_eq; left; vm_compute; reflexivity|].
  destruct (Credentials.field d (utf16 "base_plan_id")) as [|b1 b];
    [intros H; simplify_eq; left; vm_compute; reflexivity|].
  discriminate.
Qed.

(** The three requests to the portal fail alike. *)
Ltac portal_errors :=
  intros ?w ?e ?w';
  unfold fetchInitialPage, switchToDayView, navigateToDate, createAuthHeader,
    httpError, bind, btoa;
  destruct (forallb _ _);
    [|unfold throw; intros ?H; simplify_eq; left; vm_compute; reflexivity];
  unfold ret, throw, fetch;
  match goal with
  | |- context [network ?w0 (sent ?w0) ?req] =>
      destruct (network w0 (sent w0) req) as [?elapsed [?e0|?r]] eqn:?Hn
  end;
  [intros ?H; simplify_eq; right;
   eapply fromNetwork_rejected; [reflexivity | eassumption]|];
  match goal with
  | |- context [ok ?r] =>
      destruct (ok r) eqn:?Hok; cbn [negb]; [discriminate|];
      intros ?H; simplify_eq; right;
      eapply fromNetwork_status; [reflexivity | eassumption | eassumption]
  end.

Lemma throwsOnly_fetchInitialPage config credentials :
  throwsOnly (fetchInitialPage config credentials).
Proof. portal_errors. Qed.

Lemma throwsOnly_switchToDayView config credentials form :
  throwsOnly (switchToDayView config credentials form).
Proof. portal_errors. Qed.

Lemma throwsOnly_navigateToDate config credentials form date :
  throwsOnly (navigateToDate config credentials form date).
Proof. portal_errors. Qed.

Lemma throwsOnly_fetchSchedule config credentials date :
  throwsOnly (fetchSchedule config credentials date).
Proof.
  intros w e w'. unfold fetchSchedule, try_catch.
  match goal with
  | |- context [bind ?m ?k w] =>
      assert (Hm : throwsOnly (bind m k)); [|specialize (Hm w)]
  end.
  { apply throwsOnly_bind;
      [apply throwsOnly_fetchInitialPage | apply sameNet_fetchInitialPage|].
    intros html. apply throwsOnly_bind;
      [apply throwsOnly_switchToDayView | apply sameNet_switchToDayView|].
    intros [html2 form2]. apply throwsOnly_bind;
      [apply throwsOnly_navigateToDate | |].
    - unfold navigateToDate, createAuthHeader. repeat sameNet_step.
    - intros [html3 form3] w0 e0 w0'. discriminate. }
  match goal with
  | |- context [bind ?m ?k w] => destruct (bind m k w) as [[a|e0] w1]
  end; [discriminate|].
  unfold throw. intros H. injection H as <- <-. eauto.
Qed.

Lemma throwsOnly_getScheduleForDay config date force :
  throwsOnly (getScheduleForDay config date force).
Proof.
  intros w e w'. unfold getScheduleForDay.
  set (lookup := if useCache config && negb force then Cache.get date
                 else ret None).
  assert (Hl : exists r, fst (lookup w) = Ok r).
  { subst lookup. destruct (useCache config && negb force);
      [apply get_never_throws | eexists; reflexivity]. }
  assert (Hn : network (snd (lookup w)) = network w).
  { subst lookup. destruct (useCache config && negb force);
      [apply get_net | reflexivity]. }
  unfold bind at 1.
  destruct (lookup w) as [[cached|e0] w0]; cbn [fst snd] in Hl, Hn;
    [|destruct Hl; discriminate].
  destruct cached as [cached|]; [discriminate|].
  intros H.
  assert (Hrest : mentionsCredentials e = false \/ fromNetwork w0 w' e).
  { revert H. apply throwsOnly_bind;
      [apply throwsOnly_credentials | apply sameNet_credentials|].
    intros credentials. apply throwsOnly_bind;
      [apply throwsOnly_fetchSchedule | |].
    - unfold fetchSchedule, fetchInitialPage, switchToDayView, navigateToDate,
        createAuthHeader. repeat sameNet_step.
    - intros events w1 e1 w1'. unfold bind.
      destruct (useCache config && (0 <? length events)).
      + pose proof (save_ok date events
                      (Some {| opt_ttl := cacheTTL config;
                               useCloudStorage := Some true |}) w1) as Hs.
        destruct (save _ _ _ w1) as [[[]|e2] w2]; cbn [fst] in Hs;
          discriminate.
      + discriminate. }
  destruct Hrest as [?|Hf]; [auto|].
  right. eapply fromNetwork_same; eassumption.
Qed.


(** The backend answers 404: [get] throws its own error, whose message
    does not mention credentials in Latin letters. *)
Lemma get_missing config w app elapsed r :
  cachedCredentials w = None ->
  option_map initData (telegram w) = Some app ->
  network w (sent w) (credentialsRequest (Credentials.cm_apiUrl config) app)
  = (elapsed, Responded r) ->
  status r = 404%N ->
  exists w',
    Credentials.get config w
    = (Throw (Error (utf16 "Учетные данные не найдены. Пожалуйста, введите логин и пароль.")),
       w')
    /\ cachedCredentials w' = None.
Proof.
  intros Hc Ht Hn Hs.
  unfold Credentials.get, Credentials.getTelegramInitData, bind, read, ret,
    throw, write, fetch.
  rewrite Hc. destruct (telegram w) as [a|]; [|discriminate].
  cbn [option_map] in Ht. injection Ht as ->.
  unfold credentialsRequest in Hn. rewrite Hn.
  unfold ok. rewrite Hs. cbn [N.leb N.eqb andb negb Pos.eqb].
  eexists. split; [reflexivity|]. exact Hc.
Qed.


(** *** The requests of the pipeline, one by one *)


Lemma fetchInitialPage_run config credentials w html w' :
  fetchInitialPage config credentials w = (Ok html, w') ->
  exists r,
    sent w' = sent w ++ [r] /\ network w' = network w
    /\ req_method r = GET /\ req_body r = None
    /\ answered w (sent w) r html.
Proof.
  unfold fetchInitialPage, bind.
  pose proof (createAuthHeader_world (username credentials)
                (password credentials) w) as Hw.
  destruct (createAuthHeader _ _ w) as [[h|e] wh]; simpl in Hw; subst wh;
    [|discriminate].
  unfold fetch.
  destruct (network w (sent w) _) as [elapsed [e|r]] eqn:Hn; [discriminate|].
  destruct (ok r); simpl; unfold ret, throw; intros H; simplify_eq.
  eexists. split; [reflexivity|]. split; [reflexivity|].
  split; [reflexivity|]. split; [reflexivity|].
  exists elapsed, r. split; [exact Hn | reflexivity].
Qed.

Lemma switchToDayView_run config credentials form w html form' w' :
  switchToDayView config credentials form w = (Ok (html, form'), w') ->
  form' = <[CALLBACKPARAM := utf16 "c0:SAVT|Day"]>
            (<[CALLBACKID :=
                 utf16 "ctl00$PlaceHolderMain$_scheduler_ASPxScheduler"]> form)
  /\ exists r,
       sent w' = sent w ++ [r] /\ network w' = network w
       /\ req_method r = POST /\ req_body r = Some form'
       /\ answered w (sent w) r html.
Proof.
  unfold switchToDayView, bind.
  pose proof (createAuthHeader_world (username credentials)
                (password credentials) w) as Hw.
  destruct (createAuthHeader _ _ w) as [[h|e] wh]; simpl in Hw; subst wh;
    [|discriminate].
  unfold fetch.
  destruct (network w (sent w) _) as [elapsed [e|r]] eqn:Hn; [discriminate|].
  destruct (ok r); simpl; unfold ret, throw; intros H; simplify_eq.
  split; [reflexivity|].
  eexists. split; [reflexivity|]. split; [reflexivity|].
  split; [reflexivity|]. split; [reflexivity|].
  exists elapsed, r. split; [exact Hn | reflexivity].
Qed.

Lemma navigateToDate_run config credentials form date w html form' w' :
  navigateToDate config credentials form date w = (Ok (html, form'), w') ->
  (exists param, form' = <[CALLBACKPARAM := param]> form)
  /\ exists r,
       sent w' = sent w ++ [r] /\ network w' = network w
       /\ req_method r = POST /\ req_body r = Some form'
       /\ answered w (sent w) r html.
Proof.
  unfold navigateToDate, bind.
  pose proof (createAuthHeader_world (username credentials)
                (password credentials) w) as Hw.
  destruct (createAuthHeader _ _ w) as [[h|e] wh]; simpl in Hw; subst wh;
    [|discriminate].
  unfold fetch.
  destruct (network w (sent w) _) as [elapsed [e|r]] eqn:Hn; [discriminate|].
  destruct (ok r); simpl; unfold ret, throw; intros H; simplify_eq.
  split; [eexists; reflexivity|].
  eexists. split; [reflexivity|]. split; [reflexivity|].
  split; [reflexivity|]. split; [reflexivity|].
  exists elapsed, r. split; [exact Hn | reflexivity].
Qed.

(** [updateViewState] writes the one field. *)
Lemma updateViewState_other html form name :
  name <> VIEWSTATE -> updateViewState html form !! name = form !! name.
Proof.
  intros Hne. unfold updateViewState.
  destruct (match_ html viewStatePattern); [|reflexivity].
  apply lookup_insert_ne. congruence.
Qed.

End ServiceAdminFacts.

Module ServiceAdminSpec.
Import JS Parser Host Client ClientReadings Cache CacheReadings CacheFacts
  Service ServiceFacts ServiceReadings ServiceAdmin CredentialsFacts
  ServiceAdminFacts.

(** X24.  An error [getScheduleSafe] throws mentions credentials in its
    message and comes from the network, with the answer to the last
    request sent: it is the reason that [fetch] was rejected with, or
    the error made of the status line of a response that is not [ok],
    or the error the engine threw on the body of a response that is
    [ok], when [json()] rejected or resolved to [null].  The errors the
    program words itself, the one for missing credentials among them,
    never pass. *)
Theorem getScheduleSafe_throws_only_network_errors
    (config : ScheduleServiceConfig) (date : jsstring) (w w' : World)
    (e : JsError) :
  getScheduleSafe config date w = (Throw e, w') ->
  mentionsCredentials e = true /\ fromNetwork w w' e.
Proof.
  unfold getScheduleSafe, try_catch.
  pose proof (throwsOnly_getScheduleForDay config date false w) as Hth.
  destruct (getScheduleForDay config date false w) as [[events|e0] w0];
    [discriminate|].
  fold (mentionsCredentials e0).
  destruct (mentionsCredentials e0) eqn:Hm; [|discriminate].
  unfold throw. intros H. injection H as <- <-.
  split; [exact Hm|].
  destruct (Hth e0 w0 eq_refl) as [Hq|Hf]; [congruence | exact Hf].
Qed.

(** The theorem above where every request is answered with 401 and a
    status text that mentions credentials, and where the request for
    the credentials is answered with 200 and a body that is not JSON
    and mentions them. *)
Lemma getScheduleSafe_throws_only_network_errors_witness :
  getScheduleSafe Fixtures.service (utf16 "2026-03-06")
    Scenarios.rejectingCredentials
  = (Throw (Error (utf16 "HTTP 401: Bad credentials")),
     snd (getScheduleSafe Fixtures.service (utf16 "2026-03-06")
            Scenarios.rejectingCredentials))
  /\ fromNetwork Scenarios.rejectingCredentials
       (snd (getScheduleSafe Fixtures.service (utf16 "2026-03-06")
               Scenarios.rejectingCredentials))
       (Error (utf16 "HTTP 401: Bad credentials"))
  /\ getScheduleSafe Fixtures.service (utf16 "2026-03-06")
       Scenarios.answeringInProse
     = (Throw Scenarios.quotingError,
        snd (getScheduleSafe Fixtures.service (utf16 "2026-03-06")
               Scenarios.answeringInProse))
  /\ fromNetwork Scenarios.answeringInProse
       (snd (getScheduleSafe Fixtures.service (utf16 "2026-03-06")
               Scenarios.answeringInProse))
       Scenarios.quotingError.
Proof.
  assert (H : getScheduleSafe Fixtures.service (utf16 "2026-03-06")
                Scenarios.rejectingCredentials
              = (Throw (Error (utf16 "HTTP 401: Bad credentials")),
                 snd (getScheduleSafe Fixtures.service (utf16 "2026-03-06")
                        Scenarios.rejectingCredentials)))
    by (vm_compute; reflexivity).
  assert (H' : getScheduleSafe Fixtures.service (utf16 "2026-03-06")
                 Scenarios.answeringInProse
               = (Throw Scenarios.quotingError,
                  snd (getScheduleSafe Fixtures.service (utf16 "2026-03-06")
                         Scenarios.answeringInProse)))
    by (vm_compute; reflexivity).
  split; [exact H|].
  split;
    [exact (proj2 (getScheduleSafe_throws_only_network_errors _ _ _ _ _ H))|].
  split; [exact H'|].
  exact (proj2 (getScheduleSafe_throws_only_network_errors _ _ _ _ _ H')).
Defined.

(** X25.  When the cache has nothing for the date, no credentials are in
    memory and the backend answers the request for them with 404,
    [getScheduleSafe] does not throw: it returns the empty list, as for
    a day without classes, and the memory stays empty. *)
Theorem getScheduleSafe_hides_missing_credentials
    (config : ScheduleServiceConfig) (date : jsstring) (w : World)
    (app : jsstring) (elapsed : Z) (r : Response) :
  fst ((if useCache config then Cache.get date else ret None) w) = Ok None ->
  cachedCredentials w = None ->
  option_map initData (telegram w) = Some app ->
  network w (sent w) (credentialsRequest (apiUrl config) app)
  = (elapsed, Responded r) ->
  status r = 404%N ->
  fst (getScheduleSafe config date w) = Ok []
  /\ cachedCredentials (snd (getScheduleSafe config date w)) = None.
Proof.
  intros Hmiss Hc Ht Hn Hs.
  unfold getScheduleSafe, try_catch, getScheduleForDay.
  rewrite !andb_true_r. unfold bind.
  set (lookup := if useCache config then Cache.get date else ret None) in *.
  assert (Hframe : sent (snd (lookup w)) = sent w
                   /\ cachedCredentials (snd (lookup w)) = cachedCredentials w
                   /\ network (snd (lookup w)) = network w
                   /\ option_map initData (telegram (snd (lookup w)))
                      = option_map initData (telegram w)).
  { subst lookup. destruct (useCache config); [|auto].
    destruct (get_frame date w) as (_ & H1 & H2 & _).
    destruct (get_net date w) as (H3 & H4). auto. }
  destruct (lookup w) as [[cached|e0] w0]; cbn [fst snd] in Hmiss, Hframe;
    [|discriminate].
  injection Hmiss as ->.
  destruct Hframe as (H1 & H2 & H3 & H4).
  destruct (get_missing
              (Credentials.mkCredentialsManagerConfig (apiUrl config))
              w0 app elapsed r) as (w1 & Hget & Hmem).
  { rewrite H2. exact Hc. }
  { rewrite H4. exact Ht. }
  { rewrite H3, H1. exact Hn. }
  { exact Hs. }
  rewrite Hget. split; [vm_compute; reflexivity | exact Hmem].
Qed.

Lemma getScheduleSafe_hides_missing_credentials_witness :
  fst ((if useCache Fixtures.service then Cache.get (utf16 "2026-03-06")
        else ret None) Scenarios.backendWithoutCredentials) = Ok None
  /\ cachedCredentials Scenarios.backendWithoutCredentials = None
  /\ option_map initData (telegram Scenarios.backendWithoutCredentials)
     = Some (utf16 "query_id=1")
  /\ fst (getScheduleSafe Fixtures.service (utf16 "2026-03-06")
            Scenarios.backendWithoutCredentials) = Ok []
  /\ fst (getScheduleForDay Fixtures.service (utf16 "2026-03-06") false
            Scenarios.backendWithoutCredentials)
     = Throw (Error (utf16 "Учетные данные не найдены. Пожалуйста, введите логин и пароль.")).
Proof.
  assert (H1 : fst ((if useCache Fixtures.service
                     then Cache.get (utf16 "2026-03-06")
                     else ret None) Scenarios.backendWithoutCredentials)
               = Ok None) by (vm_compute; reflexivity).
  assert (H2 : cachedCredentials Scenarios.backendWithoutCredentials = None)
    by reflexivity.
  assert (H3 : option_map initData
                 (telegram Scenarios.backendWithoutCredentials)
               = Some (utf16 "query_id=1")) by reflexivity.
  split; [exact H1|]. split; [exact H2|]. split; [exact H3|].
  split; [|vm_compute; reflexivity].
  exact (proj1 (getScheduleSafe_hides_missing_credentials
                  Fixtures.service (utf16 "2026-03-06")
                  Scenarios.backendWithoutCredentials (utf16 "query_id=1") 0
                  (mkResponse 404 (utf16 "Not Found") [] (JsonObject ∅))
                  H1 H2 H3 eq_refl eq_refl)).
Defined.


(** X26.  [deleteCredentials] empties the memory and the cache only
    when the backend has deleted the credentials: after a call that
    returns, no credentials are in memory, and where neither store
    refuses what [clear] asks of it, [get] of the cache returns [null]
    for every date at any later time; after a call that throws, the
    memory and both stores are as they were. *)
Theorem deleteCredentials_all_or_nothing (config : ScheduleServiceConfig)
    (w : World) :
  match deleteCredentials config w with
  | (Ok _, w') =>
      cachedCredentials w' = None
      /\ (clears w ->
          forall date now',
            Cache.get date (set_clock now' w') = (Ok None, set_clock now' w'))
  | (Throw e, w') =>
      cachedCredentials w' = cachedCredentials w /\ stores w' = stores w
  end.
Proof.
  unfold deleteCredentials, clearCache, bind.
  destruct (delete_spec (credentialsManager config) w) as (H & Ht & Hl).
  destruct (CredentialsManager.delete _ w) as [[[]|e] w1];
    cbn [snd] in Ht, Hl.
  - destruct (CacheAdminFacts.clear_spec w1)
      as (Hok & _ & _ & _ & _ & Hcc & _).
    pose proof (CacheAdminFacts.get_after_clear w1) as Hget.
    destruct (CacheAdmin.clear w1) as [[[]|e] w2]; cbn [fst snd] in *;
      [|discriminate].
    split; [congruence|].
    intros Hcl date now'. apply Hget.
    unfold clears, cloudRefuses, localRefuses, remoteStore in *.
    rewrite Ht, Hl. exact Hcl.
  - split; [exact H|]. unfold stores, remoteStore. rewrite Ht, Hl.
    reflexivity.
Qed.

(** The theorem above where the student is signed in and the local
    store holds the entry of 6 March: the call returns, and the entry
    is gone with the credentials. *)
Lemma deleteCredentials_all_or_nothing_witness :
  clears Scenarios.signedInWithCachedDay
  /\ fst (Cache.get (utf16 "2026-03-06")
            (set_clock 500 Scenarios.signedInWithCachedDay))
     = Ok (Some (data Fixtures.staleItem))
  /\ fst (deleteCredentials Fixtures.service Scenarios.signedInWithCachedDay)
     = Ok tt
  /\ cachedCredentials
       (snd (deleteCredentials Fixtures.service
               Scenarios.signedInWithCachedDay)) = None
  /\ fst (Cache.get (utf16 "2026-03-06")
            (set_clock 500
               (snd (deleteCredentials Fixtures.service
                       Scenarios.signedInWithCachedDay))))
     = Ok None.
Proof.
  assert (Hcl : clears Scenarios.signedInWithCachedDay)
    by (repeat split; reflexivity).
  assert (Hok : fst (deleteCredentials Fixtures.service
                       Scenarios.signedInWithCachedDay) = Ok tt)
    by (vm_compute; reflexivity).
  split; [exact Hcl|]. split; [vm_compute; reflexivity|].
  split; [exact Hok|].
  pose proof (deleteCredentials_all_or_nothing Fixtures.service
                Scenarios.signedInWithCachedDay) as H.
  destruct (deleteCredentials Fixtures.service Scenarios.signedInWithCachedDay)
    as [[[]|e] w']; cbn [fst snd] in *; [|discriminate Hok].
  destruct H as [Hmem Hget].
  split; [exact Hmem|].
  rewrite (Hget Hcl (utf16 "2026-03-06") 500%Z). reflexivity.
Defined.

(** X27.  [saveCredentials] asks the portal before the backend.  A call
    that returns has sent the HEAD of [validate], which the portal
    answered with a status from 200 to 299, and then one POST carrying
    the credentials to [/api/auth/credentials]; the credentials are
    then in memory.  A call that throws leaves the memory as it was, and
    when the portal did not accept the credentials the backend received
    nothing. *)
Theorem saveCredentials_asks_the_portal_first (config : ScheduleServiceConfig)
    (username password basePlanId : jsstring) (w : World) :
  let credentials := mkCredentials username password basePlanId in
  let head :=
    CredentialsManager.validateRequest credentials (authorization credentials) in
  match saveCredentials config username password basePlanId w with
  | (Ok _, w') =>
      fst (CredentialsManager.validate credentials w) = Ok true
      /\ cachedCredentials w' = Some credentials
      /\ exists post,
           sent w' = sent w ++ [head; post]
           /\ req_method post = POST
           /\ req_url post = apiUrl config ++ utf16 "/api/auth/credentials"
           /\ req_body post = Some (CredentialsManager.saveBody credentials)
  | (Throw e, w') =>
      cachedCredentials w' = cachedCredentials w
      /\ (fst (CredentialsManager.validate credentials w) = Ok false ->
          e = Error (utf16 "Неверный логин или пароль. Проверьте учетные данные.")
          /\ (sent w' = sent w \/ sent w' = sent w ++ [head]))
  end.
Proof.
  cbv zeta. unfold saveCredentials, bind.
  set (credentials := mkCredentials username password basePlanId).
  rewrite (validate_spec credentials w). cbv zeta.
  destruct (latin1 _).
  2: { cbn [negb]. unfold throw. split; [reflexivity|]. auto. }
  set (w1 := set_sent _ _).
  assert (Hw1 : cachedCredentials w1 = cachedCredentials w
                /\ sent w1
                   = sent w ++ [CredentialsManager.validateRequest credentials
                                  (authorization credentials)])
    by (split; reflexivity).
  destruct Hw1 as [Hc1 Hs1]. clearbody w1.
  destruct (snd (network w (sent w) _)) as [e|r].
  { cbn [negb]. unfold throw. split; [exact Hc1|]. auto. }
  destruct (ok r); cbn [negb fst].
  2: { unfold throw. split; [exact Hc1|]. auto. }
  destruct (save_spec (credentialsManager config) credentials w1)
    as (H & _ & _).
  destruct (CredentialsManager.save _ credentials w1) as [[[]|e] w2].
  - destruct H as (Hmem & post & Hsent & Hm & Hu & Hb).
    split; [reflexivity|]. split; [exact Hmem|].
    exists post. rewrite Hsent, Hs1, <- app_assoc. auto.
  - split; [congruence | discriminate].
Qed.

(** X28.  The form of the pipeline is one object, filled in by one step
    after the other.  In a run of [fetchSchedule] that returns, the
    first request has no body; the second carries the hidden fields
    [extractFormData] reads off the first page (all but one named
    [__proto__], which the assignment to the form drops) with the two
    callback fields set; the third carries
    the form of the second with [__VIEWSTATE] updated from the second
    page and the callback parameter replaced, so that [__CALLBACKID],
    which the third step never sets, is still there, and every other
    hidden field is the one of the first page.  The events returned are
    those of the third page. *)
Theorem fetchSchedule_threads_the_form (config : EIOSConfig)
    (credentials : UserCredentials) (date : jsstring) (w w' : World)
    (events : list ScheduleEvent) :
  fetchSchedule config credentials date w = (Ok events, w') ->
  exists r1 r2 r3 page1 page2 page3 form2 form3,
    sent w' = sent w ++ [r1; r2; r3]
    /\ answered w (sent w) r1 page1
    /\ answered w (sent w ++ [r1]) r2 page2
    /\ answered w (sent w ++ [r1; r2]) r3 page3
    /\ req_body r1 = None
    /\ req_body r2 = Some form2
    /\ req_body r3 = Some form3
    /\ form2 = <[CALLBACKPARAM := utf16 "c0:SAVT|Day"]>
                 (<[CALLBACKID :=
                      utf16 "ctl00$PlaceHolderMain$_scheduler_ASPxScheduler"]>
                    (extractFormData page1))
    /\ (exists param,
          form3 = <[CALLBACKPARAM := param]> (updateViewState page2 form2))
    /\ form3 !! CALLBACKID
       = Some (utf16 "ctl00$PlaceHolderMain$_scheduler_ASPxScheduler")
    /\ (forall name,
          name <> CALLBACKID -> name <> CALLBACKPARAM -> name <> VIEWSTATE ->
          form3 !! name = extractFormData page1 !! name)
    /\ events = parseResponse page3.
Proof.
  unfold fetchSchedule, try_catch, bind.
  destruct (fetchInitialPage config credentials w) as [[page1|e] w1] eqn:H1;
    [|discriminate].
  apply fetchInitialPage_run in H1 as (r1 & Hs1 & Hn1 & _ & Hb1 & Ha1).
  destruct (switchToDayView config credentials _ w1)
    as [[[page2 form2]|e] w2] eqn:H2; [|discriminate].
  apply switchToDayView_run in H2 as (Hf2 & r2 & Hs2 & Hn2 & _ & Hb2 & Ha2).
  destruct (navigateToDate config credentials _ date w2)
    as [[[page3 form3]|e] w3] eqn:H3; [|discriminate].
  apply navigateToDate_run in H3
    as ((param & Hf3) & r3 & Hs3 & Hn3 & _ & Hb3 & Ha3).
  unfold ret. intros H. injection H as <- <-.
  exists r1, r2, r3, page1, page2, page3, form2, form3.
  assert (Hid : CALLBACKID <> CALLBACKPARAM)
    by (intros H; vm_compute in H; discriminate H).
  assert (Hvs : CALLBACKID <> VIEWSTATE)
    by (intros H; vm_compute in H; discriminate H).
  split; [rewrite Hs3, Hs2, Hs1, <- !app_assoc; reflexivity|].
  split; [exact Ha1|].
  split.
  { unfold answered in *. rewrite <- Hs1, <- Hn1. exact Ha2. }
  split.
  { unfold answered in *.
    replace (sent w ++ [r1; r2]) with (sent w2)
      by (rewrite Hs2, Hs1, <- app_assoc; reflexivity).
    rewrite <- Hn1, <- Hn2. exact Ha3. }
  split; [exact Hb1|]. split; [exact Hb2|]. split; [exact Hb3|].
  split; [exact Hf2|]. split; [eauto|].
  split.
  - rewrite Hf3, lookup_insert_ne by congruence.
    rewrite updateViewState_other by exact Hvs.
    rewrite Hf2, lookup_insert_ne by congruence.
    apply lookup_insert_eq.
  - split; [|reflexivity].
    intros name Hn Hp Hv.
    rewrite Hf3, lookup_insert_ne by congruence.
    rewrite updateViewState_other by exact Hv.
    rewrite Hf2, !lookup_insert_ne by congruence. reflexivity.
Qed.

(** The theorem above on the day of the English class. *)
Lemma fetchSchedule_threads_the_form_witness :
  fst (fetchSchedule defaultEIOSConfig Fixtures.student (utf16 "2026-03-06")
         Fixtures.englishDay)
  = Ok [Fixtures.englishEvent 6 3 2026 (utf16 "6 марта 2026")]
  /\ exists r1 r2 r3,
       sent (snd (fetchSchedule defaultEIOSConfig Fixtures.student
                    (utf16 "2026-03-06") Fixtures.englishDay))
       = [r1; r2; r3]
       /\ exists form3,
            req_body r3 = Some form3
            /\ form3 !! CALLBACKID
               = Some (utf16 "ctl00$PlaceHolderMain$_scheduler_ASPxScheduler").
Proof.
  assert (H : fetchSchedule defaultEIOSConfig Fixtures.student
                (utf16 "2026-03-06") Fixtures.englishDay
              = (Ok [Fixtures.englishEvent 6 3 2026 (utf16 "6 марта 2026")],
                 snd (fetchSchedule defaultEIOSConfig Fixtures.student
                        (utf16 "2026-03-06") Fixtures.englishDay)))
    by (vm_compute; reflexivity).
  split; [rewrite H; reflexivity|].
  destruct (fetchSchedule_threads_the_form _ _ _ _ _ _ H)
    as (r1 & r2 & r3 & p1 & p2 & p3 & f2 & f3 & Hs & _ & _ & _ & _ & _ & Hb
        & _ & _ & Hid & _).
  exists r1, r2, r3. split; [exact Hs|]. exists f3. auto.
Defined.

End ServiceAdminSpec.
